(** * Animal-cell generator: a shallow embedding of [blender/generate_cell.py]

    The script drives Blender through [bpy]: it clears the scene, registers
    fifteen materials and then calls ten organelle generators, each of which
    creates primitive objects, edits them through the handle returned by
    [bpy.context.active_object] and files them in a collection.

    Modelling choices, all visible in the definitions below:
    - Python floats are read as real numbers ([R]): rounding is not
      modelled, so every numeric statement is about exact arithmetic.
    - The module-level generator of [random] is a stream [rnd : nat -> R]
      of draws in [0, 1) together with a cursor kept in the world state;
      seeding the generator fixes the stream and resets the cursor.
    - The host ([bpy], [mathutils]) is a world state threaded through a
      state monad.  Objects live in a store indexed by handles, so that
      assignments through [active_object] and through captured handles
      alias as they do in Python.  Host calls always succeed. *)

From Stdlib Require Import String.
From Stdlib Require Import Reals Lra Lia List Arith Bool.
Import ListNotations.
Open Scope string_scope.
Open Scope list_scope.
Open Scope R_scope.

Set Implicit Arguments.

(* ================================================================== *)
(** ** Vectors ([mathutils.Vector]) *)
(* ================================================================== *)

Record Vec : Type := vec { vx : R; vy : R; vz : R }.

Definition vzero : Vec := vec 0 0 0.
Definition vadd (a b : Vec) : Vec := vec (vx a + vx b) (vy a + vy b) (vz a + vz b).
Definition vsub (a b : Vec) : Vec := vec (vx a - vx b) (vy a - vy b) (vz a - vz b).
Definition vscale (a : Vec) (k : R) : Vec := vec (vx a * k) (vy a * k) (vz a * k).
Definition vdiv (a : Vec) (k : R) : Vec := vec (vx a / k) (vy a / k) (vz a / k).
Definition vdot (a b : Vec) : R := vx a * vx b + vy a * vy b + vz a * vz b.

(** [v.length] *)
Definition vlength (a : Vec) : R := sqrt (vx a * vx a + vy a * vy a + vz a * vz a).

(** [v.normalized()]: a vector of length zero is returned as the zero
    vector, there is no exception. *)
Definition normalized (a : Vec) : Vec :=
  if Req_dec_T (vlength a) 0 then vzero else vdiv a (vlength a).

(** [Euler.to_matrix()] applied to a vector, for the default XYZ order:
    rotate about x, then y, then z. *)
Definition rot_x (a : R) (v : Vec) : Vec :=
  vec (vx v) (vy v * cos a - vz v * sin a) (vy v * sin a + vz v * cos a).
Definition rot_y (a : R) (v : Vec) : Vec :=
  vec (vx v * cos a + vz v * sin a) (vy v) (vz v * cos a - vx v * sin a).
Definition rot_z (a : R) (v : Vec) : Vec :=
  vec (vx v * cos a - vy v * sin a) (vx v * sin a + vy v * cos a) (vz v).
Definition rotate (v : Vec) (euler : Vec) : Vec :=
  rot_z (vz euler) (rot_y (vy euler) (rot_x (vx euler) v)).

(** [x ** y] on floats, for a base that is never negative here. *)
Definition fpow (x y : R) : R := if Rle_dec x 0 then 0 else Rpower x y.

(* ================================================================== *)
(** ** Names, materials, data blocks and objects *)
(* ================================================================== *)

(** An f-string is kept as its pieces: [f"SERTube_{i}_{j}"] is
    [[Lit "SERTube_"; Num i; Lit "_"; Num j]]. *)
Inductive piece : Type :=
| Lit (s : string)
| Num (n : nat).

Definition Name : Type := list piece.

Definition piece_eqb (p q : piece) : bool :=
  match p, q with
  | Lit s, Lit t => String.eqb s t
  | Num n, Num m => Nat.eqb n m
  | _, _ => false
  end.

Definition prefix_of (n : Name) : string :=
  match n with
  | Lit s :: _ => s
  | _ => ""
  end.

Definition Color : Type := (R * R * R)%type.

Record Material : Type := mkMaterial {
  mat_name : string;
  base_color : Color;
  mat_roughness : R;
  mat_alpha : R;
  mat_emission : option (Color * R);
  (** [blend_method = 'BLEND'], [shadow_method = 'HASHED'] and
      [use_backface_culling = False] are set together *)
  mat_blend : bool
}.

Record Texture : Type := mkTexture {
  tex_name : string;
  tex_type : string;
  noise_scale : R
}.

Record Modifier : Type := mkModifier {
  mod_name : string;
  mod_params : list (string * R);
  mod_texture : option Texture
}.

Inductive Prim : Type :=
| UVSphere (radius : R) (segments ring_count : nat)
| Cylinder (radius depth : R)
| Torus (major_radius minor_radius : R) (major_segments minor_segments : nat)
| Plane (size : R).

Record BezPoint : Type := mkBez {
  co : Vec;
  handle_left_type : string;
  handle_right_type : string
}.

Inductive Body : Type :=
| Mesh (p : Prim) (vertices : list Vec)
| Curve (dimensions : string) (bevel_depth : R) (bevel_resolution : nat)
        (splines : list (list BezPoint))
| Camera
| Light (type : string) (energy : R) (color : Color).

Record Data : Type := mkData {
  d_name : Name;
  body : Body;
  materials : list Material;
  use_smooth : bool
}.

Record Obj : Type := mkObj {
  ob_name : Name;
  ob_data : Data;
  location : Vec;
  rotation_euler : Vec;
  scale : Vec;
  modifiers : list Modifier;
  users_collection : list string
}.

(** What the host holds: the objects (a handle is an index into
    [objects]), the data blocks no object uses, the registered materials
    and collections, the active object, and the cursor of [random]. *)
Record World : Type := mkWorld {
  objects : list Obj;
  orphans : list Data;
  bpy_materials : list Material;
  bpy_collections : list string;
  scene_children : list string;
  active : option nat;
  scene_camera : option nat;
  render_engine : string;
  cursor : nat
}.

Definition scene_collection : string := "Scene Collection".

Definition upd_objects (f : list Obj -> list Obj) (w : World) : World :=
  mkWorld (f (objects w)) (orphans w) (bpy_materials w) (bpy_collections w)
          (scene_children w) (active w) (scene_camera w) (render_engine w) (cursor w).

Definition set_active (a : option nat) (w : World) : World :=
  mkWorld (objects w) (orphans w) (bpy_materials w) (bpy_collections w)
          (scene_children w) a (scene_camera w) (render_engine w) (cursor w).

Definition set_cursor (c : nat) (w : World) : World :=
  mkWorld (objects w) (orphans w) (bpy_materials w) (bpy_collections w)
          (scene_children w) (active w) (scene_camera w) (render_engine w) c.

Definition set_name (n : Name) (o : Obj) : Obj :=
  mkObj n (ob_data o) (location o) (rotation_euler o) (scale o) (modifiers o)
        (users_collection o).
Definition upd_data (f : Data -> Data) (o : Obj) : Obj :=
  mkObj (ob_name o) (f (ob_data o)) (location o) (rotation_euler o) (scale o)
        (modifiers o) (users_collection o).
Definition set_location (v : Vec) (o : Obj) : Obj :=
  mkObj (ob_name o) (ob_data o) v (rotation_euler o) (scale o) (modifiers o)
        (users_collection o).
Definition set_rotation (v : Vec) (o : Obj) : Obj :=
  mkObj (ob_name o) (ob_data o) (location o) v (scale o) (modifiers o)
        (users_collection o).
Definition set_scale (v : Vec) (o : Obj) : Obj :=
  mkObj (ob_name o) (ob_data o) (location o) (rotation_euler o) v (modifiers o)
        (users_collection o).
Definition upd_modifiers (f : list Modifier -> list Modifier) (o : Obj) : Obj :=
  mkObj (ob_name o) (ob_data o) (location o) (rotation_euler o) (scale o)
        (f (modifiers o)) (users_collection o).
Definition upd_collections (f : list string -> list string) (o : Obj) : Obj :=
  mkObj (ob_name o) (ob_data o) (location o) (rotation_euler o) (scale o)
        (modifiers o) (f (users_collection o)).

Definition upd_body (f : Body -> Body) (d : Data) : Data :=
  mkData (d_name d) (f (body d)) (materials d) (use_smooth d).
Definition add_material (m : Material) (d : Data) : Data :=
  mkData (d_name d) (body d) (materials d ++ [m]) (use_smooth d).
Definition set_smooth (d : Data) : Data :=
  mkData (d_name d) (body d) (materials d) true.

(** In-place update of the store at a handle; a dangling handle changes
    nothing. *)
Fixpoint alter_at (A : Type) (f : A -> A) (h : nat) (l : list A) : list A :=
  match l, h with
  | [], _ => []
  | x :: l', O => f x :: l'
  | x :: l', S h' => x :: alter_at f h' l'
  end.

(* ================================================================== *)
(** ** The state monad of the script *)
(* ================================================================== *)

Definition M (A : Type) : Type := World -> A * World.

Definition ret (A : Type) (a : A) : M A := fun w => (a, w).
Definition bind (A B : Type) (m : M A) (k : A -> M B) : M B :=
  fun w => let (a, w') := m w in k a w'.

Notation "x <- m ;; k" := (bind m (fun x => k))
  (at level 61, m at next level, right associativity).
Notation "m ;; k" := (bind m (fun _ => k))
  (at level 61, right associativity).

Definition exec (A : Type) (m : M A) (w : World) : World := snd (m w).
Definition eval (A : Type) (m : M A) (w : World) : A := fst (m w).

(** [for x in l: body x] *)
Fixpoint for_each (A : Type) (l : list A) (body : A -> M unit) : M unit :=
  match l with
  | [] => ret tt
  | x :: l' => body x ;; for_each l' body
  end.

(** A loop that carries a local variable of the enclosing function. *)
Fixpoint fold_each (A S : Type) (l : list A) (s : S) (body : A -> S -> M S) : M S :=
  match l with
  | [] => ret s
  | x :: l' => s' <- body x s ;; fold_each l' s' body
  end.

(** [[e for _ in range(n)]] with an effectful [e] *)
Fixpoint replicateM (A : Type) (n : nat) (m : M A) : M (list A) :=
  match n with
  | O => ret []
  | S k => x <- m ;; xs <- replicateM k m ;; ret (x :: xs)
  end.

Definition range (n : nat) : list nat := seq 0 n.

Fixpoint enumerate_from (A : Type) (i : nat) (l : list A) : list (nat * A) :=
  match l with
  | [] => []
  | x :: l' => (i, x) :: enumerate_from (S i) l'
  end.
Definition enumerate (A : Type) (l : list A) : list (nat * A) := enumerate_from 0 l.

(* ================================================================== *)
(** ** The host calls the script makes *)
(* ================================================================== *)

Definition modify (f : World -> World) : M unit := fun w => (tt, f w).

(** [bpy.ops.mesh.primitive_*_add]: the new object is linked to the scene
    collection and becomes the active object. *)
Definition add_active (o : Obj) : M unit :=
  fun w => (tt, set_active (Some (length (objects w)))
                           (upd_objects (fun l => l ++ [o]) w)).

Definition mesh_object (nm : string) (p : Prim) (verts : list Vec) (loc : Vec) : Obj :=
  mkObj [Lit nm] (mkData [Lit nm] (Mesh p verts) [] false) loc vzero (vec 1 1 1) []
        [scene_collection].

Definition primitive_uv_sphere_add (radius : R) (segments ring_count : nat)
    (loc : Vec) : M unit :=
  add_active (mesh_object "Sphere" (UVSphere radius segments ring_count) [] loc).

Definition primitive_cylinder_add (radius depth : R) (loc : Vec) : M unit :=
  add_active (mesh_object "Cylinder" (Cylinder radius depth) [] loc).

Definition primitive_torus_add (major_radius minor_radius : R)
    (major_segments minor_segments : nat) (loc : Vec) : M unit :=
  add_active (mesh_object "Torus"
    (Torus major_radius minor_radius major_segments minor_segments) [] loc).

(** The four corners of a plane of the given size; vertex coordinates are
    kept for planes only, the one mesh whose vertices the script reads. *)
Definition plane_corners (size : R) : list Vec :=
  [vec (- size / 2) (- size / 2) 0; vec (size / 2) (- size / 2) 0;
   vec (- size / 2) (size / 2) 0; vec (size / 2) (size / 2) 0].

Definition primitive_plane_add (size : R) (loc : Vec) : M unit :=
  add_active (mesh_object "Plane" (Plane size) (plane_corners size) loc).

(** [bpy.context.active_object], as a handle *)
Definition active_object : M nat :=
  fun w => (match active w with Some h => h | None => length (objects w) end, w).

Definition obj_update (h : nat) (f : Obj -> Obj) : M unit :=
  modify (upd_objects (alter_at f h)).

(** Reading a field through a handle *)
Definition obj_read (A : Type) (h : nat) (f : Obj -> A) (dflt : A) : M A :=
  fun w => (match nth_error (objects w) h with Some o => f o | None => dflt end, w).

(** [bpy.data.objects.new(name, data)]: in no collection, not active *)
Definition objects_new (n : Name) (d : Data) : M nat :=
  fun w => (length (objects w),
            upd_objects (fun l => l ++ [mkObj n d vzero vzero (vec 1 1 1) [] []]) w).

(** [bpy.data.collections.new(name)] *)
Definition collections_new (name : string) : M string :=
  fun w => (name,
            mkWorld (objects w) (orphans w) (bpy_materials w)
                    (bpy_collections w ++ [name]) (scene_children w) (active w)
                    (scene_camera w) (render_engine w) (cursor w)).

(** [bpy.context.scene.collection.children.link(c)] *)
Definition children_link (c : string) : M unit :=
  modify (fun w =>
            mkWorld (objects w) (orphans w) (bpy_materials w) (bpy_collections w)
                    (scene_children w ++ [c]) (active w) (scene_camera w)
                    (render_engine w) (cursor w)).

(** [c.objects.link(o)] and [c.objects.unlink(o)] *)
Definition link (c : string) (h : nat) : M unit :=
  obj_update h (upd_collections (fun l => l ++ [c])).
Definition unlink (c : string) (h : nat) : M unit :=
  obj_update h (upd_collections (filter (fun c' => negb (String.eqb c' c)))).

(** [o.data.materials.append(m)] *)
Definition materials_append (h : nat) (m : Material) : M unit :=
  obj_update h (upd_data (add_material m)).

(** [bpy.ops.object.shade_smooth()] acts on the active object. *)
Definition shade_smooth : M unit :=
  a <- active_object ;; obj_update a (upd_data set_smooth).

(** [bpy.ops.object.modifier_add(type=...)] appends a modifier with the
    host's defaults to the active object; [o.modifiers[name].key = v]
    then writes one setting. *)
Definition modifier_name (type : string) : string :=
  if String.eqb type "DISPLACE" then "Displace"
  else if String.eqb type "SOLIDIFY" then "Solidify"
  else if String.eqb type "SUBSURF" then "Subdivision"
  else type.

Definition modifier_add (type : string) : M unit :=
  a <- active_object ;;
  obj_update a (upd_modifiers (fun l => l ++ [mkModifier (modifier_name type) [] None])).

Definition on_modifier (name : string) (f : Modifier -> Modifier) (o : Obj) : Obj :=
  upd_modifiers (map (fun m => if String.eqb (mod_name m) name then f m else m)) o.

Definition modifier_set (h : nat) (name key : string) (v : R) : M unit :=
  obj_update h (on_modifier name
    (fun m => mkModifier (mod_name m) (mod_params m ++ [(key, v)]) (mod_texture m))).

Definition modifier_set_texture (h : nat) (name : string) (t : Texture) : M unit :=
  obj_update h (on_modifier name
    (fun m => mkModifier (mod_name m) (mod_params m) (Some t))).

(** [bpy.ops.object.mode_set] and [bpy.ops.mesh.select_all]: the mode and
    the selection inside a mesh are not tracked. *)
Definition mode_set (mode : string) : M unit := ret tt.
Definition mesh_select_all (action : string) : M unit := ret tt.

(** [bpy.ops.object.camera_add] and [bpy.ops.object.light_add]; the
    energy and colour given here are placeholders for the host's
    defaults. *)
Definition camera_add (loc : Vec) : M unit :=
  add_active (mkObj [Lit "Camera"] (mkData [Lit "Camera"] Camera [] false) loc vzero
                    (vec 1 1 1) [] [scene_collection]).
Definition light_add (type : string) (loc : Vec) : M unit :=
  add_active (mkObj [Lit "Light"] (mkData [Lit "Light"] (Light type 1 (1, 1, 1)) [] false)
                    loc vzero (vec 1 1 1) [] [scene_collection]).

Definition set_energy (e : R) (b : Body) : Body :=
  match b with Light t _ c => Light t e c | _ => b end.
Definition set_color (c : Color) (b : Body) : Body :=
  match b with Light t e _ => Light t e c | _ => b end.

(** [bpy.ops.mesh.subdivide(number_cuts=n)] on the active object.  On the
    plane the cuts give a regular grid of [(n+2) x (n+2)] vertices. *)
Definition plane_grid (size : R) (cuts : nat) : list Vec :=
  flat_map (fun i =>
    map (fun j => vec (- size / 2 + size * INR j / INR (S cuts))
                      (- size / 2 + size * INR i / INR (S cuts)) 0)
        (seq 0 (S (S cuts))))
    (seq 0 (S (S cuts))).

Definition subdivide_body (cuts : nat) (b : Body) : Body :=
  match b with
  | Mesh (Plane size) _ => Mesh (Plane size) (plane_grid size cuts)
  | _ => b
  end.

Definition subdivide (number_cuts : nat) : M unit :=
  a <- active_object ;; obj_update a (upd_data (upd_body (subdivide_body number_cuts))).

(** Bezier splines: [splines.new('BEZIER')] has one point,
    [bezier_points.add(n)] appends [n] more, and the script then sets
    [co] and both handle types of each point. *)
Definition default_bez : BezPoint := mkBez vzero "FREE" "FREE".
Definition splines_new : list BezPoint := [default_bez].
Definition bezier_points_add (n : nat) (sp : list BezPoint) : list BezPoint :=
  sp ++ repeat default_bez n.
Definition set_bezier (j : nat) (p : Vec) (sp : list BezPoint) : list BezPoint :=
  alter_at (fun _ => mkBez p "AUTO" "AUTO") j sp.

Definition curve_data (n : Name) (bevel_depth : R) (bevel_resolution : nat)
    (sp : list BezPoint) : Data :=
  mkData n (Curve "3D" bevel_depth bevel_resolution [sp]) [] false.

(* ================================================================== *)
(** ** Cleanup *)
(* ================================================================== *)

Definition is_mesh (d : Data) : bool :=
  match body d with Mesh _ _ => true | _ => false end.

Definition uses_material (m : Material) (d : Data) : bool :=
  existsb (fun m' => String.eqb (mat_name m') (mat_name m)) (materials d).

(** [clear_scene]: every object is selected and deleted, which leaves its
    data block without users; then the meshes without users are removed,
    then the materials without users. *)
Definition clear_scene : M unit :=
  modify (fun w =>
    let unused := orphans w ++ map ob_data (objects w) in
    let kept := filter (fun d => negb (is_mesh d)) unused in
    mkWorld [] kept
            (filter (fun m => existsb (uses_material m) kept) (bpy_materials w))
            (bpy_collections w) (scene_children w) None None
            (render_engine w) (cursor w)).

(* ================================================================== *)
(** ** Materials *)
(* ================================================================== *)

(** The descriptor [create_material] builds from its arguments. *)
Definition create_material (name : string) (color : Color) (alpha roughness : R)
    (emission : option Color) (emission_strength : R) : Material :=
  mkMaterial name color roughness alpha
    (match emission with
     | Some e => if Rgt_dec emission_strength 0 then Some (e, emission_strength) else None
     | None => None
     end)
    (if Rlt_dec alpha 1.0 then true else false).

(** [bpy.data.materials.new], the registration [create_material] does. *)
Definition materials_new (m : Material) : M unit :=
  modify (fun w =>
            mkWorld (objects w) (orphans w) (bpy_materials w ++ [m])
                    (bpy_collections w) (scene_children w) (active w)
                    (scene_camera w) (render_engine w) (cursor w)).

Definition mat_membrane := create_material "Membrane" (0.5, 0.8, 0.6) 0.15 0.1 None 0.
Definition mat_nucleus_envelope :=
  create_material "NuclearEnvelope" (0.4, 0.3, 0.7) 0.5 0.2 None 0.
Definition mat_nucleoplasm :=
  create_material "Nucleoplasm" (0.5, 0.4, 0.8) 0.7 0.4 (Some (0.2, 0.1, 0.3)) 0.3.
Definition mat_nucleolus :=
  create_material "Nucleolus" (0.3, 0.2, 0.5) 1.0 0.6 (Some (0.1, 0.05, 0.15)) 0.5.
Definition mat_chromatin :=
  create_material "Chromatin" (0.6, 0.5, 0.9) 0.9 0.5 (Some (0.2, 0.15, 0.3)) 0.2.
Definition mat_rough_er := create_material "RoughER" (0.2, 0.6, 0.8) 0.6 0.3 None 0.
Definition mat_smooth_er := create_material "SmoothER" (0.3, 0.7, 0.85) 0.5 0.25 None 0.
Definition mat_ribosome := create_material "Ribosome" (0.15, 0.4, 0.6) 1.0 0.6 None 0.
Definition mat_mitochondria_outer :=
  create_material "MitoOuter" (0.9, 0.4, 0.35) 0.75 0.3 None 0.
Definition mat_mitochondria_inner :=
  create_material "MitoInner" (0.95, 0.5, 0.4) 0.9 0.5 (Some (0.3, 0.1, 0.05)) 0.3.
Definition mat_golgi := create_material "Golgi" (0.95, 0.8, 0.3) 0.65 0.3 None 0.
Definition mat_vesicle := create_material "Vesicle" (0.95, 0.85, 0.4) 0.7 0.2 None 0.
Definition mat_lysosome :=
  create_material "Lysosome" (0.5, 0.85, 0.3) 0.75 0.4 (Some (0.15, 0.25, 0.1)) 0.2.
Definition mat_centriole := create_material "Centriole" (0.85, 0.85, 0.95) 1.0 0.3 None 0.
Definition mat_cytoskeleton :=
  create_material "Cytoskeleton" (0.5, 0.5, 0.6) 0.2 0.5 None 0.

Definition all_materials : list Material :=
  [mat_membrane; mat_nucleus_envelope; mat_nucleoplasm; mat_nucleolus; mat_chromatin;
   mat_rough_er; mat_smooth_er; mat_ribosome; mat_mitochondria_outer;
   mat_mitochondria_inner; mat_golgi; mat_vesicle; mat_lysosome; mat_centriole;
   mat_cytoskeleton].

Definition name_set (h : nat) (n : Name) : M unit := obj_update h (set_name n).

(** [math.floor] of a value known to lie in [0, n]: the largest [k <= n]
    with [k <= x]. *)
Fixpoint nfloor (x : R) (n : nat) : nat :=
  match n with
  | O => O
  | S k => if Rle_dec (INR n) x then n else nfloor x k
  end.

(* ================================================================== *)
(** ** The script *)
(* ================================================================== *)

Section Script.

(** The draws the seeded generator will hand out, in order. *)
Variable rnd : nat -> R.

(** [random.random()] *)
Definition random : M R :=
  fun w => (rnd (cursor w), set_cursor (S (cursor w)) w).

(** [random.uniform(a, b)] is [a + (b - a) * random()]. *)
Definition uniform (a b : R) : M R :=
  u <- random ;; ret (a + (b - a) * u).

(** [random.choice(seq)]: one draw selects the index [floor(u * len)]. *)
Definition choice (seq : list R) : M R :=
  u <- random ;;
  ret (nth (nfloor (u * INR (length seq)) (pred (length seq))) seq 0).

Definition random_point_in_sphere (radius : R) : M Vec :=
  u <- random ;;
  v <- random ;;
  let theta := 2 * PI * u in
  let phi := acos (2 * v - 1) in
  w <- random ;;
  let r := radius * fpow w (1 / 3) in
  let x := r * sin phi * cos theta in
  let y := r * sin phi * sin theta in
  let z := r * cos phi in
  ret (vec x y z).

Definition random_point_on_sphere (radius : R) : M Vec :=
  u <- random ;;
  v <- random ;;
  let theta := 2 * PI * u in
  let phi := acos (2 * v - 1) in
  let x := radius * sin phi * cos theta in
  let y := radius * sin phi * sin theta in
  let z := radius * cos phi in
  ret (vec x y z).

(** *** Cell membrane *)

Definition create_membrane : M nat :=
  primitive_uv_sphere_add 3 64 32 vzero ;;
  membrane <- active_object ;;
  name_set membrane [Lit "CellMembrane"] ;;
  materials_append membrane mat_membrane ;;
  modifier_add "DISPLACE" ;;
  modifier_set membrane "Displace" "strength" 0.05 ;;
  let tex := mkTexture "MembraneDisplace" "CLOUDS" 0.5 in
  modifier_set_texture membrane "Displace" tex ;;
  shade_smooth ;;
  ret membrane.

(** *** Nucleus *)

(** Loop bodies are given a name each, so that statements can refer to
    them; [create_nucleus] runs [chromatin_strand] for [i] in
    [range(10)]. *)
Definition chromatin_strand (nucleus_collection : string) (i : nat) : M unit :=
  let spline := bezier_points_add 3 splines_new in
  points <- replicateM 4 (p <- random_point_in_sphere 0.7 ;;
                          ret (vadd p (vec 0 0 0.2))) ;;
  let spline := fold_left (fun sp jp => set_bezier (fst jp) (snd jp) sp)
                          (enumerate points) spline in
  let curve := curve_data [Lit "ChromatinCurve"; Num i] 0.025 4 spline in
  curve_obj <- objects_new [Lit "Chromatin"; Num i] curve ;;
  materials_append curve_obj mat_chromatin ;;
  link nucleus_collection curve_obj.

Definition create_nucleus : M string :=
  nucleus_collection <- collections_new "Nucleus" ;;
  children_link nucleus_collection ;;
  primitive_uv_sphere_add 1.1 48 24 (vec 0 0 0.2) ;;
  envelope <- active_object ;;
  name_set envelope [Lit "NuclearEnvelope"] ;;
  materials_append envelope mat_nucleus_envelope ;;
  shade_smooth ;;
  link nucleus_collection envelope ;;
  unlink scene_collection envelope ;;
  primitive_uv_sphere_add 1.0 48 24 (vec 0 0 0.2) ;;
  nucleoplasm <- active_object ;;
  name_set nucleoplasm [Lit "Nucleoplasm"] ;;
  materials_append nucleoplasm mat_nucleoplasm ;;
  shade_smooth ;;
  link nucleus_collection nucleoplasm ;;
  unlink scene_collection nucleoplasm ;;
  primitive_uv_sphere_add 0.35 24 12 (vec 0.25 0.15 0.35) ;;
  nucleolus <- active_object ;;
  name_set nucleolus [Lit "Nucleolus"] ;;
  materials_append nucleolus mat_nucleolus ;;
  shade_smooth ;;
  link nucleus_collection nucleolus ;;
  unlink scene_collection nucleolus ;;
  for_each (range 10) (chromatin_strand nucleus_collection) ;;
  ret nucleus_collection.

(** *** Rough endoplasmic reticulum *)

Definition er_curve (x : R) : R := 0.15 * (1 - (x * 2) ^ 2).
Definition er_wave (x y : R) : R := sin (x * 8) * 0.03 + sin (y * 6) * 0.02.
Definition er_edge_dist (x y : R) : R := Rmax (Rabs (x * 2)) (Rabs (y * 2)).
Definition er_roll (x y : R) : R :=
  let edge_dist := er_edge_dist x y in
  if Rgt_dec edge_dist 0.7 then ((edge_dist - 0.7) / 0.3) ^ 2 * 0.06 else 0.

(** The body of the loop over [mesh.vertices]: [z] is overwritten. *)
Definition deform_vertex (v : Vec) : Vec :=
  let x := vx v in
  let y := vy v in
  vec x y (er_curve x + er_wave x y + er_roll x y).

Definition deform_body (b : Body) : Body :=
  match b with
  | Mesh p vertices => Mesh p (map deform_vertex vertices)
  | _ => b
  end.

Definition create_er_cisterna (width height : R) (loc rotation : Vec) : M nat :=
  primitive_plane_add 1 loc ;;
  cisterna <- active_object ;;
  obj_update cisterna (set_scale (vec width height 1)) ;;
  obj_update cisterna (set_rotation rotation) ;;
  mode_set "EDIT" ;;
  subdivide 12 ;;
  mode_set "OBJECT" ;;
  obj_update cisterna (upd_data (upd_body deform_body)) ;;
  modifier_add "SOLIDIFY" ;;
  modifier_set cisterna "Solidify" "thickness" 0.02 ;;
  modifier_set cisterna "Solidify" "offset" 0 ;;
  materials_append cisterna mat_rough_er ;;
  shade_smooth ;;
  ret cisterna.

(** The three stacks are three copies of one loop nest with different
    constants; each copy is kept. *)
Definition stack1_loc (i : nat) : Vec :=
  let stack1_base := vec 1.4 0.1 0.3 in
  vadd stack1_base (vec (0.06 * INR i) (INR i * 0.1 - 0.2) 0).
Definition stack2_loc (i : nat) : Vec :=
  let stack2_base := vec (-0.8) (-0.2) 1.3 in
  vadd stack2_base (vec (0.05 * INR i) (INR i * 0.1 - 0.15) 0).
Definition stack3_loc (i : nat) : Vec :=
  let stack3_base := vec 0.5 0.4 (-1.4) in
  vadd stack3_base (vec (0.05 * INR i) (INR i * 0.09 - 0.1) 0).

Definition stack1_ribosome (er_collection : string) (i : nat) (loc : Vec) (r : nat)
    : M unit :=
  dx <- uniform (-0.4) 0.4 ;;
  dy <- uniform (-0.25) 0.25 ;;
  side <- choice [-1; 1] ;;
  primitive_uv_sphere_add 0.018 8 4
    (vec (vx loc + dx) (vy loc + dy) (vz loc + 0.025 * side)) ;;
  ribo <- active_object ;;
  name_set ribo [Lit "Ribosome_S1C"; Num i; Lit "_"; Num r] ;;
  materials_append ribo mat_ribosome ;;
  link er_collection ribo ;;
  unlink scene_collection ribo.

Definition stack1_cisterna (er_collection : string) (i : nat) : M unit :=
  let loc := stack1_loc i in
  u <- random ;;
  let rot := vec 0.1 (-0.3) ((u - 0.5) * 0.1) in
  cisterna <- create_er_cisterna 0.5 0.3 loc rot ;;
  name_set cisterna [Lit "RER_Stack1_Cisterna"; Num i] ;;
  link er_collection cisterna ;;
  unlink scene_collection cisterna ;;
  for_each (range 20) (stack1_ribosome er_collection i loc).

Definition stack2_ribosome (er_collection : string) (i : nat) (loc : Vec) (r : nat)
    : M unit :=
  dx <- uniform (-0.35) 0.35 ;;
  dy <- uniform (-0.22) 0.22 ;;
  side <- choice [-1; 1] ;;
  primitive_uv_sphere_add 0.018 8 4
    (vec (vx loc + dx) (vy loc + dy) (vz loc + 0.025 * side)) ;;
  ribo <- active_object ;;
  name_set ribo [Lit "Ribosome_S2C"; Num i; Lit "_"; Num r] ;;
  materials_append ribo mat_ribosome ;;
  link er_collection ribo ;;
  unlink scene_collection ribo.

Definition stack2_cisterna (er_collection : string) (i : nat) : M unit :=
  let loc := stack2_loc i in
  u <- random ;;
  let rot := vec 0.1 1.9 ((u - 0.5) * 0.1) in
  cisterna <- create_er_cisterna 0.45 0.28 loc rot ;;
  name_set cisterna [Lit "RER_Stack2_Cisterna"; Num i] ;;
  link er_collection cisterna ;;
  unlink scene_collection cisterna ;;
  for_each (range 15) (stack2_ribosome er_collection i loc).

Definition stack3_ribosome (er_collection : string) (i : nat) (loc : Vec) (r : nat)
    : M unit :=
  dx <- uniform (-0.3) 0.3 ;;
  dy <- uniform (-0.2) 0.2 ;;
  side <- choice [-1; 1] ;;
  primitive_uv_sphere_add 0.018 8 4
    (vec (vx loc + dx) (vy loc + dy) (vz loc + 0.025 * side)) ;;
  ribo <- active_object ;;
  name_set ribo [Lit "Ribosome_S3C"; Num i; Lit "_"; Num r] ;;
  materials_append ribo mat_ribosome ;;
  link er_collection ribo ;;
  unlink scene_collection ribo.

Definition stack3_cisterna (er_collection : string) (i : nat) : M unit :=
  let loc := stack3_loc i in
  u <- random ;;
  let rot := vec 0.1 3.8 ((u - 0.5) * 0.1) in
  cisterna <- create_er_cisterna 0.4 0.25 loc rot ;;
  name_set cisterna [Lit "RER_Stack3_Cisterna"; Num i] ;;
  link er_collection cisterna ;;
  unlink scene_collection cisterna ;;
  for_each (range 12) (stack3_ribosome er_collection i loc).

Definition create_rough_er : M string :=
  er_collection <- collections_new "RoughER" ;;
  children_link er_collection ;;
  for_each (range 5) (stack1_cisterna er_collection) ;;
  for_each (range 4) (stack2_cisterna er_collection) ;;
  for_each (range 3) (stack3_cisterna er_collection) ;;
  ret er_collection.

(** *** Smooth endoplasmic reticulum *)

(** [list.sort(key=lambda x: x[1])]: ascending and stable. *)
Fixpoint insert_by_dist (x : nat * R) (l : list (nat * R)) : list (nat * R) :=
  match l with
  | [] => [x]
  | y :: l' => if Rle_dec (snd x) (snd y) then x :: l else y :: insert_by_dist x l'
  end.
Definition sort_by_dist (l : list (nat * R)) : list (nat * R) :=
  fold_right insert_by_dist [] l.

(** The local [connected = set()] of index pairs. *)
Definition pair_eqb (a b : nat * nat) : bool :=
  Nat.eqb (fst a) (fst b) && Nat.eqb (snd a) (snd b).
Definition set_mem (k : nat * nat) (s : list (nat * nat)) : bool := existsb (pair_eqb k) s.
Definition set_add (k : nat * nat) (s : list (nat * nat)) : list (nat * nat) :=
  if set_mem k s then s else k :: s.

(** One round of [for i in range(25)]: four draws and [nodes.append(pos)]. *)
Definition ser_node_body (i : nat) (nodes : list Vec) : M (list Vec) :=
  u1 <- random ;;
  let theta := u1 * 2 * PI in
  u2 <- random ;;
  let phi := u2 * PI in
  u3 <- random ;;
  let r := 1.9 + u3 * 0.5 in
  u4 <- random ;;
  let pos := vec (r * sin phi * cos theta) ((u4 - 0.5) * 1.4)
                 (r * sin phi * sin theta) in
  ret (nodes ++ [pos]).

(** [distances[:3]] after the sort *)
Definition ser_nearest (nodes : list Vec) (i : nat) (node : Vec) : list (nat * R) :=
  let distances :=
    map (fun j => (j, vlength (vsub node (nth j nodes vzero))))
        (filter (fun j => negb (Nat.eqb j i)) (range (length nodes))) in
  let distances := sort_by_dist distances in
  firstn 3 distances.

(** The body of [for j, dist in distances[:3]] *)
Definition ser_connect (ser_collection : string) (nodes : list Vec) (i : nat)
    (jdist : nat * R) (connected : list (nat * nat)) : M (list (nat * nat)) :=
  let j := fst jdist in
  let dist := snd jdist in
  if Rlt_dec dist 1.2 then
    let key := (Nat.min i j, Nat.max i j) in
    if set_mem key connected then ret connected
    else
      let connected := set_add key connected in
      let start := nth i nodes vzero in
      let end_ := nth j nodes vzero in
      jx <- uniform (-0.15) 0.15 ;;
      jy <- uniform (-0.1) 0.1 ;;
      jz <- uniform (-0.15) 0.15 ;;
      let mid := vadd (vdiv (vadd start end_) 2) (vec jx jy jz) in
      let spline := bezier_points_add 1 splines_new in
      let spline := set_bezier 0 start spline in
      let spline := set_bezier 1 end_ spline in
      let curve := curve_data [Lit "SERTube_"; Num i; Lit "_"; Num j] 0.03 6 spline in
      curve_obj <- objects_new [Lit "SERTube_"; Num i; Lit "_"; Num j] curve ;;
      materials_append curve_obj mat_smooth_er ;;
      link ser_collection curve_obj ;;
      ret connected
  else ret connected.

(** The body of [for i, node in enumerate(nodes)] that connects *)
Definition ser_connect_node (ser_collection : string) (nodes : list Vec)
    (inode : nat * Vec) (connected : list (nat * nat)) : M (list (nat * nat)) :=
  let i := fst inode in
  let node := snd inode in
  fold_each (ser_nearest nodes i node) connected (ser_connect ser_collection nodes i).

Definition ser_junction (ser_collection : string) (inode : nat * Vec) : M unit :=
  let i := fst inode in
  let node := snd inode in
  primitive_uv_sphere_add 0.045 12 6 node ;;
  junction <- active_object ;;
  name_set junction [Lit "SERJunction_"; Num i] ;;
  materials_append junction mat_smooth_er ;;
  shade_smooth ;;
  link ser_collection junction ;;
  unlink scene_collection junction.

Definition create_smooth_er : M string :=
  ser_collection <- collections_new "SmoothER" ;;
  children_link ser_collection ;;
  nodes <- fold_each (range 25) [] ser_node_body ;;
  connected <- fold_each (enumerate nodes) [] (ser_connect_node ser_collection nodes) ;;
  for_each (enumerate nodes) (ser_junction ser_collection) ;;
  ret ser_collection.

(** *** Mitochondria *)

Definition crista_body (loc rotation : Vec) (radius len : R) (outer : nat) (i : nat)
    : M unit :=
  primitive_torus_add (radius * 0.6) 0.015 16 8 loc ;;
  crista <- active_object ;;
  obj_update crista (set_rotation rotation) ;;
  obj_update crista (fun o =>
    set_rotation (vec (vx (rotation_euler o) + PI / 2) (vy (rotation_euler o))
                      (vz (rotation_euler o))) o) ;;
  let offset := (INR i - 1.5) * (len / 4.5) in
  outer_rotation <- obj_read outer rotation_euler vzero ;;
  obj_update crista (fun o =>
    set_location (vadd (location o) (rotate (vec 0 0 offset) outer_rotation)) o) ;;
  name_set crista [Lit "Crista_"; Num i] ;;
  materials_append crista mat_mitochondria_inner ;;
  shade_smooth.

(** [Vector.rotate] is read as yielding the rotated vector, which is the
    value the statement [crista.location += ...] adds. *)
Definition create_mitochondrion (loc rotation : Vec) : M nat :=
  mito_collection <- collections_new "Mitochondrion" ;;
  len <- uniform 0.35 0.55 ;;
  radius <- uniform 0.1 0.15 ;;
  primitive_cylinder_add radius len loc ;;
  outer <- active_object ;;
  obj_update outer (set_rotation rotation) ;;
  mode_set "EDIT" ;;
  mesh_select_all "SELECT" ;;
  subdivide 2 ;;
  mode_set "OBJECT" ;;
  modifier_add "SUBSURF" ;;
  modifier_set outer "Subdivision" "levels" 2 ;;
  name_set outer [Lit "MitoOuter"] ;;
  materials_append outer mat_mitochondria_outer ;;
  shade_smooth ;;
  for_each (range 4) (crista_body loc rotation radius len outer) ;;
  ret outer.

Definition mitochondrion_body (mito_collection : string) (i : nat) : M unit :=
  pos <- random_point_in_sphere 2.2 ;;
  let pos := if Rlt_dec (vlength pos) 1.4 then vscale (normalized pos) 1.7 else pos in
  rx <- random ;;
  ry <- random ;;
  rz <- random ;;
  let rot := vec (rx * PI) (ry * PI) (rz * PI) in
  mito <- create_mitochondrion pos rot ;;
  name_set mito [Lit "Mitochondrion_"; Num i] ;;
  link mito_collection mito ;;
  unlink scene_collection mito.

Definition create_mitochondria : M string :=
  mito_collection <- collections_new "Mitochondria" ;;
  children_link mito_collection ;;
  for_each (range 12) (mitochondrion_body mito_collection) ;;
  ret mito_collection.

(** *** Golgi apparatus *)

Definition golgi_base_pos : Vec := vec (-1.8) 0.3 1.0.

Definition golgi_cisterna (golgi_collection : string) (i : nat) : M unit :=
  primitive_torus_add 0.28 0.05 24 8
    (vadd golgi_base_pos (vec (INR i * 0.04) (INR i * 0.1) 0)) ;;
  cisterna <- active_object ;;
  obj_update cisterna (fun o => set_scale (vec (vx (scale o)) (vy (scale o)) 0.35) o) ;;
  obj_update cisterna (set_rotation (vec 0 0 (PI / 4))) ;;
  name_set cisterna [Lit "GolgiCisterna_"; Num i] ;;
  materials_append cisterna mat_golgi ;;
  shade_smooth ;;
  link golgi_collection cisterna ;;
  unlink scene_collection cisterna.

Definition golgi_vesicle (golgi_collection : string) (i : nat) : M unit :=
  u <- random ;;
  dx <- uniform 0 0.2 ;;
  dy <- uniform (-0.15) 0.35 ;;
  dz <- uniform (-0.2) 0.2 ;;
  primitive_uv_sphere_add (0.04 + u * 0.025) 12 6
    (vadd golgi_base_pos (vec (0.3 + dx) dy dz)) ;;
  vesicle <- active_object ;;
  name_set vesicle [Lit "GolgiVesicle_"; Num i] ;;
  materials_append vesicle mat_vesicle ;;
  shade_smooth ;;
  link golgi_collection vesicle ;;
  unlink scene_collection vesicle.

Definition create_golgi : M string :=
  golgi_collection <- collections_new "GolgiApparatus" ;;
  children_link golgi_collection ;;
  for_each (range 5) (golgi_cisterna golgi_collection) ;;
  for_each (range 8) (golgi_vesicle golgi_collection) ;;
  ret golgi_collection.

(** *** Lysosomes *)

Definition lysosome_body (lyso_collection : string) (i : nat) : M unit :=
  pos <- random_point_in_sphere 2.3 ;;
  let pos := if Rlt_dec (vlength pos) 1.4 then vscale (normalized pos) 1.7 else pos in
  radius <- uniform 0.07 0.12 ;;
  primitive_uv_sphere_add radius 16 8 pos ;;
  lysosome <- active_object ;;
  name_set lysosome [Lit "Lysosome_"; Num i] ;;
  materials_append lysosome mat_lysosome ;;
  shade_smooth ;;
  link lyso_collection lysosome ;;
  unlink scene_collection lysosome.

Definition create_lysosomes : M string :=
  lyso_collection <- collections_new "Lysosomes" ;;
  children_link lyso_collection ;;
  for_each (range 10) (lysosome_body lyso_collection) ;;
  ret lyso_collection.

(** *** Centrosome *)

Definition centro_base_pos : Vec := vec 1.5 (-0.5) (-1.2).

Definition centriole_tube (centro_collection : string) (c : nat) (centriole_pos : Vec)
    (i : nat) (angle : R) (t : nat) : M unit :=
  let r := 0.07 + INR t * 0.015 in
  let offset_angle := angle + INR t * 0.08 in
  primitive_cylinder_add 0.012 0.2
    (vadd centriole_pos
          (vec (cos offset_angle * r)
               (if Nat.eqb c 0 then 0 else 0)
               (sin offset_angle * r))) ;;
  tube <- active_object ;;
  (if Nat.eqb c 1
   then obj_update tube (fun o =>
          set_rotation (vec (PI / 2) (vy (rotation_euler o)) (vz (rotation_euler o))) o)
   else ret tt) ;;
  name_set tube [Lit "Centriole"; Num c; Lit "_Triplet"; Num i; Lit "_"; Num t] ;;
  materials_append tube mat_centriole ;;
  link centro_collection tube ;;
  unlink scene_collection tube.

Definition centriole_triplet (centro_collection : string) (c : nat) (centriole_pos : Vec)
    (i : nat) : M unit :=
  let angle := INR i / 9 * 2 * PI in
  for_each (range 3) (centriole_tube centro_collection c centriole_pos i angle).

Definition centriole (centro_collection : string) (c : nat) : M unit :=
  let centriole_pos := vadd centro_base_pos (vec 0 (INR c * 0.18) 0) in
  for_each (range 9) (centriole_triplet centro_collection c centriole_pos).

Definition create_centrosome : M string :=
  centro_collection <- collections_new "Centrosome" ;;
  children_link centro_collection ;;
  for_each (range 2) (centriole centro_collection) ;;
  ret centro_collection.

(** *** Free ribosomes *)

Definition free_ribosome (ribo_collection : string) (i : nat) : M unit :=
  pos <- random_point_in_sphere 2.5 ;;
  let pos := if Rlt_dec (vlength pos) 1.3 then vscale (normalized pos) 1.5 else pos in
  primitive_uv_sphere_add 0.022 6 4 pos ;;
  ribo <- active_object ;;
  name_set ribo [Lit "FreeRibosome_"; Num i] ;;
  materials_append ribo mat_ribosome ;;
  link ribo_collection ribo ;;
  unlink scene_collection ribo.

Definition create_free_ribosomes : M string :=
  ribo_collection <- collections_new "FreeRibosomes" ;;
  children_link ribo_collection ;;
  for_each (range 60) (free_ribosome ribo_collection) ;;
  ret ribo_collection.

(** *** Cytoskeleton *)

Definition microtubule (cyto_collection : string) (i : nat) : M unit :=
  let centro_pos := vec 1.5 (-0.5) (-1.2) in
  end_pos <- random_point_on_sphere 2.7 ;;
  y <- uniform (-2) 2 ;;
  let end_pos := vec (vx end_pos) y (vz end_pos) in
  jx <- uniform (-0.25) 0.25 ;;
  jy <- uniform (-0.25) 0.25 ;;
  jz <- uniform (-0.25) 0.25 ;;
  let mid := vadd (vdiv (vadd centro_pos end_pos) 2) (vec jx jy jz) in
  let spline := bezier_points_add 1 splines_new in
  let spline := set_bezier 0 centro_pos spline in
  let spline := set_bezier 1 end_pos spline in
  let curve := curve_data [Lit "Microtubule_"; Num i] 0.006 4 spline in
  curve_obj <- objects_new [Lit "Microtubule_"; Num i] curve ;;
  materials_append curve_obj mat_cytoskeleton ;;
  link cyto_collection curve_obj.

Definition create_cytoskeleton : M string :=
  cyto_collection <- collections_new "Cytoskeleton" ;;
  children_link cyto_collection ;;
  for_each (range 18) (microtubule cyto_collection) ;;
  ret cyto_collection.

(** *** Camera, lights and render settings *)

Definition radians (deg : R) : R := deg * PI / 180.

Definition final_setup : M unit :=
  camera_add (vec 8 (-8) 6) ;;
  camera <- active_object ;;
  obj_update camera (set_rotation (vec (radians 60) 0 (radians 45))) ;;
  modify (fun w =>
            mkWorld (objects w) (orphans w) (bpy_materials w) (bpy_collections w)
                    (scene_children w) (active w) (Some camera) (render_engine w)
                    (cursor w)) ;;
  light_add "SUN" (vec 5 (-5) 10) ;;
  sun <- active_object ;;
  obj_update sun (upd_data (upd_body (set_energy 2))) ;;
  light_add "AREA" (vec (-5) 5 5) ;;
  fill <- active_object ;;
  obj_update fill (upd_data (upd_body (set_energy 100))) ;;
  obj_update fill (upd_data (upd_body (set_color (0.8, 0.9, 1.0)))) ;;
  modify (fun w =>
            mkWorld (objects w) (orphans w) (bpy_materials w) (bpy_collections w)
                    (scene_children w) (active w) (scene_camera w)
                    "BLENDER_EEVEE_NEXT" (cursor w)).

(** *** The module body, top to bottom *)

Definition generators : M unit :=
  membrane <- create_membrane ;;
  nucleus <- create_nucleus ;;
  rough_er <- create_rough_er ;;
  smooth_er <- create_smooth_er ;;
  mitochondria <- create_mitochondria ;;
  golgi <- create_golgi ;;
  lysosomes <- create_lysosomes ;;
  centrosome <- create_centrosome ;;
  free_ribosomes <- create_free_ribosomes ;;
  cytoskeleton <- create_cytoskeleton ;;
  final_setup.

Definition generate_cell : M unit :=
  clear_scene ;;
  for_each all_materials materials_new ;;
  generators.

End Script.

(* ================================================================== *)
(** ** Vocabulary of the statements *)
(* ================================================================== *)

(** A world with nothing in it and the generator at draw [c]. *)
Definition world_at (c : nat) : World := mkWorld [] [] [] [] [] None None "" c.

(** The world a computation leaves behind. *)
Definition after (A : Type) (m : M A) (w : World) : World := snd (m w).

(** The objects a computation creates, and where it leaves the
    generator, when started from draw [c] in an empty world. *)
Definition news_of (A : Type) (m : M A) (c : nat) : list Obj := objects (after m (world_at c)).
Definition cursor_of (A : Type) (m : M A) (c : nat) : nat := cursor (after m (world_at c)).

(** A computation is framed when, from any world, it leaves the existing
    objects alone and appends exactly [news_of]: what it creates depends
    on the draws only. *)
Definition framed (A : Type) (m : M A) : Prop :=
  forall w, objects (after m w) = objects w ++ news_of m (cursor w)
            /\ cursor (after m w) = cursor_of m (cursor w).

Definition adds (A : Type) (m : M A) (h : nat) (news : list Obj) (h' : nat) : Prop :=
  forall l a b c d e f g,
    objects (after m (mkWorld l a b c d e f g h)) = l ++ news
    /\ cursor (after m (mkWorld l a b c d e f g h)) = h'.

(** What the specification looks at in an object. *)
Inductive Kind : Type := KMesh | KCurve | KCamera | KLight.

Definition kind_of (b : Body) : Kind :=
  match b with
  | Mesh _ _ => KMesh
  | Curve _ _ _ _ => KCurve
  | Camera => KCamera
  | Light _ _ _ => KLight
  end.

Definition control_points (b : Body) : list Vec :=
  match b with
  | Curve _ _ _ splines => map co (concat splines)
  | _ => []
  end.

Record Summary : Type := mkSummary {
  s_name : Name;
  s_kind : Kind;
  s_collections : list string;
  s_materials : list Material;
  s_location : Vec;
  s_rotation : Vec;
  s_points : list Vec
}.

Definition summary (o : Obj) : Summary :=
  mkSummary (ob_name o) (kind_of (body (ob_data o))) (users_collection o)
            (materials (ob_data o)) (location o) (rotation_euler o)
            (control_points (body (ob_data o))).

(** Membership of a group: the collection and the literal the name
    starts with. *)
Definition in_group (c prefix : string) (s : Summary) : bool :=
  existsb (String.eqb c) (s_collections s) && String.eqb (prefix_of (s_name s)) prefix.

Definition summaries (l : list Obj) : list Summary := map summary l.

Definition select (k : string * string) (ss : list Summary) : list Summary :=
  filter (in_group (fst k) (snd k)) ss.

Definition count (k : string * string) (l : list Obj) : nat :=
  length (select k (summaries l)).

Definition census_keys : list (string * string) :=
  [("Nucleus", "Chromatin");
   ("RoughER", "RER_Stack1_Cisterna");
   ("RoughER", "RER_Stack2_Cisterna");
   ("RoughER", "RER_Stack3_Cisterna");
   ("Mitochondria", "Mitochondrion_");
   ("GolgiApparatus", "GolgiCisterna_");
   ("GolgiApparatus", "GolgiVesicle_");
   ("Lysosomes", "Lysosome_");
   ("Centrosome", "Centriole");
   ("FreeRibosomes", "FreeRibosome_");
   ("Cytoskeleton", "Microtubule_");
   ("SmoothER", "SERJunction_");
   ("SmoothER", "SERTube_");
   ("RoughER", "Ribosome_S1C");
   ("RoughER", "Ribosome_S2C");
   ("RoughER", "Ribosome_S3C")].

(** The number of members of every group, in the order of
    [census_keys]. *)
Definition census (ss : list Summary) : list nat :=
  map (fun k => length (select k ss)) census_keys.

Fixpoint vplus (u v : list nat) : list nat :=
  match u, v with
  | x :: u', y :: v' => (x + y)%nat :: vplus u' v'
  | _, _ => []
  end.

Definition vtimes (n : nat) (v : list nat) : list nat := map (Nat.mul n) v.

(** An organelle instance is a mesh or a curve; the camera and the two
    lights are not. *)
Definition is_organelle (s : Summary) : bool :=
  match s_kind s with KMesh | KCurve => true | _ => false end.

Definition has_material (s : Summary) : bool :=
  match s_materials s with [] => false | _ :: _ => true end.

Definition material_ok (s : Summary) : bool :=
  implb (is_organelle s) (has_material s).

(** The sampler as a function of the position in the stream. *)
Definition point_in_sphere (rnd : nat -> R) (radius : R) (c : nat) : Vec :=
  eval (random_point_in_sphere rnd radius) (world_at c).

(** The push-out the three scattering generators apply to a sample. *)
Definition push_out (threshold min_radius : R) (pos : Vec) : Vec :=
  if Rlt_dec (vlength pos) threshold then vscale (normalized pos) min_radius else pos.

(** A run of the script after [random.seed]: the stream is fixed and the
    cursor is back at its start. *)
Definition run_script (rnd : nat -> R) (w : World) : World :=
  after (generate_cell rnd) (set_cursor 0 w).

(** A computation that is framed and consumes exactly [K] draws. *)
Definition steps (A : Type) (m : M A) (K : nat) : Prop :=
  framed m /\ forall h, cursor_of m h = (K + h)%nat.

(** The values [random.uniform] and [random.choice] return at draw [c]. *)
Definition uniform_at (rnd : nat -> R) (a b : R) (c : nat) : R :=
  eval (uniform rnd a b) (world_at c).
Definition choice_at (rnd : nat -> R) (seq : list R) (c : nat) : R :=
  eval (choice rnd seq) (world_at c).

(** *** The smooth-ER network as a function of the draws *)

(** The position [ser_node_body] appends when the generator is at draw
    [c]. *)
Definition ser_node_at (rnd : nat -> R) (c : nat) : Vec :=
  let theta := rnd c * 2 * PI in
  let phi := rnd (1 + c)%nat * PI in
  let r := 1.9 + rnd (2 + c)%nat * 0.5 in
  vec (r * sin phi * cos theta) ((rnd (3 + c)%nat - 0.5) * 1.4) (r * sin phi * sin theta).

Definition ser_nodes (rnd : nat -> R) (c : nat) : list Vec :=
  map (fun i => ser_node_at rnd (4 * i + c)) (range 25).

Definition ser_key (i j : nat) : nat * nat := (Nat.min i j, Nat.max i j).

(** Whether [ser_connect] creates a tube for the candidate [jdist]. *)
Definition ser_accepts (connected : list (nat * nat)) (i : nat) (jdist : nat * R) : bool :=
  if Rlt_dec (snd jdist) 1.2
  then negb (set_mem (ser_key i (fst jdist)) connected)
  else false.

(** The tubes created while visiting node [i], in order, and the set
    [connected] afterwards. *)
Fixpoint ser_links_near (i : nat) (near : list (nat * R)) (connected : list (nat * nat))
    : list (nat * nat) * list (nat * nat) :=
  match near with
  | [] => ([], connected)
  | jdist :: rest =>
      if ser_accepts connected i jdist
      then let (tubes, connected') :=
             ser_links_near i rest (set_add (ser_key i (fst jdist)) connected) in
           ((i, fst jdist) :: tubes, connected')
      else ser_links_near i rest connected
  end.

Fixpoint ser_links_from (nodes : list Vec) (inodes : list (nat * Vec))
    (connected : list (nat * nat)) : list (nat * nat) * list (nat * nat) :=
  match inodes with
  | [] => ([], connected)
  | inode :: rest =>
      let (tubes, connected') :=
        ser_links_near (fst inode) (ser_nearest nodes (fst inode) (snd inode)) connected in
      let (tubes', connected'') := ser_links_from nodes rest connected' in
      (tubes ++ tubes', connected'')
  end.

(** The edges of the network, as ordered pairs (visiting node, neighbour),
    in the order their tubes are created. *)
Definition ser_links (nodes : list Vec) : list (nat * nat) :=
  fst (ser_links_from nodes (enumerate nodes) []).

(** The tube object [ser_connect] leaves in the scene for an edge. *)
Definition ser_tube (nodes : list Vec) (ij : nat * nat) : Obj :=
  let i := fst ij in
  let j := snd ij in
  let spline := bezier_points_add 1 splines_new in
  let spline := set_bezier 0 (nth i nodes vzero) spline in
  let spline := set_bezier 1 (nth j nodes vzero) spline in
  let curve := curve_data [Lit "SERTube_"; Num i; Lit "_"; Num j] 0.03 6 spline in
  upd_collections (fun l => l ++ ["SmoothER"])
    (upd_data (add_material mat_smooth_er)
       (mkObj [Lit "SERTube_"; Num i; Lit "_"; Num j] curve vzero vzero (vec 1 1 1) [] [])).

(** Reading an edge back from a tube's name. *)
Definition tube_edge (s : Summary) : option (nat * nat) :=
  match s_name s with
  | [Lit _; Num i; Lit _; Num j] => Some (i, j)
  | _ => None
  end.

Fixpoint filter_map (A B : Type) (f : A -> option B) (l : list A) : list B :=
  match l with
  | [] => []
  | x :: l' =>
      match f x with
      | Some y => y :: filter_map f l'
      | None => filter_map f l'
      end
  end.

(** The edges of the network in a scene: one per tube of the smooth-ER
    collection. *)
Definition tube_edges (ss : list Summary) : list (nat * nat) :=
  filter_map tube_edge (select ("SmoothER", "SERTube_") ss).

(** The index a name carries after its first literal. *)
Definition first_index (s : Summary) : option nat :=
  match s_name s with
  | Lit _ :: Num i :: _ => Some i
  | _ => None
  end.

(** The position of junction sphere [i] in a scene. *)
Definition junction_location (ss : list Summary) (i : nat) : Vec :=
  match filter (fun s => match first_index s with Some k => Nat.eqb k i | None => false end)
               (select ("SmoothER", "SERJunction_") ss) with
  | s :: _ => s_location s
  | [] => vzero
  end.

(** The census with [n] members in group number [idx] and none elsewhere. *)
Definition only (idx n : nat) : list nat :=
  map (fun i => if Nat.eqb i idx then n else 0%nat) (seq 0 (length census_keys)).

(** Where the generator stands once [create_smooth_er] has run, for a
    script started at draw [c]. *)
Definition after_ser (rnd : nat -> R) (c : nat) : nat :=
  (3 * length (ser_links (ser_nodes rnd (720 + c))) + (820 + c))%nat.

(** Draws a seeded generator can hand out: each lies in [0, 1). *)
Definition valid_draws (rnd : nat -> R) : Prop := forall n, 0 <= rnd n < 1.

(** Two particular streams: every draw is [0.0]; and every fourth draw
    is [0.5], the others [0.0]. *)
Definition zero_draws : nat -> R := fun _ => 0.
Definition origin_draws : nat -> R := fun n => if Nat.eqb (n mod 4) 3 then 0.5 else 0.

(** The long axis of a cylinder primitive is its local z axis. *)
Definition tube_axis (s : Summary) : Vec := rotate (vec 0 0 1) (s_rotation s).

Definition index_is (c : nat) (s : Summary) : bool :=
  match first_index s with
  | Some k => Nat.eqb k c
  | None => false
  end.

(** The region the smooth-ER nodes fall in: a slab of half-height 0.7
    around the plane y = 0, out to radius 2.4 from the y axis. *)
Definition in_slab (p : Vec) : Prop :=
  Rabs (vy p) <= 0.7 /\ vx p * vx p + vz p * vz p <= 2.4 * 2.4 /\ vlength p <= 2.5.

(** Within tolerance [tol] of the shell of radii 1.9 to 2.4. *)
Definition near_shell (tol : R) (p : Vec) : Prop :=
  1.9 - tol <= vlength p <= 2.4 + tol.

(** A ribosome of a cisterna at [loc]: inside the box of half-widths
    [dx], [dy] around it and 0.025 above or below it. *)
Definition beside_sheet (loc : Vec) (dx dy : R) (p : Vec) : Prop :=
  Rabs (vx p - vx loc) <= dx /\ Rabs (vy p - vy loc) <= dy
  /\ (vz p - vz loc = 0.025 \/ vz p - vz loc = - 0.025).

(** *** The roll-up term as the specification words it

    "Normalized radial distance from the sheet center": the Euclidean
    distance of (x, y) from the centre, in units of the half-width 0.5 of
    the sheet. *)
Definition radial_dist (x y : R) : R := sqrt ((x * 2) * (x * 2) + (y * 2) * (y * 2)).

Definition spec_roll_radial (x y : R) : R :=
  if Rle_dec (radial_dist x y) 0.7 then 0
  else ((radial_dist x y - 0.7) / 0.3) ^ 2 * 0.06.

Definition spec_z_radial (x y : R) : R :=
  0.15 * (1 - (2 * x) ^ 2) + (sin (8 * x) * 0.03 + sin (6 * y) * 0.02)
  + spec_roll_radial x y.

(** Every organelle instance of a scene has a material. *)
Definition ok_materials (ss : list Summary) : Prop :=
  Forall (fun s => material_ok s = true) ss.

(** The position is the pushed-out sample taken at some draw [n]. *)
Definition placed (rnd : nat -> R) (threshold min_radius radius : R) (s : Summary)
    : Prop :=
  exists n, s_location s = push_out threshold min_radius (point_in_sphere rnd radius n).

(** A ribosome named after sheet [i] of a stack of [n], beside that
    sheet. *)
Definition beside_stack (loc : nat -> Vec) (n : nat) (dx dy : R) (s : Summary) : Prop :=
  exists i, (i < n)%nat /\ first_index s = Some i
            /\ beside_sheet (loc i) dx dy (s_location s).

(** Sheet [i] of a stack of [n], at its place. *)
Definition sheet_at (loc : nat -> Vec) (n : nat) (s : Summary) : Prop :=
  exists i, (i < n)%nat /\ first_index s = Some i /\ s_location s = loc i.

(** *** What the centrosome and the junction loops leave in the scene *)

(** The tube [centriole_tube] creates, as the scene shows it. *)
Definition centriole_tube_summary (c : nat) (centriole_pos : Vec) (i : nat) (angle : R)
    (t : nat) : Summary :=
  let r := 0.07 + INR t * 0.015 in
  let offset_angle := angle + INR t * 0.08 in
  mkSummary [Lit "Centriole"; Num c; Lit "_Triplet"; Num i; Lit "_"; Num t] KMesh
    ["Centrosome"] [mat_centriole]
    (vadd centriole_pos (vec (cos offset_angle * r) 0 (sin offset_angle * r)))
    (if Nat.eqb c 1 then vec (PI / 2) 0 0 else vzero) [].

(** The position of centriole [c]. *)
Definition centriole_pos (c : nat) : Vec := vadd centro_base_pos (vec 0 (INR c * 0.18) 0).

(** The tubes of centriole [c]: nine triplets of three. *)
Definition centriole_summaries (c : nat) : list Summary :=
  flat_map (fun i =>
              map (centriole_tube_summary c (centriole_pos c) i (INR i / 9 * 2 * PI))
                  (range 3))
           (range 9).

(** The sphere [ser_junction] creates, as the scene shows it. *)
Definition ser_junction_summary (inode : nat * Vec) : Summary :=
  mkSummary [Lit "SERJunction_"; Num (fst inode)] KMesh ["SmoothER"] [mat_smooth_er]
    (snd inode) vzero [].

(** The unordered pair an edge joins. *)
Definition edge_key (e : nat * nat) : nat * nat := ser_key (fst e) (snd e).

(** An edge between two distinct nodes of the list that are less than
    1.2 apart. *)
Definition short_link (nodes : list Vec) (e : nat * nat) : Prop :=
  fst e <> snd e
  /\ (fst e < length nodes)%nat /\ (snd e < length nodes)%nat
  /\ vlength (vsub (nth (fst e) nodes vzero) (nth (snd e) nodes vzero)) < 1.2.

(** The scene the script leaves, as summaries, whatever world it starts
    in. *)
Definition scene (rnd : nat -> R) (w : World) : list Summary :=
  summaries (objects (after (generate_cell rnd) w)).

(** An organelle placed by a scattering generator: at the pushed-out
    sample of some draw; at the centre when the sample is the centre; and
    no closer than the threshold when it is not. *)
Definition centre_or_clear (rnd : nat -> R) (threshold min_radius radius : R)
    (s : Summary) : Prop :=
  exists n,
    s_location s = push_out threshold min_radius (point_in_sphere rnd radius n)
    /\ (point_in_sphere rnd radius n = vzero -> s_location s = vzero)
    /\ (point_in_sphere rnd radius n <> vzero -> threshold <= vlength (s_location s)).

(** The roll-up term with the distance the code measures: the larger of
    |2x| and |2y|. *)
Definition roll_up (x y : R) : R :=
  let d := Rmax (Rabs (2 * x)) (Rabs (2 * y)) in
  if Rle_dec d 0.7 then 0 else ((d - 0.7) / 0.3) ^ 2 * 0.06.

(* ================================================================== *)
(** ** Vocabulary for the rest of the script *)
(* ================================================================== *)

(** The sampler on the sphere as a function of the position in the
    stream. *)
Definition point_on_sphere (rnd : nat -> R) (radius : R) (c : nat) : Vec :=
  eval (random_point_on_sphere rnd radius) (world_at c).

(** [l] repeated [n] times. *)
Fixpoint times (A : Type) (n : nat) (l : list A) : list A :=
  match n with
  | O => []
  | S n' => l ++ times n' l
  end.

(** What a computation does to the registries of the host: it creates the
    collections [cs], links the collections [ks] under the scene, and
    leaves the data blocks without users and the materials as they are. *)
Definition registers (A : Type) (m : M A) (cs ks : list string) : Prop :=
  forall w,
    bpy_collections (after m w) = bpy_collections w ++ cs
    /\ scene_children (after m w) = scene_children w ++ ks
    /\ orphans (after m w) = orphans w
    /\ bpy_materials (after m w) = bpy_materials w.

(** The collections the script creates, in order, and the ones it links
    under the scene. *)
Definition script_collections : list string :=
  ["Nucleus"; "RoughER"; "SmoothER"; "Mitochondria"]
  ++ times 12 ["Mitochondrion"]
  ++ ["GolgiApparatus"; "Lysosomes"; "Centrosome"; "FreeRibosomes"; "Cytoskeleton"].

Definition script_children : list string :=
  ["Nucleus"; "RoughER"; "SmoothER"; "Mitochondria"; "GolgiApparatus"; "Lysosomes";
   "Centrosome"; "FreeRibosomes"; "Cytoskeleton"].

(** The three objects the final setup adds: the camera, the sun and the
    fill light, as the script leaves them. *)
Definition camera_object : Obj :=
  mkObj [Lit "Camera"] (mkData [Lit "Camera"] Camera [] false) (vec 8 (-8) 6)
        (vec (radians 60) 0 (radians 45)) (vec 1 1 1) [] [scene_collection].

Definition sun_object : Obj :=
  mkObj [Lit "Light"] (mkData [Lit "Light"] (Light "SUN" 2 (1, 1, 1)) [] false)
        (vec 5 (-5) 10) vzero (vec 1 1 1) [] [scene_collection].

Definition fill_object : Obj :=
  mkObj [Lit "Light"] (mkData [Lit "Light"] (Light "AREA" 100 (0.8, 0.9, 1.0)) [] false)
        (vec (-5) 5 5) vzero (vec 1 1 1) [] [scene_collection].

(** The data blocks [clear_scene] leaves without users and keeps: all but
    the meshes. *)
Definition kept_data (w : World) : list Data :=
  filter (fun d => negb (is_mesh d)) (orphans w ++ map ob_data (objects w)).

(** The materials [clear_scene] keeps: those one of the kept data blocks
    uses. *)
Definition kept_materials (w : World) : list Material :=
  filter (fun m => existsb (uses_material m) (kept_data w)) (bpy_materials w).

(** *** The roster of a scene

    What a roster keeps of an object: its collections, the literal its
    name starts with, its kind and the names of its materials. *)
Definition Tag : Type := (list string * string * Kind * list string)%type.

Definition tag (s : Summary) : Tag :=
  (s_collections s, prefix_of (s_name s), s_kind s, map mat_name (s_materials s)).

Definition roster (ss : list Summary) : list Tag := map tag ss.

Definition tag_collections (t : Tag) : list string := fst (fst (fst t)).
Definition tag_prefix (t : Tag) : string := snd (fst (fst t)).
Definition tag_kind (t : Tag) : Kind := snd (fst t).
Definition tag_materials (t : Tag) : list string := snd t.

(** A mesh or curve object in one collection with one material. *)
Definition organelle_tag (c prefix : string) (k : Kind) (m : string) : Tag :=
  ([c], prefix, k, [m]).

Definition tube_tag : Tag := organelle_tag "SmoothER" "SERTube_" KCurve "SmoothER".

(** The roster of the scene the script leaves, in the order of creation:
    what precedes the tubes of the smooth ER, the tubes, and what
    follows. *)
Definition roster_before_tubes : list Tag :=
  [organelle_tag scene_collection "CellMembrane" KMesh "Membrane"]
  ++ ([organelle_tag "Nucleus" "NuclearEnvelope" KMesh "NuclearEnvelope";
       organelle_tag "Nucleus" "Nucleoplasm" KMesh "Nucleoplasm";
       organelle_tag "Nucleus" "Nucleolus" KMesh "Nucleolus"]
      ++ times 10 [organelle_tag "Nucleus" "Chromatin" KCurve "Chromatin"])
  ++ (times 5 (organelle_tag "RoughER" "RER_Stack1_Cisterna" KMesh "RoughER"
               :: times 20 [organelle_tag "RoughER" "Ribosome_S1C" KMesh "Ribosome"])
      ++ times 4 (organelle_tag "RoughER" "RER_Stack2_Cisterna" KMesh "RoughER"
                  :: times 15 [organelle_tag "RoughER" "Ribosome_S2C" KMesh "Ribosome"])
      ++ times 3 (organelle_tag "RoughER" "RER_Stack3_Cisterna" KMesh "RoughER"
                  :: times 12 [organelle_tag "RoughER" "Ribosome_S3C" KMesh "Ribosome"])).

Definition roster_after_tubes : list Tag :=
  times 25 [organelle_tag "SmoothER" "SERJunction_" KMesh "SmoothER"]
  ++ times 12 (organelle_tag "Mitochondria" "Mitochondrion_" KMesh "MitoOuter"
               :: times 4 [organelle_tag scene_collection "Crista_" KMesh "MitoInner"])
  ++ (times 5 [organelle_tag "GolgiApparatus" "GolgiCisterna_" KMesh "Golgi"]
      ++ times 8 [organelle_tag "GolgiApparatus" "GolgiVesicle_" KMesh "Vesicle"])
  ++ times 10 [organelle_tag "Lysosomes" "Lysosome_" KMesh "Lysosome"]
  ++ times 54 [organelle_tag "Centrosome" "Centriole" KMesh "Centriole"]
  ++ times 60 [organelle_tag "FreeRibosomes" "FreeRibosome_" KMesh "Ribosome"]
  ++ times 18 [organelle_tag "Cytoskeleton" "Microtubule_" KCurve "Cytoskeleton"]
  ++ [([scene_collection], "Camera", KCamera, []);
      ([scene_collection], "Light", KLight, []);
      ([scene_collection], "Light", KLight, [])].

Definition scene_roster (tubes : nat) : list Tag :=
  roster_before_tubes ++ times tubes [tube_tag] ++ roster_after_tubes.

(** Membership of a group, read off a tag. *)
Definition tag_in_group (k : string * string) (t : Tag) : bool :=
  existsb (String.eqb (fst k)) (tag_collections t) && String.eqb (tag_prefix t) (snd k).

(** Filed in exactly one collection, the scene's own or one of the nine
    the script links under the scene. *)
Definition filed (t : Tag) : bool :=
  match tag_collections t with
  | [c] => existsb (String.eqb c) (scene_collection :: script_children)
  | _ => false
  end.



(** A vesicle of the Golgi apparatus: within the box in which the script
    draws its offset from the base of the stack. *)
Definition beside_golgi (p : Vec) : Prop :=
  0.3 <= vx p - vx golgi_base_pos <= 0.5
  /\ -0.15 <= vy p - vy golgi_base_pos <= 0.35
  /\ -0.2 <= vz p - vz golgi_base_pos <= 0.2.

(** Cisterna [i] of the Golgi stack, at its place and turned by a
    quarter of pi about z. *)
Definition golgi_sheet (s : Summary) : Prop :=
  exists i, (i < 5)%nat /\ first_index s = Some i
            /\ s_location s = vadd golgi_base_pos (vec (INR i * 0.04) (INR i * 0.1) 0)
            /\ s_rotation s = vec 0 0 (PI / 4).

(** A strand of chromatin: a curve of four control points, each within
    0.7 of the centre of the nucleus. *)
Definition nucleus_centre : Vec := vec 0 0 0.2.

Definition strand_in_nucleus (s : Summary) : Prop :=
  length (s_points s) = 4%nat
  /\ Forall (fun p => vlength (vsub p nucleus_centre) <= 0.7) (s_points s)
  /\ s_location s = vzero /\ s_rotation s = vzero.

(** Triplet tube [t] lies on the ring of radius [0.07 + 0.015 t] around
    the axis through the centre of centriole [c], in the plane of that
    centre. *)
Definition on_ring (c : nat) (s : Summary) : Prop :=
  exists t, (t < 3)%nat
    /\ (vx (s_location s) - vx (centriole_pos c)) * (vx (s_location s) - vx (centriole_pos c))
       + (vz (s_location s) - vz (centriole_pos c)) * (vz (s_location s) - vz (centriole_pos c))
       = (0.07 + INR t * 0.015) * (0.07 + INR t * 0.015)
    /\ vy (s_location s) = vy (centriole_pos c).

(** The far end of the microtubule created at draw [h]: a point of the
    sphere of radius 2.7 whose height is then drawn afresh. *)
Definition microtubule_end (rnd : nat -> R) (h : nat) : Vec :=
  vec (vx (point_on_sphere rnd 2.7 h)) (uniform_at rnd (-2) 2 (2 + h))
      (vz (point_on_sphere rnd 2.7 h)).

(** A microtubule: an unmoved curve of two control points, from the
    centrosome to a point within 2.7 of the y axis and within 2 of the
    plane y = 0. *)
Definition radiates (s : Summary) : Prop :=
  exists e,
    s_points s = [centro_base_pos; e]
    /\ Rabs (vy e) <= 2 /\ vx e * vx e + vz e * vz e <= 2.7 * 2.7
    /\ s_location s = vzero /\ s_rotation s = vzero.

(** A stream of draws: 0.5 at every third draw, 0.0 elsewhere. *)
Definition escape_draws : nat -> R := fun n => if Nat.eqb (n mod 3) 2 then 0.5 else 0.

(** *** The nearest neighbours

    A list of candidates in ascending order of distance. *)
Fixpoint ascending (l : list (nat * R)) : Prop :=
  match l with
  | [] => True
  | x :: l' => Forall (fun y => snd x <= snd y) l' /\ ascending l'
  end.

(** The positions of the 25 junction spheres of a scene, by index. *)
Definition junction_positions (ss : list Summary) : list Vec :=
  map (junction_location ss) (range 25).

(** [distances] after the sort, before the slice. *)
Definition ser_distances (nodes : list Vec) (i : nat) (node : Vec) : list (nat * R) :=
  sort_by_dist
    (map (fun j => (j, vlength (vsub node (nth j nodes vzero))))
         (filter (fun j => negb (Nat.eqb j i)) (range (length nodes)))).

(** *** What survives a regeneration *)

Definition kind_is_mesh (k : Kind) : bool :=
  match k with KMesh => true | _ => false end.

(** The tag of an object whose data block [clear_scene] keeps. *)
Definition tag_kept (t : Tag) : bool := negb (kind_is_mesh (tag_kind t)).

(** ... and which uses the material named [n]. *)
Definition tag_keeps (n : string) (t : Tag) : bool :=
  tag_kept t && existsb (fun n' => String.eqb n' n) (tag_materials t).

(** The names of the materials of a scene with [tubes] tubes that
    [clear_scene] does not remove. *)
Definition survivors (tubes : nat) : list string :=
  "Chromatin" :: (if Nat.eqb tubes 0 then [] else ["SmoothER"]) ++ ["Cytoskeleton"].

(* ================================================================== *)
(** ** Running the monad symbolically *)
(* ================================================================== *)

Lemma alter_at_appk (A : Type) (f : A -> A) (k : nat) (l m : list A) :
  alter_at f (length l + k) (l ++ m) = l ++ alter_at f k m.
Proof. induction l as [|x l IH]; cbn; [reflexivity | now rewrite IH]. Qed.

Lemma nth_error_appk (A : Type) (l m : list A) (k : nat) :
  nth_error (l ++ m) (length l + k) = nth_error m k.
Proof. induction l; cbn; auto. Qed.

Lemma bind_step (A B : Type) (m : M A) (k : A -> M B) w a w' r :
  m w = (a, w') -> k a w' = r -> bind m k w = r.
Proof. intros Hm Hk. unfold bind. rewrite Hm. exact Hk. Qed.

Lemma for_each_run (A : Type) (body : A -> M unit) (l : list A) w :
  for_each l body w = (tt, after (for_each l body) w).
Proof. unfold after. destruct (for_each l body w) as [[] w']. reflexivity. Qed.

Lemma after_seq (A B : Type) (m : M A) (r : M B) w :
  after (m ;; r) w = after r (after m w).
Proof. unfold after, bind. destruct (m w); reflexivity. Qed.

Section Steps.
Variables (l m : list Obj) (a : list Data) (b : list Material) (c d : list string)
          (e f : option nat) (g : string) (h : nat).

Lemma add_active_step o m' k :
  m ++ [o] = m' -> length m = k ->
  add_active o (mkWorld (l ++ m) a b c d e f g h)
  = (tt, mkWorld (l ++ m') a b c d (Some (length l + k)%nat) f g h).
Proof.
  intros <- <-. unfold add_active, set_active, upd_objects; cbn.
  now rewrite length_app, app_assoc.
Qed.

Lemma objects_new_step n dt m' k :
  m ++ [mkObj n dt vzero vzero (vec 1 1 1) [] []] = m' -> length m = k ->
  objects_new n dt (mkWorld (l ++ m) a b c d e f g h)
  = ((length l + k)%nat, mkWorld (l ++ m') a b c d e f g h).
Proof.
  intros <- <-. unfold objects_new, upd_objects; cbn.
  now rewrite length_app, app_assoc.
Qed.

Lemma obj_update_step k fn m' :
  alter_at fn k m = m' ->
  obj_update (length l + k) fn (mkWorld (l ++ m) a b c d e f g h)
  = (tt, mkWorld (l ++ m') a b c d e f g h).
Proof.
  intros <-. unfold obj_update, modify, upd_objects; cbn.
  now rewrite alter_at_appk.
Qed.

Lemma obj_read_step (T : Type) k (fn : Obj -> T) dflt v :
  match nth_error m k with Some o => fn o | None => dflt end = v ->
  obj_read (length l + k) fn dflt (mkWorld (l ++ m) a b c d e f g h)
  = (v, mkWorld (l ++ m) a b c d e f g h).
Proof. intros <-. unfold obj_read; cbn. now rewrite nth_error_appk. Qed.
End Steps.

(** *** Framing *)

Lemma framed_ret (A : Type) (a : A) : framed (ret a).
Proof. intros w. unfold news_of, cursor_of, after, ret; cbn. rewrite app_nil_r. auto. Qed.

Lemma news_of_seq (A B : Type) (m : M A) (r : M B) c :
  framed r ->
  news_of (m ;; r) c = news_of m c ++ news_of r (cursor_of m c).
Proof.
  intros Hr. unfold news_of at 1. rewrite after_seq.
  destruct (Hr (after m (world_at c))) as [Ho _]. exact Ho.
Qed.

Lemma cursor_of_seq (A B : Type) (m : M A) (r : M B) c :
  framed r ->
  cursor_of (m ;; r) c = cursor_of r (cursor_of m c).
Proof.
  intros Hr. unfold cursor_of at 1. rewrite after_seq.
  destruct (Hr (after m (world_at c))) as [_ Hc]. exact Hc.
Qed.

Lemma framed_seq (A B : Type) (m : M A) (r : M B) :
  framed m -> framed r -> framed (m ;; r).
Proof.
  intros Hm Hr w. rewrite news_of_seq, cursor_of_seq by assumption.
  rewrite after_seq.
  destruct (Hm w) as [Ho Hc], (Hr (after m w)) as [Ho' Hc'].
  rewrite Ho', Hc', Ho, Hc, app_assoc. split; reflexivity.
Qed.

Lemma framed_for_each (A : Type) (body : A -> M unit) (l : list A) :
  (forall x, framed (body x)) -> framed (for_each l body).
Proof.
  intros H. induction l as [|x l IH]; cbn [for_each].
  - apply framed_ret.
  - apply framed_seq; auto.
Qed.

Lemma news_of_for_each_cons (A : Type) (body : A -> M unit) x (l : list A) c :
  (forall y, framed (body y)) ->
  news_of (for_each (x :: l) body) c
  = news_of (body x) c ++ news_of (for_each l body) (cursor_of (body x) c).
Proof. intros H. cbn [for_each]. apply news_of_seq, framed_for_each, H. Qed.

Lemma cursor_of_for_each_cons (A : Type) (body : A -> M unit) x (l : list A) c :
  (forall y, framed (body y)) ->
  cursor_of (for_each (x :: l) body) c
  = cursor_of (for_each l body) (cursor_of (body x) c).
Proof. intros H. cbn [for_each]. apply cursor_of_seq, framed_for_each, H. Qed.

Lemma cursor_of_for_each (A : Type) (body : A -> M unit) (k : nat) (l : list A) c :
  (forall y, framed (body y)) ->
  (forall y c', cursor_of (body y) c' = (k + c')%nat) ->
  cursor_of (for_each l body) c = (length l * k + c)%nat.
Proof.
  intros H Hk. revert c. induction l as [|x l IH]; intros c.
  - reflexivity.
  - rewrite cursor_of_for_each_cons, IH, Hk by assumption. cbn [length]. lia.
Qed.

Lemma adds_news (A : Type) (m : M A) h news h' :
  adds m h news h' -> news_of m h = news /\ cursor_of m h = h'.
Proof. intros H. exact (H [] [] [] [] [] None None ""). Qed.

Lemma adds_framed (A : Type) (m : M A) :
  (forall h, exists news h', adds m h news h') -> framed m.
Proof.
  intros H [l a b c d e f g h]. cbn [cursor objects].
  destruct (H h) as (news & h' & Hadd).
  destruct (adds_news Hadd) as [E1 E2]. rewrite E1, E2. exact (Hadd l a b c d e f g).
Qed.

Ltac head t := lazymatch t with ?f _ => head f | _ => t end.

Ltac small := cbn [app length alter_at nth_error]; reflexivity.

(** [run] solves [m w = ?r] for a world [w] whose objects are [l ++ m']
    with [m'] explicit, one monadic step at a time. *)
Ltac run :=
  cbv beta iota zeta;
  lazymatch goal with
  | |- @bind _ _ ?m ?k ?W = _ => eapply bind_step; [ run | run ]
  | |- for_each nil _ _ = _ => reflexivity
  | |- for_each ?l ?b _ = _ =>
      first [ assert_succeeds
                (assert (forall x, framed (b x)) by (intros; auto with framed nocore));
              apply for_each_run
            | cbn [for_each range seq]; run ]
  | |- add_active _ (mkWorld (_ ++ _) _ _ _ _ _ _ _ _) = _ =>
      eapply add_active_step; small
  | |- objects_new _ _ (mkWorld (_ ++ _) _ _ _ _ _ _ _ _) = _ =>
      eapply objects_new_step; small
  | |- obj_update _ _ (mkWorld (_ ++ _) _ _ _ _ _ _ _ _) = _ =>
      eapply obj_update_step; small
  | |- obj_read _ _ _ (mkWorld (_ ++ _) _ _ _ _ _ _ _ _) = _ =>
      eapply obj_read_step; small
  | |- add_active _ _ = _ => fail "world not in normal form"
  | |- objects_new _ _ _ = _ => fail "world not in normal form"
  | |- obj_update _ _ _ = _ => fail "world not in normal form"
  | |- obj_read _ _ _ _ = _ => fail "world not in normal form"
  | |- ?m ?W = _ =>
      let h := head m in
      first [ lazymatch h with
              | @ret => idtac | modify => idtac | active_object => idtac
              | collections_new => idtac | children_link => idtac
              | mode_set => idtac | mesh_select_all => idtac
              | materials_new => idtac | random => idtac
              end;
              cbv [ret modify active_object collections_new children_link mode_set
                   mesh_select_all materials_new random set_cursor
                   objects orphans bpy_materials bpy_collections scene_children active
                   scene_camera render_engine cursor];
              reflexivity
            | unfold h; run ]
  end.

(** Opens [adds m h ?news ?h']: runs [m] on a world with an arbitrary
    prefix of objects. *)
Lemma after_pair (A : Type) (m : M A) w a w' : m w = (a, w') -> after m w = w'.
Proof. unfold after. intros ->. reflexivity. Qed.

Ltac run_adds :=
  let l := fresh "l" in
  intros l ? ? ? ? ? ? ?;
  rewrite <- (app_nil_r l) at 1 3;
  match goal with
  | |- context [after ?m ?W] =>
      let E := fresh "E" in
      eassert (E : m W = (_, _)); [ run | rewrite (@after_pair _ _ _ _ _ E); clear E ]
  end;
  cbn [objects cursor].

Create HintDb framed.

Lemma adds_steps (A : Type) (m : M A) (K : nat) :
  (forall h, exists news, adds m h news (K + h)%nat) -> steps m K.
Proof.
  intros H. split.
  - apply adds_framed. intros h. destruct (H h) as [n Hn]. eauto.
  - intros h. destruct (H h) as [n Hn]. apply (adds_news Hn).
Qed.

Lemma steps_framed (A : Type) (m : M A) (K : nat) : steps m K -> framed m.
Proof. intros [H _]. exact H. Qed.

Lemma steps_for_each (A : Type) (body : A -> M unit) (K : nat) (l : list A) :
  (forall x, steps (body x) K) -> steps (for_each l body) (length l * K).
Proof.
  intros H. split.
  - apply framed_for_each. intros x. apply (H x).
  - intros h. apply cursor_of_for_each; intros; apply H.
Qed.

Lemma cursor_of_loop (A : Type) (body : A -> M unit) (K : nat) (l : list A) c :
  (forall x, steps (body x) K) ->
  cursor_of (for_each l body) c = (length l * K + c)%nat.
Proof. intros H. apply (@steps_for_each _ body K l H). Qed.

Lemma news_of_run (A : Type) (m : M A) h a w' :
  m (mkWorld ([] ++ []) [] [] [] [] None None "" h) = (a, w') ->
  news_of m h = objects w'.
Proof. unfold news_of, after, world_at. cbn [app]. intros ->. reflexivity. Qed.

(** From here on the three are used through the lemmas above only. *)
#[global] Opaque after news_of cursor_of.

#[export] Hint Resolve framed_for_each framed_ret : framed.
#[export] Hint Extern 3 (framed _) => (eapply steps_framed) : framed.
#[export] Hint Resolve steps_for_each : framed.

Ltac framed_hint := solve [ intros; eauto with framed nocore ].

Ltac use_frames :=
  repeat match goal with
  | |- context [objects (after (for_each ?l ?b) ?W)] =>
      rewrite (proj1 (@framed_for_each _ b l ltac:(framed_hint) W))
  | |- context [cursor (after (for_each ?l ?b) ?W)] =>
      rewrite (proj2 (@framed_for_each _ b l ltac:(framed_hint) W))
  end;
  cbn [objects cursor];
  repeat match goal with
  | |- context [cursor_of (for_each ?l ?b) ?c] =>
      erewrite (@cursor_of_loop _ b _ l c) by framed_hint
  end;
  rewrite <- ?app_assoc; repeat rewrite <- app_comm_cons; rewrite ?app_nil_l.

(** Proves [steps m K] for a block [m]. *)
Ltac block :=
  apply adds_steps; intros ?; eexists; run_adds; use_frames; split; reflexivity.

(** Replaces [news_of m h] by the objects a run of [m] creates. *)
Ltac news :=
  intros;
  match goal with
  | |- context [news_of ?m ?h] =>
      let E := fresh "E" in
      eassert (E : m (mkWorld ([] ++ []) [] [] [] [] None None "" h) = (_, _)) by run;
      rewrite (@news_of_run _ m h _ _ E); clear E
  end;
  cbn [objects]; use_frames.

Ltac witnesses := repeat lazymatch goal with |- exists _, _ => eexists end.

(* ================================================================== *)
(** ** What each generator adds to the scene *)
(* ================================================================== *)

Section Blocks.
Variable rnd : nat -> R.

(** *** Membrane *)

Lemma create_membrane_steps : steps create_membrane 0.
Proof. block. Qed.

Lemma create_membrane_news h :
  map summary (news_of create_membrane h)
  = [mkSummary [Lit "CellMembrane"] KMesh [scene_collection] [mat_membrane]
               vzero vzero []].
Proof. news. reflexivity. Qed.

(** *** Nucleus *)

Lemma chromatin_strand_steps i : steps (chromatin_strand rnd "Nucleus" i) 12.
Proof. block. Qed.

Lemma chromatin_strand_news i h :
  map summary (news_of (chromatin_strand rnd "Nucleus" i) h)
  = [mkSummary [Lit "Chromatin"; Num i] KCurve ["Nucleus"] [mat_chromatin] vzero vzero
       [vadd (point_in_sphere rnd 0.7 h) (vec 0 0 0.2);
        vadd (point_in_sphere rnd 0.7 (3 + h)) (vec 0 0 0.2);
        vadd (point_in_sphere rnd 0.7 (6 + h)) (vec 0 0 0.2);
        vadd (point_in_sphere rnd 0.7 (9 + h)) (vec 0 0 0.2)]].
Proof. news. reflexivity. Qed.

#[local] Hint Resolve chromatin_strand_steps : framed.

Lemma create_nucleus_steps : steps (create_nucleus rnd) 120.
Proof. block. Qed.

Lemma create_nucleus_news h :
  exists envelope nucleoplasm nucleolus,
    news_of (create_nucleus rnd) h
    = envelope :: nucleoplasm :: nucleolus
      :: news_of (for_each (range 10) (chromatin_strand rnd "Nucleus")) h
    /\ summary envelope
       = mkSummary [Lit "NuclearEnvelope"] KMesh ["Nucleus"] [mat_nucleus_envelope]
           (vec 0 0 0.2) vzero []
    /\ summary nucleoplasm
       = mkSummary [Lit "Nucleoplasm"] KMesh ["Nucleus"] [mat_nucleoplasm]
           (vec 0 0 0.2) vzero []
    /\ summary nucleolus
       = mkSummary [Lit "Nucleolus"] KMesh ["Nucleus"] [mat_nucleolus]
           (vec 0.25 0.15 0.35) vzero [].
Proof. news. witnesses. repeat split; reflexivity. Qed.

(** *** Rough ER *)

Lemma stack1_ribosome_steps i loc r : steps (stack1_ribosome rnd "RoughER" i loc r) 3.
Proof. block. Qed.

Lemma stack1_ribosome_news i loc r h :
  map summary (news_of (stack1_ribosome rnd "RoughER" i loc r) h)
  = [mkSummary [Lit "Ribosome_S1C"; Num i; Lit "_"; Num r] KMesh ["RoughER"]
       [mat_ribosome]
       (vec (vx loc + uniform_at rnd (-0.4) 0.4 h)
            (vy loc + uniform_at rnd (-0.25) 0.25 (1 + h))
            (vz loc + 0.025 * choice_at rnd [-1; 1] (2 + h)))
       vzero []].
Proof. news. reflexivity. Qed.

#[local] Hint Resolve stack1_ribosome_steps : framed.

Lemma stack1_cisterna_steps i : steps (stack1_cisterna rnd "RoughER" i) 61.
Proof. block. Qed.

Lemma stack1_cisterna_news i h :
  exists cisterna,
    news_of (stack1_cisterna rnd "RoughER" i) h
    = cisterna
      :: news_of (for_each (range 20)
                    (stack1_ribosome rnd "RoughER" i (stack1_loc i))) (1 + h)
    /\ summary cisterna
       = mkSummary [Lit "RER_Stack1_Cisterna"; Num i] KMesh ["RoughER"] [mat_rough_er]
           (stack1_loc i) (vec 0.1 (-0.3) ((rnd h - 0.5) * 0.1)) [].
Proof. news. witnesses. split; reflexivity. Qed.

#[local] Hint Resolve stack1_cisterna_steps : framed.

Lemma stack2_ribosome_steps i loc r : steps (stack2_ribosome rnd "RoughER" i loc r) 3.
Proof. block. Qed.

Lemma stack2_ribosome_news i loc r h :
  map summary (news_of (stack2_ribosome rnd "RoughER" i loc r) h)
  = [mkSummary [Lit "Ribosome_S2C"; Num i; Lit "_"; Num r] KMesh ["RoughER"]
       [mat_ribosome]
       (vec (vx loc + uniform_at rnd (-0.35) 0.35 h)
            (vy loc + uniform_at rnd (-0.22) 0.22 (1 + h))
            (vz loc + 0.025 * choice_at rnd [-1; 1] (2 + h)))
       vzero []].
Proof. news. reflexivity. Qed.

#[local] Hint Resolve stack2_ribosome_steps : framed.

Lemma stack2_cisterna_steps i : steps (stack2_cisterna rnd "RoughER" i) 46.
Proof. block. Qed.

Lemma stack2_cisterna_news i h :
  exists cisterna,
    news_of (stack2_cisterna rnd "RoughER" i) h
    = cisterna
      :: news_of (for_each (range 15)
                    (stack2_ribosome rnd "RoughER" i (stack2_loc i))) (1 + h)
    /\ summary cisterna
       = mkSummary [Lit "RER_Stack2_Cisterna"; Num i] KMesh ["RoughER"] [mat_rough_er]
           (stack2_loc i) (vec 0.1 (1.9) ((rnd h - 0.5) * 0.1)) [].
Proof. news. witnesses. split; reflexivity. Qed.

#[local] Hint Resolve stack2_cisterna_steps : framed.

Lemma stack3_ribosome_steps i loc r : steps (stack3_ribosome rnd "RoughER" i loc r) 3.
Proof. block. Qed.

Lemma stack3_ribosome_news i loc r h :
  map summary (news_of (stack3_ribosome rnd "RoughER" i loc r) h)
  = [mkSummary [Lit "Ribosome_S3C"; Num i; Lit "_"; Num r] KMesh ["RoughER"]
       [mat_ribosome]
       (vec (vx loc + uniform_at rnd (-0.3) 0.3 h)
            (vy loc + uniform_at rnd (-0.2) 0.2 (1 + h))
            (vz loc + 0.025 * choice_at rnd [-1; 1] (2 + h)))
       vzero []].
Proof. news. reflexivity. Qed.

#[local] Hint Resolve stack3_ribosome_steps : framed.

Lemma stack3_cisterna_steps i : steps (stack3_cisterna rnd "RoughER" i) 37.
Proof. block. Qed.

Lemma stack3_cisterna_news i h :
  exists cisterna,
    news_of (stack3_cisterna rnd "RoughER" i) h
    = cisterna
      :: news_of (for_each (range 12)
                    (stack3_ribosome rnd "RoughER" i (stack3_loc i))) (1 + h)
    /\ summary cisterna
       = mkSummary [Lit "RER_Stack3_Cisterna"; Num i] KMesh ["RoughER"] [mat_rough_er]
           (stack3_loc i) (vec 0.1 (3.8) ((rnd h - 0.5) * 0.1)) [].
Proof. news. witnesses. split; reflexivity. Qed.

#[local] Hint Resolve stack3_cisterna_steps : framed.

Lemma create_rough_er_steps : steps (create_rough_er rnd) 600.
Proof. block. Qed.

Lemma create_rough_er_news h :
  news_of (create_rough_er rnd) h
  = news_of (for_each (range 5) (stack1_cisterna rnd "RoughER")) h
    ++ news_of (for_each (range 4) (stack2_cisterna rnd "RoughER")) (305 + h)
    ++ news_of (for_each (range 3) (stack3_cisterna rnd "RoughER")) (489 + h).
Proof. news. reflexivity. Qed.

(** *** Mitochondria *)

Lemma mitochondrion_body_steps i : steps (mitochondrion_body rnd "Mitochondria" i) 8.
Proof. block. Qed.

Lemma mitochondrion_body_news i h :
  exists l0 l1 l2 l3 r,
    map summary (news_of (mitochondrion_body rnd "Mitochondria" i) h)
    = [mkSummary [Lit "Mitochondrion_"; Num i] KMesh ["Mitochondria"]
         [mat_mitochondria_outer]
         (push_out 1.4 1.7 (point_in_sphere rnd 2.2 h))
         (vec (rnd (3 + h)%nat * PI) (rnd (4 + h)%nat * PI) (rnd (5 + h)%nat * PI)) [];
       mkSummary [Lit "Crista_"; Num 0] KMesh [scene_collection]
         [mat_mitochondria_inner] l0 r [];
       mkSummary [Lit "Crista_"; Num 1] KMesh [scene_collection]
         [mat_mitochondria_inner] l1 r [];
       mkSummary [Lit "Crista_"; Num 2] KMesh [scene_collection]
         [mat_mitochondria_inner] l2 r [];
       mkSummary [Lit "Crista_"; Num 3] KMesh [scene_collection]
         [mat_mitochondria_inner] l3 r []].
Proof. news. witnesses. reflexivity. Qed.

#[local] Hint Resolve mitochondrion_body_steps : framed.

Lemma create_mitochondria_steps : steps (create_mitochondria rnd) 96.
Proof. block. Qed.

Lemma create_mitochondria_news h :
  news_of (create_mitochondria rnd) h
  = news_of (for_each (range 12) (mitochondrion_body rnd "Mitochondria")) h.
Proof. news. reflexivity. Qed.

(** *** Golgi apparatus *)

Lemma golgi_cisterna_steps i : steps (golgi_cisterna "GolgiApparatus" i) 0.
Proof. block. Qed.

Lemma golgi_cisterna_news i h :
  map summary (news_of (golgi_cisterna "GolgiApparatus" i) h)
  = [mkSummary [Lit "GolgiCisterna_"; Num i] KMesh ["GolgiApparatus"] [mat_golgi]
       (vadd golgi_base_pos (vec (INR i * 0.04) (INR i * 0.1) 0))
       (vec 0 0 (PI / 4)) []].
Proof. news. reflexivity. Qed.

Lemma golgi_vesicle_steps i : steps (golgi_vesicle rnd "GolgiApparatus" i) 4.
Proof. block. Qed.

Lemma golgi_vesicle_news i h :
  map summary (news_of (golgi_vesicle rnd "GolgiApparatus" i) h)
  = [mkSummary [Lit "GolgiVesicle_"; Num i] KMesh ["GolgiApparatus"] [mat_vesicle]
       (vadd golgi_base_pos
             (vec (0.3 + uniform_at rnd 0 0.2 (1 + h))
                  (uniform_at rnd (-0.15) 0.35 (2 + h))
                  (uniform_at rnd (-0.2) 0.2 (3 + h))))
       vzero []].
Proof. news. reflexivity. Qed.

#[local] Hint Resolve golgi_cisterna_steps golgi_vesicle_steps : framed.

Lemma create_golgi_steps : steps (create_golgi rnd) 32.
Proof. block. Qed.

Lemma create_golgi_news h :
  news_of (create_golgi rnd) h
  = news_of (for_each (range 5) (golgi_cisterna "GolgiApparatus")) h
    ++ news_of (for_each (range 8) (golgi_vesicle rnd "GolgiApparatus")) h.
Proof. news. reflexivity. Qed.

(** *** Lysosomes *)

Lemma lysosome_body_steps i : steps (lysosome_body rnd "Lysosomes" i) 4.
Proof. block. Qed.

Lemma lysosome_body_news i h :
  map summary (news_of (lysosome_body rnd "Lysosomes" i) h)
  = [mkSummary [Lit "Lysosome_"; Num i] KMesh ["Lysosomes"] [mat_lysosome]
       (push_out 1.4 1.7 (point_in_sphere rnd 2.3 h)) vzero []].
Proof. news. reflexivity. Qed.

#[local] Hint Resolve lysosome_body_steps : framed.

Lemma create_lysosomes_steps : steps (create_lysosomes rnd) 40.
Proof. block. Qed.

Lemma create_lysosomes_news h :
  news_of (create_lysosomes rnd) h
  = news_of (for_each (range 10) (lysosome_body rnd "Lysosomes")) h.
Proof. news. reflexivity. Qed.

(** *** Centrosome *)

Lemma centriole_tube_steps c pos i angle t :
  steps (centriole_tube "Centrosome" c pos i angle t) 0.
Proof. unfold centriole_tube. destruct (Nat.eqb c 1); block. Qed.

Lemma centriole_tube_news c pos i angle t h :
  map summary (news_of (centriole_tube "Centrosome" c pos i angle t) h)
  = [mkSummary [Lit "Centriole"; Num c; Lit "_Triplet"; Num i; Lit "_"; Num t] KMesh
       ["Centrosome"] [mat_centriole]
       (vadd pos (vec (cos (angle + INR t * 0.08) * (0.07 + INR t * 0.015)) 0
                      (sin (angle + INR t * 0.08) * (0.07 + INR t * 0.015))))
       (if Nat.eqb c 1 then vec (PI / 2) 0 0 else vzero) []].
Proof.
  unfold centriole_tube. destruct (Nat.eqb c 1), (Nat.eqb c 0); news; reflexivity.
Qed.

#[local] Hint Resolve centriole_tube_steps : framed.

Lemma centriole_triplet_steps c pos i : steps (centriole_triplet "Centrosome" c pos i) 0.
Proof. block. Qed.

#[local] Hint Resolve centriole_triplet_steps : framed.

Lemma centriole_steps c : steps (centriole "Centrosome" c) 0.
Proof. block. Qed.

#[local] Hint Resolve centriole_steps : framed.

Lemma create_centrosome_steps : steps create_centrosome 0.
Proof. block. Qed.

Lemma create_centrosome_news h :
  news_of create_centrosome h = news_of (for_each (range 2) (centriole "Centrosome")) h.
Proof. news. reflexivity. Qed.

(** *** Free ribosomes *)

Lemma free_ribosome_steps i : steps (free_ribosome rnd "FreeRibosomes" i) 3.
Proof. block. Qed.

Lemma free_ribosome_news i h :
  map summary (news_of (free_ribosome rnd "FreeRibosomes" i) h)
  = [mkSummary [Lit "FreeRibosome_"; Num i] KMesh ["FreeRibosomes"] [mat_ribosome]
       (push_out 1.3 1.5 (point_in_sphere rnd 2.5 h)) vzero []].
Proof. news. reflexivity. Qed.

#[local] Hint Resolve free_ribosome_steps : framed.

Lemma create_free_ribosomes_steps : steps (create_free_ribosomes rnd) 180.
Proof. block. Qed.

Lemma create_free_ribosomes_news h :
  news_of (create_free_ribosomes rnd) h
  = news_of (for_each (range 60) (free_ribosome rnd "FreeRibosomes")) h.
Proof. news. reflexivity. Qed.

(** *** Cytoskeleton *)

Lemma microtubule_steps i : steps (microtubule rnd "Cytoskeleton" i) 6.
Proof. block. Qed.

Lemma microtubule_news i h :
  exists end_pos,
    map summary (news_of (microtubule rnd "Cytoskeleton" i) h)
    = [mkSummary [Lit "Microtubule_"; Num i] KCurve ["Cytoskeleton"] [mat_cytoskeleton]
         vzero vzero [vec 1.5 (-0.5) (-1.2); end_pos]].
Proof. news. witnesses. reflexivity. Qed.

#[local] Hint Resolve microtubule_steps : framed.

Lemma create_cytoskeleton_steps : steps (create_cytoskeleton rnd) 108.
Proof. block. Qed.

Lemma create_cytoskeleton_news h :
  news_of (create_cytoskeleton rnd) h
  = news_of (for_each (range 18) (microtubule rnd "Cytoskeleton")) h.
Proof. news. reflexivity. Qed.

(** *** Camera and lights *)

Lemma final_setup_steps : steps final_setup 0.
Proof. block. Qed.

Lemma final_setup_news h :
  map summary (news_of final_setup h)
  = [mkSummary [Lit "Camera"] KCamera [scene_collection] [] (vec 8 (-8) 6)
       (vec (radians 60) 0 (radians 45)) [];
     mkSummary [Lit "Light"] KLight [scene_collection] [] (vec 5 (-5) 10) vzero [];
     mkSummary [Lit "Light"] KLight [scene_collection] [] (vec (-5) 5 5) vzero []].
Proof. news. reflexivity. Qed.

End Blocks.

#[export] Hint Resolve chromatin_strand_steps stack1_ribosome_steps stack1_cisterna_steps
  stack2_ribosome_steps stack2_cisterna_steps stack3_ribosome_steps stack3_cisterna_steps
  mitochondrion_body_steps golgi_cisterna_steps golgi_vesicle_steps lysosome_body_steps
  centriole_tube_steps centriole_triplet_steps centriole_steps free_ribosome_steps
  microtubule_steps create_membrane_steps create_nucleus_steps create_rough_er_steps
  create_mitochondria_steps create_golgi_steps create_lysosomes_steps
  create_centrosome_steps create_free_ribosomes_steps create_cytoskeleton_steps
  final_setup_steps : framed.

(* ================================================================== *)
(** ** The smooth-ER generator *)
(* ================================================================== *)

Section SmoothER.
Variable rnd : nat -> R.

Lemma ser_node_body_run i nodes L a b c d e f g h :
  ser_node_body rnd i nodes (mkWorld L a b c d e f g h)
  = (nodes ++ [ser_node_at rnd h], mkWorld L a b c d e f g (4 + h)).
Proof. run. Qed.

Lemma ser_nodes_fold n : forall s nodes L a b c d e f g h,
  fold_each (seq s n) nodes (ser_node_body rnd) (mkWorld L a b c d e f g h)
  = (nodes ++ map (fun i => ser_node_at rnd (4 * i + h)) (seq 0 n),
     mkWorld L a b c d e f g (4 * n + h)).
Proof.
  induction n as [|n IH]; intros s nodes L a b c d e f g h.
  - cbn [seq fold_each map ret]. now rewrite app_nil_r.
  - cbn [seq fold_each].
    eapply bind_step; [ apply ser_node_body_run | ].
    rewrite IH. f_equal.
    + rewrite <- app_assoc. f_equal. cbn [map app].
      replace (4 * 0 + h)%nat with h by lia. f_equal.
      rewrite <- seq_shift, map_map. apply map_ext. intros k. f_equal. lia.
    + f_equal. lia.
Qed.

Lemma ser_connect_run nodes i jdist connected L a b c d e f g h :
  ser_connect rnd "SmoothER" nodes i jdist connected (mkWorld L a b c d e f g h)
  = if ser_accepts connected i jdist
    then (set_add (ser_key i (fst jdist)) connected,
          mkWorld (L ++ [ser_tube nodes (i, fst jdist)]) a b c d e f g (3 + h))
    else (connected, mkWorld L a b c d e f g h).
Proof.
  unfold ser_connect, ser_accepts, ser_key.
  destruct (Rlt_dec (snd jdist) 1.2) as [Hlt|Hge]; [ | reflexivity ].
  destruct (set_mem (Nat.min i (fst jdist), Nat.max i (fst jdist)) connected) eqn:Hmem;
    [ reflexivity | ].
  cbn [negb]. rewrite <- (app_nil_r L) at 1.
  run.
Qed.

Lemma ser_connect_node_run nodes i near : forall connected L a b c d e f g h,
  fold_each near connected (ser_connect rnd "SmoothER" nodes i)
            (mkWorld L a b c d e f g h)
  = (snd (ser_links_near i near connected),
     mkWorld (L ++ map (ser_tube nodes) (fst (ser_links_near i near connected)))
             a b c d e f g
             (3 * length (fst (ser_links_near i near connected)) + h)).
Proof.
  induction near as [|jdist rest IH]; intros connected L a b c d e f g h.
  - cbn [fold_each ser_links_near ret fst snd map length]. rewrite app_nil_r.
    reflexivity.
  - cbn [fold_each ser_links_near].
    unfold bind. rewrite ser_connect_run.
    destruct (ser_accepts connected i jdist).
    + rewrite IH.
      destruct (ser_links_near i rest (set_add (ser_key i (fst jdist)) connected))
        as [tubes connected'].
      cbn [fst snd map length]. rewrite <- app_assoc. cbn [app].
      f_equal. f_equal. lia.
    + apply IH.
Qed.

Lemma ser_connect_all_run nodes inodes : forall connected L a b c d e f g h,
  fold_each inodes connected (ser_connect_node rnd "SmoothER" nodes)
            (mkWorld L a b c d e f g h)
  = (snd (ser_links_from nodes inodes connected),
     mkWorld (L ++ map (ser_tube nodes) (fst (ser_links_from nodes inodes connected)))
             a b c d e f g
             (3 * length (fst (ser_links_from nodes inodes connected)) + h)).
Proof.
  induction inodes as [|inode rest IH]; intros connected L a b c d e f g h.
  - cbn [fold_each ser_links_from ret fst snd map length]. rewrite app_nil_r.
    reflexivity.
  - cbn [fold_each ser_links_from].
    eapply bind_step; [ unfold ser_connect_node; apply ser_connect_node_run | ].
    rewrite IH.
    destruct (ser_links_near (fst inode) (ser_nearest nodes (fst inode) (snd inode))
                             connected) as [tubes connected'].
    cbn [fst snd].
    destruct (ser_links_from nodes rest connected') as [tubes' connected''].
    cbn [fst snd]. rewrite map_app, length_app, <- app_assoc.
    f_equal. f_equal. lia.
Qed.

Lemma ser_junction_steps inode : steps (ser_junction "SmoothER" inode) 0.
Proof. block. Qed.

Lemma ser_junction_news inode h :
  map summary (news_of (ser_junction "SmoothER" inode) h)
  = [mkSummary [Lit "SERJunction_"; Num (fst inode)] KMesh ["SmoothER"] [mat_smooth_er]
       (snd inode) vzero []].
Proof. news. reflexivity. Qed.

#[local] Hint Resolve ser_junction_steps : framed.

Lemma create_smooth_er_adds h :
  let nodes := ser_nodes rnd h in
  adds (create_smooth_er rnd) h
       (map (ser_tube nodes) (ser_links nodes)
        ++ news_of (for_each (enumerate nodes) (ser_junction "SmoothER"))
                   (3 * length (ser_links nodes) + (100 + h)))
       (3 * length (ser_links nodes) + (100 + h)).
Proof.
  intros nodes L a b c d e f g.
  assert (E : create_smooth_er rnd (mkWorld L a b c d e f g h)
              = ("SmoothER",
                 after (for_each (enumerate nodes) (ser_junction "SmoothER"))
                   (mkWorld (L ++ map (ser_tube nodes) (ser_links nodes)) a
                      b (c ++ ["SmoothER"]) (d ++ ["SmoothER"]) e f g
                      (3 * length (ser_links nodes) + (100 + h))))).
  { unfold create_smooth_er.
    eapply bind_step; [ run | ].
    eapply bind_step; [ run | ].
    eapply bind_step; [ apply (ser_nodes_fold 25 0) | ].
    cbn [app]. change (map _ (seq 0 25)) with nodes.
    eapply bind_step; [ apply ser_connect_all_run | ].
    eapply bind_step; [ apply for_each_run | ].
    reflexivity. }
  rewrite (@after_pair _ _ _ _ _ E).
  use_frames. split; reflexivity.
Qed.

Lemma create_smooth_er_framed : framed (create_smooth_er rnd).
Proof. apply adds_framed. intros h. do 2 eexists. apply create_smooth_er_adds. Qed.

Lemma create_smooth_er_news h :
  news_of (create_smooth_er rnd) h
  = map (ser_tube (ser_nodes rnd h)) (ser_links (ser_nodes rnd h))
    ++ news_of (for_each (enumerate (ser_nodes rnd h)) (ser_junction "SmoothER"))
               (3 * length (ser_links (ser_nodes rnd h)) + (100 + h)).
Proof. apply (adds_news (create_smooth_er_adds h)). Qed.

Lemma create_smooth_er_cursor h :
  cursor_of (create_smooth_er rnd) h
  = (3 * length (ser_links (ser_nodes rnd h)) + (100 + h))%nat.
Proof. apply (adds_news (create_smooth_er_adds h)). Qed.

End SmoothER.

#[export] Hint Resolve ser_junction_steps create_smooth_er_framed : framed.

(* ================================================================== *)
(** ** Counting and selecting over a scene *)
(* ================================================================== *)

Lemma summaries_app l m : summaries (l ++ m) = summaries l ++ summaries m.
Proof. apply map_app. Qed.

Lemma select_app k l m : select k (l ++ m) = select k l ++ select k m.
Proof. apply filter_app. Qed.

Lemma vplus_map (A : Type) (f g : A -> nat) (l : list A) :
  vplus (map f l) (map g l) = map (fun x => (f x + g x)%nat) l.
Proof. induction l as [|x l IH]; cbn; [reflexivity | now rewrite IH]. Qed.

Lemma census_app l m : census (l ++ m) = vplus (census l) (census m).
Proof.
  unfold census. rewrite vplus_map. apply map_ext. intros k.
  now rewrite select_app, length_app.
Qed.

Lemma vplus_vtimes n v : vplus v (vtimes n v) = vtimes (S n) v.
Proof.
  unfold vtimes. induction v as [|x v IH]; cbn [map vplus]; [reflexivity | ].
  rewrite IH. f_equal.
Qed.

Lemma map_zero (B : Type) (l : list B) :
  map (fun _ => 0%nat) l = repeat 0%nat (length l).
Proof. induction l as [|x l IH]; cbn; [reflexivity | now rewrite IH]. Qed.

Lemma vtimes_zero v : length v = length census_keys -> vtimes 0 v = census [].
Proof.
  unfold vtimes, census. intros H.
  rewrite (map_ext (Nat.mul 0) (fun _ => 0%nat)) by reflexivity.
  rewrite (map_ext (fun k => length (select k [])) (fun _ => 0%nat)) by reflexivity.
  now rewrite !map_zero, H.
Qed.

Section Loops.
Variables (A : Type) (body : A -> M unit).
Hypothesis body_framed : forall x, framed (body x).

(** A property of every iteration's objects holds of the loop's. *)
Lemma loop_Forall (T : Type) (F : list Obj -> list T) (P : T -> Prop) :
  F [] = [] -> (forall l m, F (l ++ m) = F l ++ F m) ->
  (forall x c, Forall P (F (news_of (body x) c))) ->
  forall l c, Forall P (F (news_of (for_each l body) c)).
Proof.
  intros Hnil Happ H l. induction l as [|x l IH]; intros c.
  - change (news_of (for_each [] body) c) with (@nil Obj). rewrite Hnil. constructor.
  - rewrite news_of_for_each_cons, Happ by assumption.
    apply Forall_app. split; [ apply H | apply IH ].
Qed.

Lemma loop_census v :
  length v = length census_keys ->
  (forall x c, census (summaries (news_of (body x) c)) = v) ->
  forall l c, census (summaries (news_of (for_each l body) c)) = vtimes (length l) v.
Proof.
  intros Hlen H l. induction l as [|x l IH]; intros c.
  - change (news_of (for_each [] body) c) with (@nil Obj). cbn [length summaries map].
    symmetry. now apply vtimes_zero.
  - rewrite news_of_for_each_cons, summaries_app, census_app, H, IH by assumption.
    cbn [length]. apply vplus_vtimes.
Qed.

(** The objects of iteration number [n], for a body that consumes [K]
    draws, are among the loop's. *)
Lemma loop_incl (K : nat) :
  (forall x c, cursor_of (body x) c = (K + c)%nat) ->
  forall l c n x, nth_error l n = Some x ->
  incl (news_of (body x) (n * K + c)) (news_of (for_each l body) c).
Proof.
  intros HK l. induction l as [|y l IH]; intros c n x Hn.
  - destruct n; discriminate.
  - rewrite news_of_for_each_cons by assumption. destruct n as [|n].
    + injection Hn as ->. cbn [Nat.mul Nat.add]. apply incl_appl, incl_refl.
    + apply incl_appr. rewrite HK.
      replace (S n * K + c)%nat with (n * K + (K + c))%nat by lia.
      now apply IH.
Qed.
End Loops.

Lemma census_zero_select ss v idx k :
  census ss = v -> nth_error census_keys idx = Some k -> nth idx v 1%nat = 0%nat ->
  select k ss = [].
Proof.
  intros <- Hk Hz. apply length_zero_iff_nil. unfold census in Hz.
  rewrite (nth_indep _ 1%nat (length (select k ss))) in Hz.
  - rewrite (map_nth (fun k => length (select k ss)) census_keys k idx) in Hz.
    now rewrite (nth_error_nth _ _ _ Hk) in Hz.
  - rewrite length_map. apply nth_error_Some. now rewrite Hk.
Qed.

Lemma census_count l v idx k :
  census (summaries l) = v -> nth_error census_keys idx = Some k ->
  count k l = nth idx v 0%nat.
Proof.
  intros <- Hk. unfold count, census.
  rewrite (nth_indep _ 0%nat (length (select k (summaries l)))).
  - rewrite (map_nth (fun k => length (select k (summaries l))) census_keys k idx).
    now rewrite (nth_error_nth _ _ _ Hk).
  - rewrite length_map. apply nth_error_Some. now rewrite Hk.
Qed.

(* ================================================================== *)
(** ** The census of each generator *)
(* ================================================================== *)

Lemma summaries_cons o l : summaries (o :: l) = summary o :: summaries l.
Proof. reflexivity. Qed.

Lemma census_cons s ss : census (s :: ss) = vplus (census [s]) (census ss).
Proof. apply (census_app [s] ss). Qed.

Lemma ok_materials_app l m : ok_materials l -> ok_materials m -> ok_materials (l ++ m).
Proof. intros H1 H2. apply Forall_app. split; assumption. Qed.

Lemma ok_materials_cons s ss :
  material_ok s = true -> ok_materials ss -> ok_materials (s :: ss).
Proof. intros H1 H2. constructor; assumption. Qed.

Lemma loop_materials (A : Type) (body : A -> M unit) :
  (forall x, framed (body x)) ->
  (forall x c, ok_materials (summaries (news_of (body x) c))) ->
  forall l c, ok_materials (summaries (news_of (for_each l body) c)).
Proof.
  intros Hf H. apply (@loop_Forall _ body Hf _ summaries); auto. apply summaries_app.
Qed.

Lemma loop_census_of (A : Type) (body : A -> M unit) v l c :
  (forall x, framed (body x)) ->
  (forall x c', census (summaries (news_of (body x) c')) = v) ->
  length v = length census_keys ->
  census (summaries (news_of (for_each l body) c)) = vtimes (length l) v.
Proof. intros Hf H Hlen. now apply loop_census. Qed.

(** Opens a [_news] lemma and rewrites with it. *)
Ltac by_news L :=
  unfold summaries;
  let H := fresh "H" in
  pose proof L as H;
  repeat lazymatch type of H with
         | ex _ => let x := fresh "x" in destruct H as [x H]
         end;
  rewrite H.

Ltac ok_list :=
  repeat first [ apply Forall_nil | apply Forall_cons; [ lazy; reflexivity | ] ].

Ltac split_census :=
  repeat match goal with
  | |- context [census (?s :: ?t :: ?r)] => rewrite (census_cons s (t :: r))
  | |- context [census (?s :: summaries ?X)] => rewrite (census_cons s (summaries X))
  end.

Ltac ok_heads :=
  repeat lazymatch goal with
         | |- ok_materials (_ :: _) => apply ok_materials_cons; [ lazy; reflexivity | ]
         end.

Ltac ok_apps :=
  repeat lazymatch goal with
         | |- ok_materials (_ ++ _) => apply ok_materials_app
         end.

Ltac census_block L := by_news L; lazy; reflexivity.
Ltac materials_block L := by_news L; ok_list.

Ltac loops_with C :=
  repeat match goal with
  | |- context [census (summaries (news_of (for_each ?l ?b) ?c))] =>
      rewrite (@loop_census_of _ b _ l c ltac:(framed_hint) C eq_refl)
  end.

Ltac census_loop C := loops_with C; lazy; reflexivity.

Ltac materials_loop C := apply loop_materials; [ framed_hint | intros; apply C ].

Section Census.
Variable rnd : nat -> R.

Lemma create_membrane_census h :
  census (summaries (news_of create_membrane h)) = only 0 0.
Proof. census_block (create_membrane_news h). Qed.

Lemma create_membrane_materials h : ok_materials (summaries (news_of create_membrane h)).
Proof. materials_block (create_membrane_news h). Qed.

Lemma chromatin_strand_census i h :
  census (summaries (news_of (chromatin_strand rnd "Nucleus" i) h)) = only 0 1.
Proof. census_block (chromatin_strand_news rnd i h). Qed.

Lemma chromatin_strand_materials i h :
  ok_materials (summaries (news_of (chromatin_strand rnd "Nucleus" i) h)).
Proof. materials_block (chromatin_strand_news rnd i h). Qed.

Lemma create_nucleus_census h :
  census (summaries (news_of (create_nucleus rnd) h)) = only 0 10.
Proof.
  destruct (create_nucleus_news rnd h) as (e & n & nl & -> & E1 & E2 & E3).
  rewrite !summaries_cons. split_census. rewrite E1, E2, E3.
  census_loop chromatin_strand_census.
Qed.

Lemma create_nucleus_materials h :
  ok_materials (summaries (news_of (create_nucleus rnd) h)).
Proof.
  destruct (create_nucleus_news rnd h) as (e & n & nl & -> & E1 & E2 & E3).
  rewrite !summaries_cons, E1, E2, E3.
  ok_heads.
  apply loop_materials; [ framed_hint | apply chromatin_strand_materials ].
Qed.

(** *** Rough ER *)

Lemma stack1_ribosome_census i loc r h :
  census (summaries (news_of (stack1_ribosome rnd "RoughER" i loc r) h)) = only 13 1.
Proof. census_block (stack1_ribosome_news rnd i loc r h). Qed.

Lemma stack1_ribosome_materials i loc r h : ok_materials (summaries (news_of (stack1_ribosome rnd "RoughER" i loc r) h)).
Proof. materials_block (stack1_ribosome_news rnd i loc r h). Qed.

Lemma stack1_cisterna_census i h :
  census (summaries (news_of (stack1_cisterna rnd "RoughER" i) h))
  = vplus (only 1 1) (only 13 20).
Proof.
  destruct (stack1_cisterna_news rnd i h) as (o & -> & E).
  rewrite summaries_cons. split_census. rewrite E.
  census_loop (stack1_ribosome_census i (stack1_loc i)).
Qed.

Lemma stack1_cisterna_materials i h :
  ok_materials (summaries (news_of (stack1_cisterna rnd "RoughER" i) h)).
Proof.
  destruct (stack1_cisterna_news rnd i h) as (o & -> & E).
  rewrite summaries_cons, E. ok_heads.
  materials_loop (stack1_ribosome_materials i (stack1_loc i)).
Qed.

Lemma stack2_ribosome_census i loc r h :
  census (summaries (news_of (stack2_ribosome rnd "RoughER" i loc r) h)) = only 14 1.
Proof. census_block (stack2_ribosome_news rnd i loc r h). Qed.

Lemma stack2_ribosome_materials i loc r h : ok_materials (summaries (news_of (stack2_ribosome rnd "RoughER" i loc r) h)).
Proof. materials_block (stack2_ribosome_news rnd i loc r h). Qed.

Lemma stack2_cisterna_census i h :
  census (summaries (news_of (stack2_cisterna rnd "RoughER" i) h))
  = vplus (only 2 1) (only 14 15).
Proof.
  destruct (stack2_cisterna_news rnd i h) as (o & -> & E).
  rewrite summaries_cons. split_census. rewrite E.
  census_loop (stack2_ribosome_census i (stack2_loc i)).
Qed.

Lemma stack2_cisterna_materials i h :
  ok_materials (summaries (news_of (stack2_cisterna rnd "RoughER" i) h)).
Proof.
  destruct (stack2_cisterna_news rnd i h) as (o & -> & E).
  rewrite summaries_cons, E. ok_heads.
  materials_loop (stack2_ribosome_materials i (stack2_loc i)).
Qed.

Lemma stack3_ribosome_census i loc r h :
  census (summaries (news_of (stack3_ribosome rnd "RoughER" i loc r) h)) = only 15 1.
Proof. census_block (stack3_ribosome_news rnd i loc r h). Qed.

Lemma stack3_ribosome_materials i loc r h : ok_materials (summaries (news_of (stack3_ribosome rnd "RoughER" i loc r) h)).
Proof. materials_block (stack3_ribosome_news rnd i loc r h). Qed.

Lemma stack3_cisterna_census i h :
  census (summaries (news_of (stack3_cisterna rnd "RoughER" i) h))
  = vplus (only 3 1) (only 15 12).
Proof.
  destruct (stack3_cisterna_news rnd i h) as (o & -> & E).
  rewrite summaries_cons. split_census. rewrite E.
  census_loop (stack3_ribosome_census i (stack3_loc i)).
Qed.

Lemma stack3_cisterna_materials i h :
  ok_materials (summaries (news_of (stack3_cisterna rnd "RoughER" i) h)).
Proof.
  destruct (stack3_cisterna_news rnd i h) as (o & -> & E).
  rewrite summaries_cons, E. ok_heads.
  materials_loop (stack3_ribosome_materials i (stack3_loc i)).
Qed.

Lemma create_rough_er_census h :
  census (summaries (news_of (create_rough_er rnd) h))
  = [0; 5; 4; 3; 0; 0; 0; 0; 0; 0; 0; 0; 0; 100; 60; 36]%nat.
Proof.
  rewrite create_rough_er_news, !summaries_app, !census_app.
  loops_with stack1_cisterna_census. loops_with stack2_cisterna_census.
  loops_with stack3_cisterna_census. lazy; reflexivity.
Qed.

Lemma create_rough_er_materials h :
  ok_materials (summaries (news_of (create_rough_er rnd) h)).
Proof.
  rewrite create_rough_er_news, !summaries_app.
  ok_apps.
  - materials_loop stack1_cisterna_materials.
  - materials_loop stack2_cisterna_materials.
  - materials_loop stack3_cisterna_materials.
Qed.

(** *** Smooth ER *)

Lemma ser_tubes_census nodes links :
  census (summaries (map (ser_tube nodes) links)) = only 12 (length links).
Proof.
  induction links as [|ij links IH].
  - lazy; reflexivity.
  - cbn [map length]. rewrite summaries_cons, census_cons, IH. lazy; reflexivity.
Qed.

Lemma ser_tubes_materials nodes links :
  ok_materials (summaries (map (ser_tube nodes) links)).
Proof.
  induction links as [|ij links IH]; [ constructor | ].
  cbn [map]. rewrite summaries_cons. apply ok_materials_cons; [ reflexivity | exact IH ].
Qed.

Lemma ser_junction_census inode h :
  census (summaries (news_of (ser_junction "SmoothER" inode) h)) = only 11 1.
Proof. census_block (ser_junction_news inode h). Qed.

Lemma ser_junction_materials inode h : ok_materials (summaries (news_of (ser_junction "SmoothER" inode) h)).
Proof. materials_block (ser_junction_news inode h). Qed.

Lemma create_smooth_er_census h :
  census (summaries (news_of (create_smooth_er rnd) h))
  = vplus (only 12 (length (ser_links (ser_nodes rnd h)))) (only 11 25).
Proof.
  rewrite create_smooth_er_news, summaries_app, census_app, ser_tubes_census.
  loops_with ser_junction_census.
  generalize (length (ser_links (ser_nodes rnd h))). intros n. lazy; reflexivity.
Qed.

Lemma create_smooth_er_materials h :
  ok_materials (summaries (news_of (create_smooth_er rnd) h)).
Proof.
  rewrite create_smooth_er_news, summaries_app. ok_apps.
  - apply ser_tubes_materials.
  - materials_loop ser_junction_materials.
Qed.

(** *** Mitochondria *)

Lemma mitochondrion_body_census i h :
  census (summaries (news_of (mitochondrion_body rnd "Mitochondria" i) h)) = only 4 1.
Proof. census_block (mitochondrion_body_news rnd i h). Qed.

Lemma mitochondrion_body_materials i h : ok_materials (summaries (news_of (mitochondrion_body rnd "Mitochondria" i) h)).
Proof. materials_block (mitochondrion_body_news rnd i h). Qed.

Lemma create_mitochondria_census h : census (summaries (news_of (create_mitochondria rnd) h)) = only 4 12.
Proof. rewrite create_mitochondria_news. census_loop mitochondrion_body_census. Qed.

Lemma create_mitochondria_materials h : ok_materials (summaries (news_of (create_mitochondria rnd) h)).
Proof. rewrite create_mitochondria_news. materials_loop mitochondrion_body_materials. Qed.

(** *** Golgi apparatus *)

Lemma golgi_cisterna_census i h :
  census (summaries (news_of (golgi_cisterna "GolgiApparatus" i) h)) = only 5 1.
Proof. census_block (golgi_cisterna_news i h). Qed.

Lemma golgi_cisterna_materials i h : ok_materials (summaries (news_of (golgi_cisterna "GolgiApparatus" i) h)).
Proof. materials_block (golgi_cisterna_news i h). Qed.

Lemma golgi_vesicle_census i h :
  census (summaries (news_of (golgi_vesicle rnd "GolgiApparatus" i) h)) = only 6 1.
Proof. census_block (golgi_vesicle_news rnd i h). Qed.

Lemma golgi_vesicle_materials i h : ok_materials (summaries (news_of (golgi_vesicle rnd "GolgiApparatus" i) h)).
Proof. materials_block (golgi_vesicle_news rnd i h). Qed.

Lemma create_golgi_census h :
  census (summaries (news_of (create_golgi rnd) h)) = vplus (only 5 5) (only 6 8).
Proof.
  rewrite create_golgi_news, summaries_app, census_app.
  loops_with golgi_cisterna_census. loops_with golgi_vesicle_census. lazy; reflexivity.
Qed.

Lemma create_golgi_materials h : ok_materials (summaries (news_of (create_golgi rnd) h)).
Proof.
  rewrite create_golgi_news, summaries_app. ok_apps.
  - materials_loop golgi_cisterna_materials.
  - materials_loop golgi_vesicle_materials.
Qed.

(** *** Lysosomes *)

Lemma lysosome_body_census i h :
  census (summaries (news_of (lysosome_body rnd "Lysosomes" i) h)) = only 7 1.
Proof. census_block (lysosome_body_news rnd i h). Qed.

Lemma lysosome_body_materials i h : ok_materials (summaries (news_of (lysosome_body rnd "Lysosomes" i) h)).
Proof. materials_block (lysosome_body_news rnd i h). Qed.

Lemma create_lysosomes_census h : census (summaries (news_of (create_lysosomes rnd) h)) = only 7 10.
Proof. rewrite create_lysosomes_news. census_loop lysosome_body_census. Qed.

Lemma create_lysosomes_materials h : ok_materials (summaries (news_of (create_lysosomes rnd) h)).
Proof. rewrite create_lysosomes_news. materials_loop lysosome_body_materials. Qed.

(** *** Centrosome *)

Lemma centriole_tube_census c pos i angle t h :
  census (summaries (news_of (centriole_tube "Centrosome" c pos i angle t) h)) = only 8 1.
Proof. census_block (centriole_tube_news c pos i angle t h). Qed.

Lemma centriole_tube_materials c pos i angle t h : ok_materials (summaries (news_of (centriole_tube "Centrosome" c pos i angle t) h)).
Proof. materials_block (centriole_tube_news c pos i angle t h). Qed.

Lemma centriole_triplet_news c pos i h :
  news_of (centriole_triplet "Centrosome" c pos i) h
  = news_of (for_each (range 3)
               (centriole_tube "Centrosome" c pos i (INR i / 9 * 2 * PI))) h.
Proof. reflexivity. Qed.

Lemma centriole_news c h :
  news_of (centriole "Centrosome" c) h
  = news_of (for_each (range 9)
               (centriole_triplet "Centrosome" c
                  (vadd centro_base_pos (vec 0 (INR c * 0.18) 0)))) h.
Proof. reflexivity. Qed.

Lemma centriole_triplet_census c pos i h :
  census (summaries (news_of (centriole_triplet "Centrosome" c pos i) h)) = only 8 3.
Proof.
  rewrite centriole_triplet_news.
  census_loop (centriole_tube_census c pos i (INR i / 9 * 2 * PI)).
Qed.

Lemma centriole_triplet_materials c pos i h :
  ok_materials (summaries (news_of (centriole_triplet "Centrosome" c pos i) h)).
Proof.
  rewrite centriole_triplet_news.
  materials_loop (centriole_tube_materials c pos i (INR i / 9 * 2 * PI)).
Qed.

Lemma centriole_census c h :
  census (summaries (news_of (centriole "Centrosome" c) h)) = only 8 27.
Proof.
  rewrite centriole_news.
  census_loop (centriole_triplet_census c (vadd centro_base_pos (vec 0 (INR c * 0.18) 0))).
Qed.

Lemma centriole_materials c h :
  ok_materials (summaries (news_of (centriole "Centrosome" c) h)).
Proof.
  rewrite centriole_news.
  materials_loop
    (centriole_triplet_materials c (vadd centro_base_pos (vec 0 (INR c * 0.18) 0))).
Qed.

Lemma create_centrosome_census h : census (summaries (news_of (create_centrosome) h)) = only 8 54.
Proof. rewrite create_centrosome_news. census_loop centriole_census. Qed.

Lemma create_centrosome_materials h : ok_materials (summaries (news_of (create_centrosome) h)).
Proof. rewrite create_centrosome_news. materials_loop centriole_materials. Qed.

(** *** Free ribosomes *)

Lemma free_ribosome_census i h :
  census (summaries (news_of (free_ribosome rnd "FreeRibosomes" i) h)) = only 9 1.
Proof. census_block (free_ribosome_news rnd i h). Qed.

Lemma free_ribosome_materials i h : ok_materials (summaries (news_of (free_ribosome rnd "FreeRibosomes" i) h)).
Proof. materials_block (free_ribosome_news rnd i h). Qed.

Lemma create_free_ribosomes_census h : census (summaries (news_of (create_free_ribosomes rnd) h)) = only 9 60.
Proof. rewrite create_free_ribosomes_news. census_loop free_ribosome_census. Qed.

Lemma create_free_ribosomes_materials h : ok_materials (summaries (news_of (create_free_ribosomes rnd) h)).
Proof. rewrite create_free_ribosomes_news. materials_loop free_ribosome_materials. Qed.

(** *** Cytoskeleton *)

Lemma microtubule_census i h :
  census (summaries (news_of (microtubule rnd "Cytoskeleton" i) h)) = only 10 1.
Proof. census_block (microtubule_news rnd i h). Qed.

Lemma microtubule_materials i h : ok_materials (summaries (news_of (microtubule rnd "Cytoskeleton" i) h)).
Proof. materials_block (microtubule_news rnd i h). Qed.

Lemma create_cytoskeleton_census h : census (summaries (news_of (create_cytoskeleton rnd) h)) = only 10 18.
Proof. rewrite create_cytoskeleton_news. census_loop microtubule_census. Qed.

Lemma create_cytoskeleton_materials h : ok_materials (summaries (news_of (create_cytoskeleton rnd) h)).
Proof. rewrite create_cytoskeleton_news. materials_loop microtubule_materials. Qed.

(** *** Camera and lights *)

Lemma final_setup_census  h :
  census (summaries (news_of (final_setup) h)) = only 0 0.
Proof. census_block (final_setup_news h). Qed.

Lemma final_setup_materials  h : ok_materials (summaries (news_of (final_setup) h)).
Proof. materials_block (final_setup_news h). Qed.

End Census.

(* ================================================================== *)
(** ** The whole scene *)
(* ================================================================== *)

Ltac framed_seqs :=
  repeat lazymatch goal with
         | |- framed (bind _ _) => apply framed_seq
         end;
  framed_hint.

Section Scene.
Variable rnd : nat -> R.

Lemma generators_framed : framed (generators rnd).
Proof. unfold generators. framed_seqs. Qed.

Lemma generators_news c :
  news_of (generators rnd) c
  = news_of create_membrane c
    ++ news_of (create_nucleus rnd) c
    ++ news_of (create_rough_er rnd) (120 + c)
    ++ news_of (create_smooth_er rnd) (720 + c)
    ++ news_of (create_mitochondria rnd) (after_ser rnd c)
    ++ news_of (create_golgi rnd) (96 + after_ser rnd c)
    ++ news_of (create_lysosomes rnd) (128 + after_ser rnd c)
    ++ news_of create_centrosome (168 + after_ser rnd c)
    ++ news_of (create_free_ribosomes rnd) (168 + after_ser rnd c)
    ++ news_of (create_cytoskeleton rnd) (348 + after_ser rnd c)
    ++ news_of final_setup (456 + after_ser rnd c).
Proof.
  unfold generators.
  repeat match goal with
  | |- context [news_of (bind ?m (fun _ => ?r)) ?c'] =>
      rewrite (@news_of_seq _ _ m r c' ltac:(framed_seqs))
  end.
  rewrite (proj2 create_membrane_steps), (proj2 (create_nucleus_steps rnd)),
    (proj2 (create_rough_er_steps rnd)), create_smooth_er_cursor,
    (proj2 (create_mitochondria_steps rnd)), (proj2 (create_golgi_steps rnd)),
    (proj2 (create_lysosomes_steps rnd)), (proj2 create_centrosome_steps),
    (proj2 (create_free_ribosomes_steps rnd)), (proj2 (create_cytoskeleton_steps rnd)).
  replace (600 + (120 + (0 + c)))%nat with (720 + c)%nat by lia.
  replace (3 * length (ser_links (ser_nodes rnd (720 + c))) + (100 + (720 + c)))%nat
    with (after_ser rnd c) by (unfold after_ser; lia).
  replace (120 + (0 + c))%nat with (120 + c)%nat by lia.
  replace (0 + c)%nat with c by lia.
  replace (32 + (96 + after_ser rnd c))%nat with (128 + after_ser rnd c)%nat by lia.
  replace (40 + (128 + after_ser rnd c))%nat with (168 + after_ser rnd c)%nat by lia.
  replace (0 + (168 + after_ser rnd c))%nat with (168 + after_ser rnd c)%nat by lia.
  replace (180 + (168 + after_ser rnd c))%nat with (348 + after_ser rnd c)%nat by lia.
  replace (108 + (348 + after_ser rnd c))%nat with (456 + after_ser rnd c)%nat by lia.
  reflexivity.
Qed.

Lemma after_clear_scene w :
  objects (after clear_scene w) = [] /\ cursor (after clear_scene w) = cursor w.
Proof.
  rewrite (@after_pair _ clear_scene w tt _ eq_refl). split; reflexivity.
Qed.

Lemma after_materials l : forall w,
  objects (after (for_each l materials_new) w) = objects w
  /\ cursor (after (for_each l materials_new) w) = cursor w.
Proof.
  induction l as [|m l IH]; intros w.
  - rewrite (@after_pair _ (for_each [] materials_new) w tt w eq_refl). split; reflexivity.
  - cbn [for_each]. rewrite after_seq.
    destruct (IH (after (materials_new m) w)) as [-> ->].
    rewrite (@after_pair _ (materials_new m) w tt _ eq_refl). split; reflexivity.
Qed.

(** Whatever the scene held before, after the script it holds what the
    generators create from the current draw on. *)
Lemma generate_cell_objects w :
  objects (after (generate_cell rnd) w) = news_of (generators rnd) (cursor w).
Proof.
  unfold generate_cell. rewrite !after_seq.
  destruct (generators_framed (after (for_each all_materials materials_new)
                                     (after clear_scene w))) as [-> _].
  destruct (after_materials all_materials (after clear_scene w)) as [-> ->].
  destruct (after_clear_scene w) as [-> ->].
  apply app_nil_l.
Qed.

Lemma run_script_objects w :
  objects (run_script rnd w) = news_of (generators rnd) 0.
Proof. unfold run_script. now rewrite generate_cell_objects. Qed.

Lemma scene_census c :
  census (summaries (news_of (generators rnd) c))
  = [10; 5; 4; 3; 12; 5; 8; 10; 54; 60; 18; 25;
     length (ser_links (ser_nodes rnd (720 + c))); 100; 60; 36]%nat.
Proof.
  rewrite generators_news, !summaries_app, !census_app.
  rewrite create_membrane_census, create_nucleus_census, create_rough_er_census,
    create_smooth_er_census, create_mitochondria_census, create_golgi_census,
    create_lysosomes_census, create_centrosome_census, create_free_ribosomes_census,
    create_cytoskeleton_census, final_setup_census.
  generalize (length (ser_links (ser_nodes rnd (720 + c)))). intros n.
  cbv [vplus only census_keys length seq map Nat.eqb].
  repeat (f_equal; try lia).
Qed.

Lemma scene_materials c : ok_materials (summaries (news_of (generators rnd) c)).
Proof.
  rewrite generators_news, !summaries_app. ok_apps.
  - apply create_membrane_materials.
  - apply create_nucleus_materials.
  - apply create_rough_er_materials.
  - apply create_smooth_er_materials.
  - apply create_mitochondria_materials.
  - apply create_golgi_materials.
  - apply create_lysosomes_materials.
  - apply create_centrosome_materials.
  - apply create_free_ribosomes_materials.
  - apply create_cytoskeleton_materials.
  - apply final_setup_materials.
Qed.

End Scene.

(* ================================================================== *)
(** ** Geometry of the samplers *)
(* ================================================================== *)

Lemma vlength_nonneg p : 0 <= vlength p.
Proof. apply sqrt_pos. Qed.

Lemma vlength_vzero : vlength vzero = 0.
Proof.
  unfold vlength, vzero; cbn [vx vy vz].
  replace (0 * 0 + 0 * 0 + 0 * 0) with 0 by ring. apply sqrt_0.
Qed.

Lemma vlength_sq p : vlength p * vlength p = vx p * vx p + vy p * vy p + vz p * vz p.
Proof. unfold vlength. apply sqrt_sqrt. nra. Qed.

Lemma vlength_zero_iff p : vlength p = 0 <-> p = vzero.
Proof.
  split.
  - intros H. pose proof (vlength_sq p) as Hs. rewrite H in Hs.
    destruct p as [x y z]; cbn [vx vy vz] in Hs. unfold vzero.
    assert (x = 0) by nra. assert (y = 0) by nra. assert (z = 0) by nra.
    now subst.
  - intros ->. apply vlength_vzero.
Qed.

Lemma vlength_vscale p k : 0 <= k -> vlength (vscale p k) = vlength p * k.
Proof.
  intros Hk. unfold vlength, vscale; cbn [vx vy vz].
  replace (vx p * k * (vx p * k) + vy p * k * (vy p * k) + vz p * k * (vz p * k))
    with ((vx p * vx p + vy p * vy p + vz p * vz p) * (k * k)) by ring.
  rewrite sqrt_mult_alt by nra. now rewrite sqrt_square.
Qed.

Lemma vlength_le p r :
  0 <= r -> vx p * vx p + vy p * vy p + vz p * vz p <= r * r -> vlength p <= r.
Proof.
  intros Hr H. unfold vlength. rewrite <- (sqrt_square r) by assumption.
  now apply sqrt_le_1_alt.
Qed.

(** *** [x ** y] *)

Lemma fpow_zero y : fpow 0 y = 0.
Proof. unfold fpow. destruct (Rle_dec 0 0); [ reflexivity | lra ]. Qed.

Lemma fpow_unit x y : 0 <= x < 1 -> 0 < y -> 0 <= fpow x y < 1.
Proof.
  intros [H0 H1] Hy. unfold fpow. destruct (Rle_dec x 0) as [Hle|Hgt]; [ lra | ].
  assert (Hx : 0 < x) by lra. unfold Rpower. split.
  - left. apply exp_pos.
  - rewrite <- exp_0. apply exp_increasing.
    assert (ln x < 0) by (rewrite <- ln_1; apply ln_increasing; lra).
    nra.
Qed.

(** *** [random_point_in_sphere] *)

Lemma point_in_sphere_eq rnd radius c :
  point_in_sphere rnd radius c
  = let theta := 2 * PI * rnd c in
    let phi := acos (2 * rnd (1 + c)%nat - 1) in
    let r := radius * fpow (rnd (2 + c)%nat) (1 / 3) in
    vec (r * sin phi * cos theta) (r * sin phi * sin theta) (r * cos phi).
Proof. reflexivity. Qed.

Lemma random_point_in_sphere_eval rnd radius w :
  eval (random_point_in_sphere rnd radius) w = point_in_sphere rnd radius (cursor w).
Proof. destruct w. reflexivity. Qed.

Lemma spherical_length r phi theta :
  0 <= r ->
  vlength (vec (r * sin phi * cos theta) (r * sin phi * sin theta) (r * cos phi)) = r.
Proof.
  intros Hr. unfold vlength; cbn [vx vy vz].
  replace (r * sin phi * cos theta * (r * sin phi * cos theta)
           + r * sin phi * sin theta * (r * sin phi * sin theta)
           + r * cos phi * (r * cos phi))
    with (r * r * ((sin phi)² * ((sin theta)² + (cos theta)²) + (cos phi)²))
    by (unfold Rsqr; ring).
  rewrite sin2_cos2, Rmult_1_r, sin2_cos2, Rmult_1_r. now apply sqrt_square.
Qed.

Lemma point_in_sphere_length rnd radius c :
  valid_draws rnd -> 0 < radius ->
  vlength (point_in_sphere rnd radius c) = radius * fpow (rnd (2 + c)%nat) (1 / 3).
Proof.
  intros Hv Hr. rewrite point_in_sphere_eq. cbv zeta.
  apply spherical_length.
  assert (Hy : 0 < 1 / 3) by lra.
  pose proof (@fpow_unit _ _ (Hv (2 + c)%nat) Hy) as H. nra.
Qed.

Lemma point_in_sphere_origin rnd radius c :
  rnd (2 + c)%nat = 0 -> point_in_sphere rnd radius c = vzero.
Proof.
  intros H. rewrite point_in_sphere_eq. cbv zeta. rewrite H, fpow_zero.
  unfold vzero. f_equal; ring.
Qed.

(** *** The push-out *)

Lemma normalized_vzero : normalized vzero = vzero.
Proof.
  unfold normalized. destruct (Req_dec_T (vlength vzero) 0) as [_|H]; [ reflexivity | ].
  now destruct H; apply vlength_vzero.
Qed.

Lemma push_out_far threshold min_radius p :
  threshold <= vlength p -> push_out threshold min_radius p = p.
Proof. intros H. unfold push_out. destruct (Rlt_dec (vlength p) threshold); [ lra | auto ]. Qed.

Lemma push_out_origin threshold min_radius :
  0 < threshold -> push_out threshold min_radius vzero = vzero.
Proof.
  intros H. unfold push_out. rewrite vlength_vzero.
  destruct (Rlt_dec 0 threshold); [ | lra ].
  rewrite normalized_vzero. unfold vscale, vzero; cbn [vx vy vz]. f_equal; ring.
Qed.

Lemma push_out_near threshold min_radius p :
  p <> vzero -> vlength p < threshold -> 0 <= min_radius ->
  push_out threshold min_radius p = vscale p (min_radius / vlength p)
  /\ vlength (push_out threshold min_radius p) = min_radius.
Proof.
  intros Hp Hlt Hr.
  assert (Hn : vlength p <> 0) by (intros H; apply Hp; now apply vlength_zero_iff).
  assert (Hpos : 0 < vlength p) by (pose proof (vlength_nonneg p); lra).
  assert (E : push_out threshold min_radius p = vscale p (min_radius / vlength p)).
  { unfold push_out. destruct (Rlt_dec (vlength p) threshold); [ | lra ].
    unfold normalized. destruct (Req_dec_T (vlength p) 0); [ contradiction | ].
    unfold vscale, vdiv; cbn [vx vy vz]. f_equal; field; assumption. }
  split; [ exact E | ].
  rewrite E, vlength_vscale.
  - field; assumption.
  - apply Rmult_le_pos; [ assumption | left; now apply Rinv_0_lt_compat ].
Qed.

(** *** [uniform] and [choice] *)

Lemma uniform_at_eq rnd a b c : uniform_at rnd a b c = a + (b - a) * rnd c.
Proof. reflexivity. Qed.

Lemma uniform_at_range rnd a b c :
  valid_draws rnd -> a <= b -> a <= uniform_at rnd a b c <= b.
Proof. intros Hv Hab. rewrite uniform_at_eq. pose proof (Hv c). nra. Qed.

Lemma choice_at_sign rnd c :
  choice_at rnd [-1; 1] c = (if Rle_dec 1 (rnd c * 2) then 1 else -1).
Proof.
  change (choice_at rnd [-1; 1] c)
    with (nth (nfloor (rnd c * INR 2) 1) [-1; 1] 0).
  cbn [nfloor]. change (INR 2) with 2. change (INR 1) with 1.
  destruct (Rle_dec 1 (rnd c * 2)); reflexivity.
Qed.

(** *** Smooth-ER nodes *)

Lemma ser_node_in_slab rnd c : valid_draws rnd -> in_slab (ser_node_at rnd c).
Proof.
  intros Hv. unfold in_slab, ser_node_at. cbv zeta. cbn [vx vy vz].
  pose proof (Hv c) as H0. pose proof (Hv (1 + c)%nat) as H1.
  pose proof (Hv (2 + c)%nat) as H2. pose proof (Hv (3 + c)%nat) as H3.
  set (r := 1.9 + rnd (2 + c)%nat * 0.5).
  set (phi := rnd (1 + c)%nat * PI). set (theta := rnd c * 2 * PI).
  set (y := (rnd (3 + c)%nat - 0.5) * 1.4).
  assert (Hr : 1.9 <= r < 2.4) by (unfold r; lra).
  assert (Hy : -0.7 <= y <= 0.7) by (unfold y; lra).
  assert (Hh : r * sin phi * cos theta * (r * sin phi * cos theta)
               + r * sin phi * sin theta * (r * sin phi * sin theta)
               = r * r * (sin phi)²).
  { transitivity (r * r * (sin phi)² * ((sin theta)² + (cos theta)²));
      [ unfold Rsqr; ring | rewrite sin2_cos2; ring ]. }
  assert (Hs : 0 <= (sin phi)² <= 1).
  { split; [ apply Rle_0_sqr | ]. pose proof (sin2_cos2 phi). pose proof (Rle_0_sqr (cos phi)).
    lra. }
  assert (Hxz : r * sin phi * cos theta * (r * sin phi * cos theta)
                + r * sin phi * sin theta * (r * sin phi * sin theta) <= 2.4 * 2.4).
  { rewrite Hh. nra. }
  repeat split.
  - apply Rabs_le. lra.
  - exact Hxz.
  - apply vlength_le; [ lra | ]. cbn [vx vy vz]. nra.
Qed.

(* ================================================================== *)
(** ** The members of a group, generator by generator *)
(* ================================================================== *)

Lemma select_nil k : select k [] = [].
Proof. reflexivity. Qed.

Lemma select_cons_in k s ss :
  in_group (fst k) (snd k) s = true -> select k (s :: ss) = s :: select k ss.
Proof. intros H. unfold select. cbn [filter]. now rewrite H. Qed.

Lemma select_cons_out k s ss :
  in_group (fst k) (snd k) s = false -> select k (s :: ss) = select k ss.
Proof. intros H. unfold select. cbn [filter]. now rewrite H. Qed.

(** Selects from a list whose names and collections are explicit. *)
Ltac select_list :=
  repeat first [ rewrite select_cons_in by (lazy; reflexivity)
               | rewrite select_cons_out by (lazy; reflexivity) ];
  rewrite ?select_nil.

Section LoopMembers.
Variables (A : Type) (body : A -> M unit).
Hypothesis body_framed : forall x, framed (body x).

(** A property of the group's members in every iteration holds of the
    group's members in the loop. *)
Lemma loop_select k (P : Summary -> Prop) l :
  (forall x c, In x l -> Forall P (select k (summaries (news_of (body x) c)))) ->
  forall c, Forall P (select k (summaries (news_of (for_each l body) c))).
Proof.
  induction l as [|x l IH]; intros H c.
  - change (news_of (for_each [] body) c) with (@nil Obj). constructor.
  - rewrite news_of_for_each_cons, summaries_app, select_app by assumption.
    apply Forall_app. split.
    + apply H. now left.
    + apply IH. intros y c' Hy. apply H. now right.
Qed.

(** A loop whose body creates one object, the same whatever the draw. *)
Lemma loop_map (g : A -> Summary) l :
  (forall x c, map summary (news_of (body x) c) = [g x]) ->
  forall c, summaries (news_of (for_each l body) c) = map g l.
Proof.
  intros H. induction l as [|x l IH]; intros c.
  - reflexivity.
  - rewrite news_of_for_each_cons, summaries_app, IH by assumption.
    unfold summaries. now rewrite H.
Qed.
End LoopMembers.

Lemma select_all k ss :
  Forall (fun s => in_group (fst k) (snd k) s = true) ss -> select k ss = ss.
Proof.
  induction 1 as [|s ss Hs _ IH]; [ reflexivity | ].
  now rewrite select_cons_in, IH.
Qed.

(** Drops from a selection the generators that have no member of group
    number [idx]. *)
Ltac vanish C idx := rewrite (@census_zero_select _ _ idx _ C eq_refl eq_refl).

Section Members.
Variable rnd : nat -> R.

(** *** Where each group of the scene comes from *)

Ltac scene_parts := rewrite generators_news, !summaries_app, !select_app.

Lemma scene_mitochondria c :
  select ("Mitochondria", "Mitochondrion_") (summaries (news_of (generators rnd) c))
  = select ("Mitochondria", "Mitochondrion_")
      (summaries (news_of (create_mitochondria rnd) (after_ser rnd c))).
Proof.
  scene_parts.
  vanish (create_membrane_census c) 4%nat. vanish (create_nucleus_census rnd c) 4%nat.
  vanish (create_rough_er_census rnd (120 + c)) 4%nat.
  vanish (create_smooth_er_census rnd (720 + c)) 4%nat.
  vanish (create_golgi_census rnd (96 + after_ser rnd c)) 4%nat.
  vanish (create_lysosomes_census rnd (128 + after_ser rnd c)) 4%nat.
  vanish (create_centrosome_census (168 + after_ser rnd c)) 4%nat.
  vanish (create_free_ribosomes_census rnd (168 + after_ser rnd c)) 4%nat.
  vanish (create_cytoskeleton_census rnd (348 + after_ser rnd c)) 4%nat.
  vanish (final_setup_census (456 + after_ser rnd c)) 4%nat.
  rewrite !app_nil_l, !app_nil_r. reflexivity.
Qed.

Lemma scene_lysosomes c :
  select ("Lysosomes", "Lysosome_") (summaries (news_of (generators rnd) c))
  = select ("Lysosomes", "Lysosome_")
      (summaries (news_of (create_lysosomes rnd) (128 + after_ser rnd c))).
Proof.
  scene_parts.
  vanish (create_membrane_census c) 7%nat. vanish (create_nucleus_census rnd c) 7%nat.
  vanish (create_rough_er_census rnd (120 + c)) 7%nat.
  vanish (create_smooth_er_census rnd (720 + c)) 7%nat.
  vanish (create_mitochondria_census rnd (after_ser rnd c)) 7%nat.
  vanish (create_golgi_census rnd (96 + after_ser rnd c)) 7%nat.
  vanish (create_centrosome_census (168 + after_ser rnd c)) 7%nat.
  vanish (create_free_ribosomes_census rnd (168 + after_ser rnd c)) 7%nat.
  vanish (create_cytoskeleton_census rnd (348 + after_ser rnd c)) 7%nat.
  vanish (final_setup_census (456 + after_ser rnd c)) 7%nat.
  rewrite !app_nil_l, !app_nil_r. reflexivity.
Qed.

Lemma scene_free_ribosomes c :
  select ("FreeRibosomes", "FreeRibosome_") (summaries (news_of (generators rnd) c))
  = select ("FreeRibosomes", "FreeRibosome_")
      (summaries (news_of (create_free_ribosomes rnd) (168 + after_ser rnd c))).
Proof.
  scene_parts.
  vanish (create_membrane_census c) 9%nat. vanish (create_nucleus_census rnd c) 9%nat.
  vanish (create_rough_er_census rnd (120 + c)) 9%nat.
  vanish (create_smooth_er_census rnd (720 + c)) 9%nat.
  vanish (create_mitochondria_census rnd (after_ser rnd c)) 9%nat.
  vanish (create_golgi_census rnd (96 + after_ser rnd c)) 9%nat.
  vanish (create_lysosomes_census rnd (128 + after_ser rnd c)) 9%nat.
  vanish (create_centrosome_census (168 + after_ser rnd c)) 9%nat.
  vanish (create_cytoskeleton_census rnd (348 + after_ser rnd c)) 9%nat.
  vanish (final_setup_census (456 + after_ser rnd c)) 9%nat.
  rewrite !app_nil_l, !app_nil_r. reflexivity.
Qed.

Lemma scene_centrioles c :
  select ("Centrosome", "Centriole") (summaries (news_of (generators rnd) c))
  = select ("Centrosome", "Centriole")
      (summaries (news_of create_centrosome (168 + after_ser rnd c))).
Proof.
  scene_parts.
  vanish (create_membrane_census c) 8%nat. vanish (create_nucleus_census rnd c) 8%nat.
  vanish (create_rough_er_census rnd (120 + c)) 8%nat.
  vanish (create_smooth_er_census rnd (720 + c)) 8%nat.
  vanish (create_mitochondria_census rnd (after_ser rnd c)) 8%nat.
  vanish (create_golgi_census rnd (96 + after_ser rnd c)) 8%nat.
  vanish (create_lysosomes_census rnd (128 + after_ser rnd c)) 8%nat.
  vanish (create_free_ribosomes_census rnd (168 + after_ser rnd c)) 8%nat.
  vanish (create_cytoskeleton_census rnd (348 + after_ser rnd c)) 8%nat.
  vanish (final_setup_census (456 + after_ser rnd c)) 8%nat.
  rewrite !app_nil_l, !app_nil_r. reflexivity.
Qed.

(** The other generators have no member of a smooth-ER or rough-ER
    ribosome group. *)
Ltac only_from idx c :=
  scene_parts;
  vanish (create_membrane_census c) idx; vanish (create_nucleus_census rnd c) idx;
  vanish (create_mitochondria_census rnd (after_ser rnd c)) idx;
  vanish (create_golgi_census rnd (96 + after_ser rnd c)) idx;
  vanish (create_lysosomes_census rnd (128 + after_ser rnd c)) idx;
  vanish (create_centrosome_census (168 + after_ser rnd c)) idx;
  vanish (create_free_ribosomes_census rnd (168 + after_ser rnd c)) idx;
  vanish (create_cytoskeleton_census rnd (348 + after_ser rnd c)) idx;
  vanish (final_setup_census (456 + after_ser rnd c)) idx.

Lemma scene_junctions c :
  select ("SmoothER", "SERJunction_") (summaries (news_of (generators rnd) c))
  = select ("SmoothER", "SERJunction_")
      (summaries (news_of (create_smooth_er rnd) (720 + c))).
Proof.
  only_from 11%nat c. vanish (create_rough_er_census rnd (120 + c)) 11%nat.
  rewrite !app_nil_l, !app_nil_r. reflexivity.
Qed.

Lemma scene_tubes c :
  select ("SmoothER", "SERTube_") (summaries (news_of (generators rnd) c))
  = select ("SmoothER", "SERTube_")
      (summaries (news_of (create_smooth_er rnd) (720 + c))).
Proof.
  only_from 12%nat c. vanish (create_rough_er_census rnd (120 + c)) 12%nat.
  rewrite !app_nil_l, !app_nil_r. reflexivity.
Qed.

Lemma scene_ribosomes idx k c :
  (13 <= idx)%nat -> nth_error census_keys idx = Some k ->
  select k (summaries (news_of (generators rnd) c))
  = select k (summaries (news_of (create_rough_er rnd) (120 + c))).
Proof.
  intros Hidx Hk.
  assert (Hin : (idx < 16)%nat)
    by (apply (nth_error_Some census_keys idx); now rewrite Hk).
  assert (E : idx = 13%nat \/ idx = 14%nat \/ idx = 15%nat) by lia.
  destruct E as [-> | [-> | ->]]; injection Hk as <-.
  - only_from 13%nat c. vanish (create_smooth_er_census rnd (720 + c)) 13%nat.
    rewrite !app_nil_l, !app_nil_r. reflexivity.
  - only_from 14%nat c. vanish (create_smooth_er_census rnd (720 + c)) 14%nat.
    rewrite !app_nil_l, !app_nil_r. reflexivity.
  - only_from 15%nat c. vanish (create_smooth_er_census rnd (720 + c)) 15%nat.
    rewrite !app_nil_l, !app_nil_r. reflexivity.
Qed.

Lemma scene_cisternae idx k c :
  (1 <= idx <= 3)%nat -> nth_error census_keys idx = Some k ->
  select k (summaries (news_of (generators rnd) c))
  = select k (summaries (news_of (create_rough_er rnd) (120 + c))).
Proof.
  intros Hidx Hk.
  assert (E : idx = 1%nat \/ idx = 2%nat \/ idx = 3%nat) by lia.
  destruct E as [-> | [-> | ->]]; injection Hk as <-.
  - only_from 1%nat c. vanish (create_smooth_er_census rnd (720 + c)) 1%nat.
    rewrite !app_nil_l, !app_nil_r. reflexivity.
  - only_from 2%nat c. vanish (create_smooth_er_census rnd (720 + c)) 2%nat.
    rewrite !app_nil_l, !app_nil_r. reflexivity.
  - only_from 3%nat c. vanish (create_smooth_er_census rnd (720 + c)) 3%nat.
    rewrite !app_nil_l, !app_nil_r. reflexivity.
Qed.

End Members.

(* ================================================================== *)
(** ** Where the generators put their objects *)
(* ================================================================== *)

Section Placement.
Variable rnd : nat -> R.

(** *** The three scattering generators *)

Lemma mitochondrion_body_placed i h :
  Forall (placed rnd 1.4 1.7 2.2)
    (select ("Mitochondria", "Mitochondrion_")
       (summaries (news_of (mitochondrion_body rnd "Mitochondria" i) h))).
Proof.
  by_news (mitochondrion_body_news rnd i h). select_list.
  constructor; [ now exists h | constructor ].
Qed.

Lemma create_mitochondria_placed h :
  Forall (placed rnd 1.4 1.7 2.2)
    (select ("Mitochondria", "Mitochondrion_")
       (summaries (news_of (create_mitochondria rnd) h))).
Proof.
  rewrite create_mitochondria_news. apply loop_select; [ framed_hint | ].
  intros i c _. apply mitochondrion_body_placed.
Qed.

Lemma lysosome_body_placed i h :
  Forall (placed rnd 1.4 1.7 2.3)
    (select ("Lysosomes", "Lysosome_")
       (summaries (news_of (lysosome_body rnd "Lysosomes" i) h))).
Proof.
  by_news (lysosome_body_news rnd i h). select_list.
  constructor; [ now exists h | constructor ].
Qed.

Lemma create_lysosomes_placed h :
  Forall (placed rnd 1.4 1.7 2.3)
    (select ("Lysosomes", "Lysosome_") (summaries (news_of (create_lysosomes rnd) h))).
Proof.
  rewrite create_lysosomes_news. apply loop_select; [ framed_hint | ].
  intros i c _. apply lysosome_body_placed.
Qed.

Lemma free_ribosome_placed i h :
  Forall (placed rnd 1.3 1.5 2.5)
    (select ("FreeRibosomes", "FreeRibosome_")
       (summaries (news_of (free_ribosome rnd "FreeRibosomes" i) h))).
Proof.
  by_news (free_ribosome_news rnd i h). select_list.
  constructor; [ now exists h | constructor ].
Qed.

Lemma create_free_ribosomes_placed h :
  Forall (placed rnd 1.3 1.5 2.5)
    (select ("FreeRibosomes", "FreeRibosome_")
       (summaries (news_of (create_free_ribosomes rnd) h))).
Proof.
  rewrite create_free_ribosomes_news. apply loop_select; [ framed_hint | ].
  intros i c _. apply free_ribosome_placed.
Qed.

Lemma scene_scattered c :
  let ss := summaries (news_of (generators rnd) c) in
  Forall (placed rnd 1.4 1.7 2.2) (select ("Mitochondria", "Mitochondrion_") ss)
  /\ Forall (placed rnd 1.4 1.7 2.3) (select ("Lysosomes", "Lysosome_") ss)
  /\ Forall (placed rnd 1.3 1.5 2.5) (select ("FreeRibosomes", "FreeRibosome_") ss).
Proof.
  cbv zeta. rewrite scene_mitochondria, scene_lysosomes, scene_free_ribosomes.
  split; [ apply create_mitochondria_placed | ].
  split; [ apply create_lysosomes_placed | apply create_free_ribosomes_placed ].
Qed.

(** *** Ribosomes on the rough ER *)

Lemma beside_sheet_draws loc dx dy lx ly a b c :
  valid_draws rnd -> 0 <= dx -> 0 <= dy -> lx = - dx -> ly = - dy ->
  beside_sheet loc dx dy
    (vec (vx loc + uniform_at rnd lx dx a) (vy loc + uniform_at rnd ly dy b)
         (vz loc + 0.025 * choice_at rnd [-1; 1] c)).
Proof.
  intros Hv Hx Hy -> ->. unfold beside_sheet. cbn [vx vy vz].
  assert (Ha : - dx <= uniform_at rnd (- dx) dx a <= dx)
    by (apply uniform_at_range; [ assumption | lra ]).
  assert (Hb : - dy <= uniform_at rnd (- dy) dy b <= dy)
    by (apply uniform_at_range; [ assumption | lra ]).
  repeat split.
  - apply Rabs_le. lra.
  - apply Rabs_le. lra.
  - rewrite choice_at_sign. destruct (Rle_dec 1 (rnd c * 2)); [ left | right ]; lra.
Qed.

Hypothesis rnd_valid : valid_draws rnd.

Lemma stack1_ribosome_beside i r h :
  Forall (fun s => first_index s = Some i
                   /\ beside_sheet (stack1_loc i) 0.4 0.25 (s_location s))
    (select ("RoughER", "Ribosome_S1C")
       (summaries (news_of (stack1_ribosome rnd "RoughER" i (stack1_loc i) r) h))).
Proof.
  by_news (stack1_ribosome_news rnd i (stack1_loc i) r h). select_list.
  constructor; [ | constructor ]. split; [ reflexivity | ]. cbn [s_location].
  apply beside_sheet_draws; [ assumption | lra .. ].
Qed.

Lemma stack2_ribosome_beside i r h :
  Forall (fun s => first_index s = Some i
                   /\ beside_sheet (stack2_loc i) 0.35 0.22 (s_location s))
    (select ("RoughER", "Ribosome_S2C")
       (summaries (news_of (stack2_ribosome rnd "RoughER" i (stack2_loc i) r) h))).
Proof.
  by_news (stack2_ribosome_news rnd i (stack2_loc i) r h). select_list.
  constructor; [ | constructor ]. split; [ reflexivity | ]. cbn [s_location].
  apply beside_sheet_draws; [ assumption | lra .. ].
Qed.

Lemma stack3_ribosome_beside i r h :
  Forall (fun s => first_index s = Some i
                   /\ beside_sheet (stack3_loc i) 0.3 0.2 (s_location s))
    (select ("RoughER", "Ribosome_S3C")
       (summaries (news_of (stack3_ribosome rnd "RoughER" i (stack3_loc i) r) h))).
Proof.
  by_news (stack3_ribosome_news rnd i (stack3_loc i) r h). select_list.
  constructor; [ | constructor ]. split; [ reflexivity | ]. cbn [s_location].
  apply beside_sheet_draws; [ assumption | lra .. ].
Qed.

Lemma stack1_cisterna_beside i h :
  (i < 5)%nat ->
  Forall (beside_stack stack1_loc 5 0.4 0.25)
    (select ("RoughER", "Ribosome_S1C")
       (summaries (news_of (stack1_cisterna rnd "RoughER" i) h))).
Proof.
  intros Hi. destruct (stack1_cisterna_news rnd i h) as (o & -> & E).
  rewrite summaries_cons, E. select_list.
  apply loop_select; [ framed_hint | ]. intros r c _.
  eapply Forall_impl; [ | apply stack1_ribosome_beside ].
  intros s [Hn Hs]. exists i. auto.
Qed.

Lemma stack2_cisterna_beside i h :
  (i < 4)%nat ->
  Forall (beside_stack stack2_loc 4 0.35 0.22)
    (select ("RoughER", "Ribosome_S2C")
       (summaries (news_of (stack2_cisterna rnd "RoughER" i) h))).
Proof.
  intros Hi. destruct (stack2_cisterna_news rnd i h) as (o & -> & E).
  rewrite summaries_cons, E. select_list.
  apply loop_select; [ framed_hint | ]. intros r c _.
  eapply Forall_impl; [ | apply stack2_ribosome_beside ].
  intros s [Hn Hs]. exists i. auto.
Qed.

Lemma stack3_cisterna_beside i h :
  (i < 3)%nat ->
  Forall (beside_stack stack3_loc 3 0.3 0.2)
    (select ("RoughER", "Ribosome_S3C")
       (summaries (news_of (stack3_cisterna rnd "RoughER" i) h))).
Proof.
  intros Hi. destruct (stack3_cisterna_news rnd i h) as (o & -> & E).
  rewrite summaries_cons, E. select_list.
  apply loop_select; [ framed_hint | ]. intros r c _.
  eapply Forall_impl; [ | apply stack3_ribosome_beside ].
  intros s [Hn Hs]. exists i. auto.
Qed.

Lemma stack1_cisterna_sheet i h :
  (i < 5)%nat ->
  Forall (sheet_at stack1_loc 5)
    (select ("RoughER", "RER_Stack1_Cisterna")
       (summaries (news_of (stack1_cisterna rnd "RoughER" i) h))).
Proof.
  intros Hi. destruct (stack1_cisterna_news rnd i h) as (o & -> & E).
  rewrite summaries_cons, E. select_list.
  constructor; [ exists i; repeat split; assumption | ].
  apply loop_select; [ framed_hint | ]. intros r c _.
  vanish (stack1_ribosome_census rnd i (stack1_loc i) r c) 1%nat. constructor.
Qed.

Lemma stack2_cisterna_sheet i h :
  (i < 4)%nat ->
  Forall (sheet_at stack2_loc 4)
    (select ("RoughER", "RER_Stack2_Cisterna")
       (summaries (news_of (stack2_cisterna rnd "RoughER" i) h))).
Proof.
  intros Hi. destruct (stack2_cisterna_news rnd i h) as (o & -> & E).
  rewrite summaries_cons, E. select_list.
  constructor; [ exists i; repeat split; assumption | ].
  apply loop_select; [ framed_hint | ]. intros r c _.
  vanish (stack2_ribosome_census rnd i (stack2_loc i) r c) 2%nat. constructor.
Qed.

Lemma stack3_cisterna_sheet i h :
  (i < 3)%nat ->
  Forall (sheet_at stack3_loc 3)
    (select ("RoughER", "RER_Stack3_Cisterna")
       (summaries (news_of (stack3_cisterna rnd "RoughER" i) h))).
Proof.
  intros Hi. destruct (stack3_cisterna_news rnd i h) as (o & -> & E).
  rewrite summaries_cons, E. select_list.
  constructor; [ exists i; repeat split; assumption | ].
  apply loop_select; [ framed_hint | ]. intros r c _.
  vanish (stack3_ribosome_census rnd i (stack3_loc i) r c) 3%nat. constructor.
Qed.

Lemma in_range i n : In i (range n) -> (i < n)%nat.
Proof. unfold range. rewrite in_seq. lia. Qed.

Lemma Forall_app_intro (T : Type) (P : T -> Prop) l m :
  Forall P l -> Forall P m -> Forall P (l ++ m).
Proof. intros H1 H2. apply Forall_app. now split. Qed.

Ltac forall_apps :=
  repeat lazymatch goal with
         | |- Forall _ (_ ++ _) => apply Forall_app_intro
         end.

Ltac no_members L idx :=
  apply loop_select; [ framed_hint | ];
  let x := fresh "x" in
  let c := fresh "c" in
  intros x c _; vanish (L x c) idx; constructor.

Lemma create_rough_er_beside h :
  let ss := summaries (news_of (create_rough_er rnd) h) in
  Forall (beside_stack stack1_loc 5 0.4 0.25) (select ("RoughER", "Ribosome_S1C") ss)
  /\ Forall (beside_stack stack2_loc 4 0.35 0.22) (select ("RoughER", "Ribosome_S2C") ss)
  /\ Forall (beside_stack stack3_loc 3 0.3 0.2) (select ("RoughER", "Ribosome_S3C") ss).
Proof.
  cbv zeta. rewrite create_rough_er_news, !summaries_app, !select_app.
  split; [ | split ]; forall_apps.
  - apply loop_select; [ framed_hint | ]. intros i c Hi.
    apply stack1_cisterna_beside. now apply in_range.
  - no_members (stack2_cisterna_census rnd) 13%nat.
  - no_members (stack3_cisterna_census rnd) 13%nat.
  - no_members (stack1_cisterna_census rnd) 14%nat.
  - apply loop_select; [ framed_hint | ]. intros i c Hi.
    apply stack2_cisterna_beside. now apply in_range.
  - no_members (stack3_cisterna_census rnd) 14%nat.
  - no_members (stack1_cisterna_census rnd) 15%nat.
  - no_members (stack2_cisterna_census rnd) 15%nat.
  - apply loop_select; [ framed_hint | ]. intros i c Hi.
    apply stack3_cisterna_beside. now apply in_range.
Qed.

Lemma scene_ribosomes_beside c :
  let ss := summaries (news_of (generators rnd) c) in
  Forall (beside_stack stack1_loc 5 0.4 0.25) (select ("RoughER", "Ribosome_S1C") ss)
  /\ Forall (beside_stack stack2_loc 4 0.35 0.22) (select ("RoughER", "Ribosome_S2C") ss)
  /\ Forall (beside_stack stack3_loc 3 0.3 0.2) (select ("RoughER", "Ribosome_S3C") ss).
Proof.
  cbv zeta.
  rewrite (@scene_ribosomes rnd 13 _ c ltac:(lia) eq_refl),
    (@scene_ribosomes rnd 14 _ c ltac:(lia) eq_refl),
    (@scene_ribosomes rnd 15 _ c ltac:(lia) eq_refl).
  apply create_rough_er_beside.
Qed.

Lemma create_rough_er_sheets h :
  let ss := summaries (news_of (create_rough_er rnd) h) in
  Forall (sheet_at stack1_loc 5) (select ("RoughER", "RER_Stack1_Cisterna") ss)
  /\ Forall (sheet_at stack2_loc 4) (select ("RoughER", "RER_Stack2_Cisterna") ss)
  /\ Forall (sheet_at stack3_loc 3) (select ("RoughER", "RER_Stack3_Cisterna") ss).
Proof.
  cbv zeta. rewrite create_rough_er_news, !summaries_app, !select_app.
  split; [ | split ]; forall_apps.
  - apply loop_select; [ framed_hint | ]. intros i c Hi.
    apply stack1_cisterna_sheet. now apply in_range.
  - no_members (stack2_cisterna_census rnd) 1%nat.
  - no_members (stack3_cisterna_census rnd) 1%nat.
  - no_members (stack1_cisterna_census rnd) 2%nat.
  - apply loop_select; [ framed_hint | ]. intros i c Hi.
    apply stack2_cisterna_sheet. now apply in_range.
  - no_members (stack3_cisterna_census rnd) 2%nat.
  - no_members (stack1_cisterna_census rnd) 3%nat.
  - no_members (stack2_cisterna_census rnd) 3%nat.
  - apply loop_select; [ framed_hint | ]. intros i c Hi.
    apply stack3_cisterna_sheet. now apply in_range.
Qed.

Lemma scene_sheets c :
  let ss := summaries (news_of (generators rnd) c) in
  Forall (sheet_at stack1_loc 5) (select ("RoughER", "RER_Stack1_Cisterna") ss)
  /\ Forall (sheet_at stack2_loc 4) (select ("RoughER", "RER_Stack2_Cisterna") ss)
  /\ Forall (sheet_at stack3_loc 3) (select ("RoughER", "RER_Stack3_Cisterna") ss).
Proof.
  cbv zeta.
  rewrite (@scene_cisternae rnd 1 _ c ltac:(lia) eq_refl),
    (@scene_cisternae rnd 2 _ c ltac:(lia) eq_refl),
    (@scene_cisternae rnd 3 _ c ltac:(lia) eq_refl).
  apply create_rough_er_sheets.
Qed.

End Placement.

(* ================================================================== *)
(** ** The centrosome and the smooth-ER network in the scene *)
(* ================================================================== *)

Section LoopLists.
Variables (A : Type) (body : A -> M unit).
Hypothesis body_framed : forall x, framed (body x).

(** A loop whose iterations leave the same objects whatever the draw. *)
Lemma loop_flat_map (g : A -> list Summary) l :
  (forall x c, summaries (news_of (body x) c) = g x) ->
  forall c, summaries (news_of (for_each l body) c) = flat_map g l.
Proof.
  intros H. induction l as [|x l IH]; intros c.
  - reflexivity.
  - rewrite news_of_for_each_cons, summaries_app, IH, H by assumption. reflexivity.
Qed.
End LoopLists.

Lemma filter_all (T : Type) (f : T -> bool) l :
  Forall (fun x => f x = true) l -> filter f l = l.
Proof.
  induction 1 as [|x l Hx _ IH]; [ reflexivity | ].
  cbn [filter]. now rewrite Hx, IH.
Qed.

Lemma filter_none (T : Type) (f : T -> bool) l :
  Forall (fun x => f x = false) l -> filter f l = [].
Proof.
  induction 1 as [|x l Hx _ IH]; [ reflexivity | ].
  cbn [filter]. now rewrite Hx.
Qed.

(** *** Centrosome *)

Lemma centriole_tube_summaries c pos i angle t h :
  summaries (news_of (centriole_tube "Centrosome" c pos i angle t) h)
  = [centriole_tube_summary c pos i angle t].
Proof. apply centriole_tube_news. Qed.

Lemma centriole_triplet_summaries c pos i h :
  summaries (news_of (centriole_triplet "Centrosome" c pos i) h)
  = map (centriole_tube_summary c pos i (INR i / 9 * 2 * PI)) (range 3).
Proof.
  rewrite centriole_triplet_news.
  rewrite (@loop_flat_map _ (centriole_tube "Centrosome" c pos i (INR i / 9 * 2 * PI))
             ltac:(framed_hint)
             (fun t => [centriole_tube_summary c pos i (INR i / 9 * 2 * PI) t])).
  - reflexivity.
  - intros t h'. apply centriole_tube_summaries.
Qed.

Lemma centriole_summaries_news c h :
  summaries (news_of (centriole "Centrosome" c) h) = centriole_summaries c.
Proof.
  rewrite centriole_news. apply loop_flat_map; [ framed_hint | ].
  intros i h'. apply centriole_triplet_summaries.
Qed.

Lemma create_centrosome_summaries h :
  summaries (news_of create_centrosome h)
  = centriole_summaries 0 ++ centriole_summaries 1.
Proof.
  rewrite create_centrosome_news.
  rewrite (@loop_flat_map _ (centriole "Centrosome") ltac:(framed_hint)
             centriole_summaries).
  - cbn [range seq flat_map]. now rewrite app_nil_r.
  - intros c h'. apply centriole_summaries_news.
Qed.

(** What every tube of centriole [c] shows. *)
Lemma centriole_summaries_spec c :
  Forall (fun s =>
            in_group "Centrosome" "Centriole" s = true
            /\ first_index s = Some c
            /\ s_rotation s = (if Nat.eqb c 1 then vec (PI / 2) 0 0 else vzero)
            /\ vy (s_location s) = vy (centriole_pos c) + 0)
         (centriole_summaries c).
Proof.
  apply Forall_forall. intros s Hs. unfold centriole_summaries in Hs.
  apply in_flat_map in Hs. destruct Hs as (i & _ & Hs).
  apply in_map_iff in Hs. destruct Hs as (t & <- & _).
  repeat split; reflexivity.
Qed.

Lemma centriole_summaries_length c : length (centriole_summaries c) = 27%nat.
Proof. reflexivity. Qed.

Lemma centriole_summaries_index c d :
  filter (index_is d) (centriole_summaries c)
  = if Nat.eqb c d then centriole_summaries c else [].
Proof.
  destruct (Nat.eqb c d) eqn:E.
  - apply filter_all. eapply Forall_impl; [ | apply centriole_summaries_spec ].
    intros s (_ & Hi & _). unfold index_is. now rewrite Hi.
  - apply filter_none. eapply Forall_impl; [ | apply centriole_summaries_spec ].
    intros s (_ & Hi & _). unfold index_is. now rewrite Hi.
Qed.

Lemma centrosome_tubes rnd c :
  select ("Centrosome", "Centriole") (summaries (news_of (generators rnd) c))
  = centriole_summaries 0 ++ centriole_summaries 1.
Proof.
  rewrite scene_centrioles, create_centrosome_summaries.
  apply select_all. apply Forall_app_intro;
    (eapply Forall_impl; [ | apply centriole_summaries_spec ]); now intros s (H & _).
Qed.

(** *** The axes of the two centrioles *)

Lemma rotate_upright : rotate (vec 0 0 1) vzero = vec 0 0 1.
Proof.
  unfold rotate, rot_x, rot_y, rot_z, vzero; cbn [vx vy vz].
  rewrite cos_0, sin_0. f_equal; ring.
Qed.

Lemma rotate_quarter : rotate (vec 0 0 1) (vec (PI / 2) 0 0) = vec 0 (-1) 0.
Proof.
  unfold rotate, rot_x, rot_y, rot_z; cbn [vx vy vz].
  rewrite cos_0, sin_0, cos_PI2, sin_PI2. f_equal; ring.
Qed.

(* ================================================================== *)
(** ** The edges of the smooth-ER network *)
(* ================================================================== *)

(** *** The three nearest neighbours *)

Lemma insert_by_dist_In x a l : In x (insert_by_dist a l) -> x = a \/ In x l.
Proof.
  induction l as [|y l IH]; cbn [insert_by_dist].
  - intros [<- | []]. now left.
  - destruct (Rle_dec (snd a) (snd y)).
    + intros [<- | H]; [ now left | now right ].
    + intros [<- | H]; [ right; now left | ].
      destruct (IH H) as [-> | H']; [ now left | right; now right ].
Qed.

Lemma sort_by_dist_In x l : In x (sort_by_dist l) -> In x l.
Proof.
  induction l as [|a l IH]; cbn [sort_by_dist fold_right]; [ auto | ].
  intros H. apply insert_by_dist_In in H. destruct H as [-> | H].
  - now left.
  - right. now apply IH.
Qed.

Lemma firstn_incl (T : Type) n (l : list T) x : In x (firstn n l) -> In x l.
Proof.
  intros H. rewrite <- (firstn_skipn n l). apply in_or_app. now left.
Qed.

Lemma ser_nearest_spec nodes i node jd :
  In jd (ser_nearest nodes i node) ->
  fst jd <> i /\ (fst jd < length nodes)%nat
  /\ snd jd = vlength (vsub node (nth (fst jd) nodes vzero)).
Proof.
  unfold ser_nearest. intros H.
  apply firstn_incl, sort_by_dist_In, in_map_iff in H.
  destruct H as (j & <- & Hj). apply filter_In in Hj. destruct Hj as [Hj Hne].
  apply in_range in Hj. apply negb_true_iff, Nat.eqb_neq in Hne.
  cbn [fst snd]. auto.
Qed.

(** *** The set of connected pairs *)

Lemma pair_eqb_eq a b : pair_eqb a b = true <-> a = b.
Proof.
  unfold pair_eqb. destruct a as [a1 a2], b as [b1 b2]. cbn [fst snd].
  rewrite andb_true_iff, !Nat.eqb_eq. split.
  - intros [-> ->]. reflexivity.
  - intros E. injection E as -> ->. auto.
Qed.

Lemma set_mem_In k s : set_mem k s = true <-> In k s.
Proof.
  unfold set_mem. rewrite existsb_exists. split.
  - intros (x & Hx & E). apply pair_eqb_eq in E. now subst.
  - intros H. exists k. split; [ assumption | now apply pair_eqb_eq ].
Qed.

Lemma set_add_fresh k s : set_mem k s = false -> set_add k s = k :: s.
Proof. intros H. unfold set_add. now rewrite H. Qed.

Lemma ser_accepts_spec connected i jd :
  ser_accepts connected i jd = true ->
  snd jd < 1.2 /\ ~ In (ser_key i (fst jd)) connected.
Proof.
  unfold ser_accepts. destruct (Rlt_dec (snd jd) 1.2) as [Hlt|]; [ | discriminate ].
  intros H. apply negb_true_iff in H. split; [ assumption | ].
  intros Hin. apply set_mem_In in Hin. congruence.
Qed.

(** *** The tubes of one node, and of all *)

Section Links.
Variable nodes : list Vec.

Lemma ser_links_near_spec i near :
  (i < length nodes)%nat ->
  (forall jd, In jd near ->
     fst jd <> i /\ (fst jd < length nodes)%nat
     /\ snd jd = vlength (vsub (nth i nodes vzero) (nth (fst jd) nodes vzero))) ->
  forall connected,
    Forall (short_link nodes) (fst (ser_links_near i near connected))
    /\ snd (ser_links_near i near connected)
       = rev (map edge_key (fst (ser_links_near i near connected))) ++ connected
    /\ (NoDup connected -> NoDup (snd (ser_links_near i near connected))).
Proof.
  intros Hi. induction near as [|jd rest IH]; intros Hnear connected.
  - cbn [ser_links_near fst snd map rev app]. auto.
  - cbn [ser_links_near].
    assert (Hrest : forall jd', In jd' rest ->
              fst jd' <> i /\ (fst jd' < length nodes)%nat
              /\ snd jd' = vlength (vsub (nth i nodes vzero) (nth (fst jd') nodes vzero)))
      by (intros jd' H; apply Hnear; now right).
    destruct (ser_accepts connected i jd) eqn:Hacc; [ | now apply IH ].
    apply ser_accepts_spec in Hacc. destruct Hacc as [Hlt Hfresh].
    destruct (Hnear jd (or_introl eq_refl)) as (Hne & Hj & Hd).
    assert (Hadd : set_add (ser_key i (fst jd)) connected
                   = ser_key i (fst jd) :: connected).
    { apply set_add_fresh. destruct (set_mem (ser_key i (fst jd)) connected) eqn:E;
        [ | reflexivity ]. apply set_mem_In in E. contradiction. }
    rewrite Hadd.
    destruct (IH Hrest (ser_key i (fst jd) :: connected)) as (IH1 & IH2 & IH3).
    destruct (ser_links_near i rest (ser_key i (fst jd) :: connected)) as [tubes c'].
    cbn [fst snd] in *. repeat split.
    + constructor; [ | assumption ].
      unfold short_link. cbn [fst snd]. rewrite <- Hd. auto.
    + rewrite IH2. cbn [map rev]. unfold edge_key at 2. cbn [fst snd].
      now rewrite <- app_assoc.
    + intros Hnd. apply IH3. now constructor.
Qed.

Lemma ser_links_from_spec inodes :
  (forall inode, In inode inodes ->
     (fst inode < length nodes)%nat /\ snd inode = nth (fst inode) nodes vzero) ->
  forall connected,
    Forall (short_link nodes) (fst (ser_links_from nodes inodes connected))
    /\ snd (ser_links_from nodes inodes connected)
       = rev (map edge_key (fst (ser_links_from nodes inodes connected))) ++ connected
    /\ (NoDup connected -> NoDup (snd (ser_links_from nodes inodes connected))).
Proof.
  induction inodes as [|inode rest IH]; intros Hin connected.
  - cbn [ser_links_from fst snd map rev app]. auto.
  - cbn [ser_links_from].
    destruct (Hin inode (or_introl eq_refl)) as [Hi Hv].
    assert (Hn : forall jd, In jd (ser_nearest nodes (fst inode) (snd inode)) ->
              fst jd <> fst inode /\ (fst jd < length nodes)%nat
              /\ snd jd = vlength (vsub (nth (fst inode) nodes vzero)
                                        (nth (fst jd) nodes vzero))).
    { intros jd H. rewrite <- Hv. now apply ser_nearest_spec. }
    assert (Hnear := @ser_links_near_spec (fst inode) _ Hi Hn connected).
    destruct Hnear as (N1 & N2 & N3).
    destruct (ser_links_near (fst inode) (ser_nearest nodes (fst inode) (snd inode))
                connected) as [tubes c'].
    cbn [fst snd] in N1, N2, N3.
    destruct (IH (fun x H => Hin x (or_intror H)) c') as (IH1 & IH2 & IH3).
    destruct (ser_links_from nodes rest c') as [tubes' c''].
    cbn [fst snd] in *. repeat split.
    + now apply Forall_app_intro.
    + rewrite IH2, N2, map_app, rev_app_distr. now rewrite <- app_assoc.
    + auto.
Qed.
End Links.

Lemma enumerate_from_spec (T : Type) (d : T) l : forall s i v,
  In (i, v) (enumerate_from s l) ->
  (s <= i < s + length l)%nat /\ v = nth (i - s) l d.
Proof.
  induction l as [|x l IH]; intros s i v; cbn [enumerate_from length].
  - intros [].
  - intros [E | H].
    + injection E as <- <-. rewrite Nat.sub_diag. split; [ lia | reflexivity ].
    + apply IH in H. destruct H as [H ->]. split; [ lia | ].
      replace (i - s)%nat with (S (i - S s)) by lia. reflexivity.
Qed.

Lemma enumerate_spec (T : Type) (d : T) l i v :
  In (i, v) (enumerate l) -> (i < length l)%nat /\ v = nth i l d.
Proof.
  intros H. apply (enumerate_from_spec d) in H. rewrite Nat.sub_0_r in H.
  destruct H as [H ->]. split; [ lia | reflexivity ].
Qed.

(** Every edge joins two distinct nodes less than 1.2 apart, and no
    unordered pair is joined twice. *)
Lemma ser_links_spec nodes :
  Forall (short_link nodes) (ser_links nodes)
  /\ NoDup (map edge_key (ser_links nodes)).
Proof.
  unfold ser_links.
  destruct (@ser_links_from_spec nodes (enumerate nodes)) with (connected := @nil (nat * nat))
    as (H1 & H2 & H3).
  - intros [i v] H. now apply enumerate_spec.
  - split; [ assumption | ].
    specialize (H3 (NoDup_nil _)). rewrite H2, app_nil_r in H3.
    apply NoDup_rev in H3. now rewrite rev_involutive in H3.
Qed.

Lemma ser_nodes_length rnd c : length (ser_nodes rnd c) = 25%nat.
Proof. unfold ser_nodes. now rewrite length_map. Qed.

Lemma ser_nodes_nth rnd c i :
  (i < 25)%nat -> nth i (ser_nodes rnd c) vzero = ser_node_at rnd (4 * i + c).
Proof.
  intros Hi. unfold ser_nodes, range.
  rewrite (nth_indep _ vzero (ser_node_at rnd (4 * 0 + c)))
    by (rewrite length_map, length_seq; assumption).
  rewrite (map_nth (fun i => ser_node_at rnd (4 * i + c))), seq_nth by assumption.
  reflexivity.
Qed.

(* ================================================================== *)
(** ** The smooth-ER network in the scene *)
(* ================================================================== *)

Lemma junction_loop_summaries l c :
  summaries (news_of (for_each l (ser_junction "SmoothER")) c)
  = map ser_junction_summary l.
Proof.
  apply loop_map; [ framed_hint | ]. intros inode h. apply ser_junction_news.
Qed.

Lemma junctions_selected l :
  select ("SmoothER", "SERJunction_") (map ser_junction_summary l)
  = map ser_junction_summary l
  /\ select ("SmoothER", "SERTube_") (map ser_junction_summary l) = [].
Proof.
  induction l as [|x l [IH1 IH2]]; [ split; reflexivity | ].
  cbn [map]. rewrite select_cons_in, select_cons_out, IH1, IH2 by reflexivity.
  split; reflexivity.
Qed.

Lemma tubes_selected nodes links :
  select ("SmoothER", "SERTube_") (summaries (map (ser_tube nodes) links))
  = summaries (map (ser_tube nodes) links)
  /\ select ("SmoothER", "SERJunction_") (summaries (map (ser_tube nodes) links)) = [].
Proof.
  induction links as [|e links [IH1 IH2]]; [ split; reflexivity | ].
  cbn [map]. rewrite summaries_cons, select_cons_in, select_cons_out, IH1, IH2
    by reflexivity.
  split; reflexivity.
Qed.

Lemma tube_edges_tubes nodes links :
  filter_map tube_edge (summaries (map (ser_tube nodes) links)) = links.
Proof.
  induction links as [|[i j] links IH]; [ reflexivity | ].
  cbn [map]. rewrite summaries_cons. cbn [filter_map].
  change (tube_edge (summary (ser_tube nodes (i, j)))) with (Some (i, j)).
  now rewrite IH.
Qed.

Lemma ser_tube_points nodes e :
  s_points (summary (ser_tube nodes e))
  = [nth (fst e) nodes vzero; nth (snd e) nodes vzero].
Proof. reflexivity. Qed.

Lemma ser_tube_edge nodes e : tube_edge (summary (ser_tube nodes e)) = Some e.
Proof. destruct e. reflexivity. Qed.

(** The junction with index [i] among the spheres of a node list. *)
Lemma junction_lookup l : forall s i,
  (s <= i)%nat ->
  match filter (index_is i) (map ser_junction_summary (enumerate_from s l)) with
  | x :: _ => s_location x
  | [] => vzero
  end = nth (i - s) l vzero.
Proof.
  induction l as [|v l IH]; intros s i Hs.
  - cbn [enumerate_from map filter]. now destruct (i - s)%nat.
  - cbn [enumerate_from map filter].
    change (index_is i (ser_junction_summary (s, v))) with (Nat.eqb s i).
    destruct (Nat.eqb s i) eqn:E.
    + apply Nat.eqb_eq in E. subst. now rewrite Nat.sub_diag.
    + apply Nat.eqb_neq in E. rewrite IH by lia.
      replace (i - s)%nat with (S (i - S s)) by lia. reflexivity.
Qed.

Section Network.
Variable rnd : nat -> R.

Lemma smooth_er_members h :
  let nodes := ser_nodes rnd h in
  let ss := summaries (news_of (create_smooth_er rnd) h) in
  select ("SmoothER", "SERTube_") ss = summaries (map (ser_tube nodes) (ser_links nodes))
  /\ select ("SmoothER", "SERJunction_") ss = map ser_junction_summary (enumerate nodes).
Proof.
  cbv zeta. rewrite create_smooth_er_news, summaries_app, !select_app.
  rewrite junction_loop_summaries.
  destruct (junctions_selected (enumerate (ser_nodes rnd h))) as [-> ->].
  destruct (tubes_selected (ser_nodes rnd h) (ser_links (ser_nodes rnd h))) as [-> ->].
  now rewrite app_nil_r, app_nil_l.
Qed.

Lemma scene_network c :
  let nodes := ser_nodes rnd (720 + c) in
  let ss := summaries (news_of (generators rnd) c) in
  select ("SmoothER", "SERTube_") ss = summaries (map (ser_tube nodes) (ser_links nodes))
  /\ select ("SmoothER", "SERJunction_") ss = map ser_junction_summary (enumerate nodes).
Proof. cbv zeta. rewrite scene_tubes, scene_junctions. apply smooth_er_members. Qed.

Lemma scene_tube_edges c :
  tube_edges (summaries (news_of (generators rnd) c))
  = ser_links (ser_nodes rnd (720 + c)).
Proof.
  unfold tube_edges. destruct (scene_network c) as [-> _]. apply tube_edges_tubes.
Qed.

Lemma scene_junction_location c i :
  junction_location (summaries (news_of (generators rnd) c)) i
  = nth i (ser_nodes rnd (720 + c)) vzero.
Proof.
  unfold junction_location. destruct (scene_network c) as [_ ->].
  transitivity (nth (i - 0) (ser_nodes rnd (720 + c)) vzero).
  - apply (@junction_lookup _ 0%nat i). lia.
  - now rewrite Nat.sub_0_r.
Qed.

End Network.

(* ================================================================== *)
(** ** The scene *)
(* ================================================================== *)

Lemma scene_eq rnd w : scene rnd w = summaries (news_of (generators rnd) (cursor w)).
Proof. unfold scene. now rewrite generate_cell_objects. Qed.

Lemma scene_count rnd c idx k :
  nth_error census_keys idx = Some k ->
  length (select k (summaries (news_of (generators rnd) c)))
  = nth idx [10; 5; 4; 3; 12; 5; 8; 10; 54; 60; 18; 25;
             length (ser_links (ser_nodes rnd (720 + c))); 100; 60; 36]%nat 0%nat.
Proof. intros Hk. apply (@census_count _ _ idx k (scene_census rnd c) Hk). Qed.

Lemma nth_error_range i n : (i < n)%nat -> nth_error (range n) i = Some i.
Proof.
  intros H. unfold range. rewrite (nth_error_nth' _ 0%nat) by now rewrite length_seq.
  now rewrite seq_nth.
Qed.

(** *** Any ribosome of the first stack is in the scene *)

Lemma stack1_ribosome_present rnd c i r :
  (i < 5)%nat -> (r < 20)%nat ->
  let h := (r * 3 + (1 + (i * 61 + (120 + c))))%nat in
  In (mkSummary [Lit "Ribosome_S1C"; Num i; Lit "_"; Num r] KMesh ["RoughER"]
        [mat_ribosome]
        (vec (vx (stack1_loc i) + uniform_at rnd (-0.4) 0.4 h)
             (vy (stack1_loc i) + uniform_at rnd (-0.25) 0.25 (1 + h))
             (vz (stack1_loc i) + 0.025 * choice_at rnd [-1; 1] (2 + h)))
        vzero [])
     (summaries (news_of (generators rnd) c)).
Proof.
  intros Hi Hr h.
  assert (H1 : incl (news_of (stack1_cisterna rnd "RoughER" i) (i * 61 + (120 + c)))
                    (news_of (for_each (range 5) (stack1_cisterna rnd "RoughER"))
                             (120 + c))).
  { apply (@loop_incl _ (stack1_cisterna rnd "RoughER") ltac:(framed_hint) 61).
    - intros x c'. apply (proj2 (stack1_cisterna_steps rnd x)).
    - now apply nth_error_range. }
  assert (H2 : incl (news_of (for_each (range 5) (stack1_cisterna rnd "RoughER"))
                             (120 + c))
                    (news_of (create_rough_er rnd) (120 + c))).
  { rewrite create_rough_er_news. apply incl_appl, incl_refl. }
  assert (H3 : incl (news_of (create_rough_er rnd) (120 + c))
                    (news_of (generators rnd) c)).
  { rewrite generators_news. apply incl_appr, incl_appr, incl_appl, incl_refl. }
  destruct (stack1_cisterna_news rnd i (i * 61 + (120 + c))) as (o & E & _).
  assert (H4 : incl (news_of (for_each (range 20)
                                (stack1_ribosome rnd "RoughER" i (stack1_loc i)))
                             (1 + (i * 61 + (120 + c))))
                    (news_of (stack1_cisterna rnd "RoughER" i) (i * 61 + (120 + c)))).
  { rewrite E. apply incl_tl, incl_refl. }
  assert (H5 : incl (news_of (stack1_ribosome rnd "RoughER" i (stack1_loc i) r) h)
                    (news_of (for_each (range 20)
                                (stack1_ribosome rnd "RoughER" i (stack1_loc i)))
                             (1 + (i * 61 + (120 + c))))).
  { apply (@loop_incl _ (stack1_ribosome rnd "RoughER" i (stack1_loc i))
             ltac:(framed_hint) 3).
    - intros x c'. apply (proj2 (stack1_ribosome_steps rnd i (stack1_loc i) x)).
    - now apply nth_error_range. }
  pose proof (stack1_ribosome_news rnd i (stack1_loc i) r h) as Hs.
  match type of Hs with _ = [?s] => assert (Hin : In s [s]) by now left end.
  rewrite <- Hs in Hin. apply in_map_iff in Hin. destruct Hin as (x & <- & Hx).
  unfold summaries. apply in_map. apply H3, H2, H1, H4, H5, Hx.
Qed.

(** *** The streams [zero_draws] and [origin_draws] *)

Lemma zero_draws_valid : valid_draws zero_draws.
Proof. intros n. unfold zero_draws. lra. Qed.

Lemma origin_draws_valid : valid_draws origin_draws.
Proof. intros n. unfold origin_draws. destruct (Nat.eqb (n mod 4) 3); lra. Qed.

Lemma origin_draws_at q k :
  (k < 4)%nat -> origin_draws (k + q * 4) = if Nat.eqb k 3 then 0.5 else 0.
Proof.
  intros Hk. unfold origin_draws. now rewrite Nat.Div0.mod_add, Nat.mod_small.
Qed.

Lemma origin_node q : ser_node_at origin_draws (q * 4) = vzero.
Proof.
  unfold ser_node_at. cbv zeta.
  rewrite (origin_draws_at q (k := 1)), (origin_draws_at q (k := 2)),
    (origin_draws_at q (k := 3)) by lia.
  change (q * 4)%nat with (0 + q * 4)%nat. rewrite (origin_draws_at q (k := 0)) by lia.
  cbn [Nat.eqb]. rewrite !Rmult_0_l, sin_0. unfold vzero. f_equal; lra.
Qed.

Lemma placed_at_origin thr rad radius s :
  0 < thr -> placed zero_draws thr rad radius s -> s_location s = vzero.
Proof.
  intros Ht [n ->]. rewrite point_in_sphere_origin by reflexivity.
  now apply push_out_origin.
Qed.

Lemma placed_centre_or_clear rnd thr rad radius s :
  0 < thr -> thr <= rad ->
  placed rnd thr rad radius s -> centre_or_clear rnd thr rad radius s.
Proof.
  intros Ht Hr [n E]. exists n. split; [ assumption | ]. split.
  - intros Hz. rewrite E, Hz. now apply push_out_origin.
  - intros Hnz. rewrite E.
    destruct (Rlt_dec (vlength (point_in_sphere rnd radius n)) thr) as [Hlt|Hge].
    + destruct (@push_out_near thr rad _ Hnz Hlt) as [_ ->]; lra.
    + rewrite push_out_far by lra. lra.
Qed.

(** *** The deformation of a cisterna *)

Lemma er_roll_eq x y : er_roll x y = roll_up x y.
Proof.
  unfold er_roll, roll_up, er_edge_dist. cbv zeta.
  rewrite (Rmult_comm x 2), (Rmult_comm y 2).
  destruct (Rgt_dec (Rmax (Rabs (2 * x)) (Rabs (2 * y))) 0.7),
    (Rle_dec (Rmax (Rabs (2 * x)) (Rabs (2 * y))) 0.7); try reflexivity; lra.
Qed.

Lemma deform_vertex_z v :
  vz (deform_vertex v)
  = 0.15 * (1 - (2 * vx v) ^ 2) + (sin (8 * vx v) * 0.03 + sin (6 * vy v) * 0.02)
    + roll_up (vx v) (vy v).
Proof.
  unfold deform_vertex. cbv zeta. cbn [vz]. rewrite er_roll_eq.
  unfold er_curve, er_wave.
  now rewrite (Rmult_comm (vx v) 2), (Rmult_comm (vx v) 8), (Rmult_comm (vy v) 6).
Qed.

Lemma create_er_cisterna_mesh width height loc rot h :
  map (fun o => body (ob_data o)) (news_of (create_er_cisterna width height loc rot) h)
  = [Mesh (Plane 1) (map deform_vertex (plane_grid 1 12))].
Proof. news. reflexivity. Qed.

Lemma grid_vertex : In (vec (9 / 26) (9 / 26) 0) (plane_grid 1 12).
Proof.
  unfold plane_grid. apply in_flat_map. exists 11%nat. split.
  - apply in_seq. lia.
  - apply in_map_iff. exists 11%nat. split.
    + cbn [INR]. f_equal; lra.
    + apply in_seq. lia.
Qed.

Lemma roll_up_inside : roll_up (9 / 26) (9 / 26) = 0.
Proof.
  unfold roll_up. cbv zeta. rewrite Rmax_left by lra.
  rewrite Rabs_pos_eq by lra.
  destruct (Rle_dec (2 * (9 / 26)) 0.7); [ reflexivity | lra ].
Qed.

Lemma radial_dist_outside : 0.7 < radial_dist (9 / 26) (9 / 26).
Proof.
  unfold radial_dist. rewrite <- (sqrt_square 0.7) at 1 by lra.
  apply sqrt_lt_1_alt. lra.
Qed.

Lemma spec_roll_radial_outside : 0 < spec_roll_radial (9 / 26) (9 / 26).
Proof.
  unfold spec_roll_radial. pose proof radial_dist_outside as H.
  destruct (Rle_dec (radial_dist (9 / 26) (9 / 26)) 0.7); [ lra | ].
  set (d := radial_dist (9 / 26) (9 / 26)) in *.
  assert (0 < (d - 0.7) / 0.3) by (apply Rdiv_lt_0_compat; lra).
  nra.
Qed.

(* ================================================================== *)
(** ** The specification, property by property *)
(* ================================================================== *)



(** C3, as the code has it: the mesh of a cisterna is the 14 x 14 grid of
    the subdivided plane with every vertex deformed; the deformation keeps
    x and y and sets z to the sum of the curvature term 0.15*(1-(2x)^2),
    the waviness term sin(8x)*0.03 + sin(6y)*0.02 and a roll-up term that
    is zero while d = max(|2x|, |2y|) is at most 0.7 and
    ((d-0.7)/0.3)^2 * 0.06 beyond; the result depends on (x, y) alone. *)
Theorem C3_deformation_formula :
  (forall width height loc rot h,
     map (fun o => body (ob_data o))
         (news_of (create_er_cisterna width height loc rot) h)
     = [Mesh (Plane 1) (map deform_vertex (plane_grid 1 12))])
  /\ (forall x y z,
        deform_vertex (vec x y z)
        = vec x y (0.15 * (1 - (2 * x) ^ 2) + (sin (8 * x) * 0.03 + sin (6 * y) * 0.02)
                   + roll_up x y))
  /\ (forall x y z z', deform_vertex (vec x y z) = deform_vertex (vec x y z')).
Proof.
  split; [ exact create_er_cisterna_mesh | ]. split.
  - intros x y z. pose proof (deform_vertex_z (vec x y z)) as H. cbn [vx vy] in H.
    rewrite <- H. reflexivity.
  - reflexivity.
Qed.

(** C3 as stated fails: the grid vertex (9/26, 9/26) is at radial
    distance sqrt(2) * 9/13 > 0.7 from the centre of the sheet, but the
    code measures max(|2x|, |2y|) = 9/13 < 0.7 and applies no roll-up. *)
Lemma C3_counterexample :
  In (vec (9 / 26) (9 / 26) 0) (plane_grid 1 12)
  /\ vz (deform_vertex (vec (9 / 26) (9 / 26) 0)) <> spec_z_radial (9 / 26) (9 / 26).
Proof.
  split; [ exact grid_vertex | ].
  rewrite deform_vertex_z. cbn [vx vy]. rewrite roll_up_inside.
  unfold spec_z_radial. pose proof spec_roll_radial_outside. lra.
Qed.

(** C4: the scene has 25 junction spheres; the tubes of the smooth ER
    join junctions pairwise, no unordered pair of indices twice; every
    tube joins two distinct junctions among the 25 whose distance is
    strictly less than 1.2, and runs from the one to the other. *)
Theorem C4_network_edges (rnd : nat -> R) (w : World) :
  let ss := scene rnd w in
  length (select ("SmoothER", "SERJunction_") ss) = 25%nat
  /\ length (tube_edges ss) = length (select ("SmoothER", "SERTube_") ss)
  /\ NoDup (map edge_key (tube_edges ss))
  /\ Forall (fun e =>
               fst e <> snd e /\ (fst e < 25)%nat /\ (snd e < 25)%nat
               /\ vlength (vsub (junction_location ss (fst e))
                                (junction_location ss (snd e))) < 1.2)
            (tube_edges ss)
  /\ Forall (fun s =>
               exists e, tube_edge s = Some e
                 /\ s_points s = [junction_location ss (fst e);
                                  junction_location ss (snd e)])
            (select ("SmoothER", "SERTube_") ss).
Proof.
  cbv zeta. rewrite scene_eq. rewrite scene_tube_edges.
  destruct (scene_network rnd (cursor w)) as [Ht _]. cbv zeta in Ht. rewrite Ht.
  destruct (ser_links_spec (ser_nodes rnd (720 + cursor w))) as [Hshort Hnodup].
  split; [ exact (@scene_count rnd (cursor w) 11%nat _ eq_refl) | ].
  split; [ unfold summaries; now rewrite !length_map | ].
  split; [ exact Hnodup | ].
  split.
  - eapply Forall_impl; [ | exact Hshort ].
    intros e (Hne & Hi & Hj & Hd). rewrite ser_nodes_length in Hi, Hj.
    rewrite !scene_junction_location. auto.
  - apply Forall_forall. intros s Hs. unfold summaries in Hs.
    apply in_map_iff in Hs. destruct Hs as (o & <- & Ho).
    apply in_map_iff in Ho. destruct Ho as (e & <- & _).
    exists e. rewrite !scene_junction_location.
    split; [ apply ser_tube_edge | apply ser_tube_points ].
Qed.

(** C5, as the code has it: with draws in [0, 1), each of the 25 nodes
    lies in the slab |y| <= 0.7, within 2.4 of the vertical axis, hence
    within 2.5 of the cell centre. *)
Theorem C5_nodes_in_slab (rnd : nat -> R) (w : World) :
  valid_draws rnd ->
  let js := select ("SmoothER", "SERJunction_") (scene rnd w) in
  length js = 25%nat /\ Forall (fun s => in_slab (s_location s)) js.
Proof.
  intros Hv. cbv zeta. rewrite scene_eq.
  split; [ exact (@scene_count rnd (cursor w) 11%nat _ eq_refl) | ].
  destruct (scene_network rnd (cursor w)) as [_ Hj]. cbv zeta in Hj. rewrite Hj.
  apply Forall_forall. intros s Hs. apply in_map_iff in Hs.
  destruct Hs as ([i v] & <- & Hin).
  apply (enumerate_spec vzero) in Hin. destruct Hin as [Hi ->].
  rewrite ser_nodes_length in Hi. cbn [ser_junction_summary s_location snd].
  rewrite ser_nodes_nth by assumption. now apply ser_node_in_slab.
Qed.

Lemma C5_witness :
  valid_draws zero_draws
  /\ length (select ("SmoothER", "SERJunction_") (scene zero_draws (world_at 0)))
     = 25%nat
  /\ Forall (fun s => in_slab (s_location s))
            (select ("SmoothER", "SERJunction_") (scene zero_draws (world_at 0))).
Proof.
  assert (H : valid_draws zero_draws) by (intros n; unfold zero_draws; lra).
  split; [ exact H | ].
  exact (C5_nodes_in_slab (world_at 0) H).
Defined.

(** C5 as stated fails: with the draws 0, 0, 0, 0.5 repeating, which a
    generator can hand out, all 25 nodes are at the cell centre, at
    distance 0 and not within 1.0 of the shell of radii 1.9 to 2.4. *)
Lemma C5_counterexample :
  valid_draws origin_draws
  /\ length (select ("SmoothER", "SERJunction_") (scene origin_draws (world_at 0)))
     = 25%nat
  /\ Forall (fun s => s_location s = vzero /\ ~ near_shell 1 (s_location s))
            (select ("SmoothER", "SERJunction_") (scene origin_draws (world_at 0))).
Proof.
  split; [ exact origin_draws_valid | ]. rewrite scene_eq.
  change (cursor (world_at 0)) with 0%nat.
  split; [ exact (@scene_count origin_draws 0%nat 11%nat _ eq_refl) | ].
  destruct (scene_network origin_draws 0) as [_ Hj]. cbv zeta in Hj. rewrite Hj.
  apply Forall_forall. intros s Hs. apply in_map_iff in Hs.
  destruct Hs as ([i v] & <- & Hin).
  apply (enumerate_spec vzero) in Hin. destruct Hin as [Hi ->].
  rewrite ser_nodes_length in Hi. cbn [ser_junction_summary s_location snd].
  rewrite ser_nodes_nth by assumption.
  replace (4 * i + (720 + 0))%nat with ((i + 180) * 4)%nat by lia.
  rewrite origin_node. split; [ reflexivity | ].
  unfold near_shell. rewrite vlength_vzero. lra.
Qed.





(** C8: for every radius r > 0, every stream of draws in [0, 1) and every
    world, [random_point_in_sphere r] returns a point whose distance from
    the origin is at most r. *)
Theorem C8_point_in_sphere_bounded (rnd : nat -> R) (radius : R) (w : World) :
  valid_draws rnd -> 0 < radius ->
  vlength (eval (random_point_in_sphere rnd radius) w) <= radius.
Proof.
  intros Hv Hr. rewrite random_point_in_sphere_eval, point_in_sphere_length
    by assumption.
  assert (Hy : 0 < 1 / 3) by lra.
  pose proof (@fpow_unit _ _ (Hv (2 + cursor w)%nat) Hy) as H. nra.
Qed.

Lemma C8_witness :
  valid_draws zero_draws /\ 0 < 1
  /\ vlength (eval (random_point_in_sphere zero_draws 1) (world_at 0)) <= 1.
Proof.
  assert (H : valid_draws zero_draws) by (intros n; unfold zero_draws; lra).
  assert (H1 : 0 < 1) by lra.
  split; [ exact H | ]. split; [ exact H1 | ].
  exact (C8_point_in_sphere_bounded (world_at 0) H H1).
Defined.




(* ================================================================== *)
(** ** More geometry: the sphere samplers, rotations, the sheet *)
(* ================================================================== *)

Lemma point_on_sphere_eq rnd radius c :
  point_on_sphere rnd radius c
  = let theta := 2 * PI * rnd c in
    let phi := acos (2 * rnd (1 + c)%nat - 1) in
    vec (radius * sin phi * cos theta) (radius * sin phi * sin theta)
        (radius * cos phi).
Proof. reflexivity. Qed.

Lemma random_point_on_sphere_eval rnd radius w :
  eval (random_point_on_sphere rnd radius) w = point_on_sphere rnd radius (cursor w).
Proof. destruct w. reflexivity. Qed.

Lemma spherical_length_abs r phi theta :
  vlength (vec (r * sin phi * cos theta) (r * sin phi * sin theta) (r * cos phi))
  = Rabs r.
Proof.
  unfold vlength; cbn [vx vy vz].
  replace (r * sin phi * cos theta * (r * sin phi * cos theta)
           + r * sin phi * sin theta * (r * sin phi * sin theta)
           + r * cos phi * (r * cos phi))
    with (r² * ((sin phi)² * ((sin theta)² + (cos theta)²) + (cos phi)²))
    by (unfold Rsqr; ring).
  rewrite sin2_cos2, Rmult_1_r, sin2_cos2, Rmult_1_r. apply sqrt_Rsqr_abs.
Qed.

Lemma draw_in_acos_domain rnd n : valid_draws rnd -> -1 <= 2 * rnd n - 1 <= 1.
Proof. intros Hv. pose proof (Hv n). lra. Qed.

(** *** Rotations keep lengths *)

Lemma vlength_rot_x a v : vlength (rot_x a v) = vlength v.
Proof.
  unfold vlength, rot_x; cbn [vx vy vz]. f_equal.
  pose proof (sin2_cos2 a) as H. unfold Rsqr in H.
  transitivity (vx v * vx v + (vy v * vy v + vz v * vz v) * (sin a * sin a + cos a * cos a));
    [ ring | rewrite H; ring ].
Qed.

Lemma vlength_rot_y a v : vlength (rot_y a v) = vlength v.
Proof.
  unfold vlength, rot_y; cbn [vx vy vz]. f_equal.
  pose proof (sin2_cos2 a) as H. unfold Rsqr in H.
  transitivity (vy v * vy v + (vx v * vx v + vz v * vz v) * (sin a * sin a + cos a * cos a));
    [ ring | rewrite H; ring ].
Qed.

Lemma vlength_rot_z a v : vlength (rot_z a v) = vlength v.
Proof.
  unfold vlength, rot_z; cbn [vx vy vz]. f_equal.
  pose proof (sin2_cos2 a) as H. unfold Rsqr in H.
  transitivity (vz v * vz v + (vx v * vx v + vy v * vy v) * (sin a * sin a + cos a * cos a));
    [ ring | rewrite H; ring ].
Qed.

Lemma vlength_rotate v euler : vlength (rotate v euler) = vlength v.
Proof. unfold rotate. now rewrite vlength_rot_z, vlength_rot_y, vlength_rot_x. Qed.

Lemma vsub_vadd_l p q : vsub (vadd p q) p = q.
Proof.
  destruct p as [a b c], q as [d e f]. unfold vsub, vadd; cbn [vx vy vz].
  f_equal; ring.
Qed.

(** *** The deformed sheet *)

Lemma Rabs_bound x a : Rabs x <= a -> - a <= x <= a.
Proof. unfold Rabs. destruct (Rcase_abs x); lra. Qed.

Lemma er_curve_range x : Rabs x <= 0.5 -> 0 <= 0.15 * (1 - (2 * x) ^ 2) <= 0.15.
Proof. intros H. apply Rabs_bound in H. nra. Qed.

Lemma er_wave_range x y :
  -0.05 <= sin (8 * x) * 0.03 + sin (6 * y) * 0.02 <= 0.05.
Proof. pose proof (SIN_bound (8 * x)). pose proof (SIN_bound (6 * y)). lra. Qed.

Lemma roll_up_range x y :
  Rabs x <= 0.5 -> Rabs y <= 0.5 -> 0 <= roll_up x y <= 0.06.
Proof.
  intros Hx Hy. unfold roll_up. cbv zeta.
  set (d := Rmax (Rabs (2 * x)) (Rabs (2 * y))).
  assert (Hd : d <= 1).
  { unfold d. apply Rmax_lub; rewrite Rabs_mult, (Rabs_pos_eq 2) by lra; lra. }
  destruct (Rle_dec d 0.7) as [Hle|Hgt]; [ lra | ].
  assert (H1 : 0 < (d - 0.7) / 0.3 <= 1).
  { split; [ apply Rdiv_lt_0_compat; lra | ].
    unfold Rdiv. assert (E : / 0.3 = 10 / 3) by lra. rewrite E. lra. }
  nra.
Qed.

Lemma deform_vertex_range v :
  Rabs (vx v) <= 0.5 -> Rabs (vy v) <= 0.5 ->
  vx (deform_vertex v) = vx v /\ vy (deform_vertex v) = vy v
  /\ -0.05 <= vz (deform_vertex v) <= 0.26.
Proof.
  intros Hx Hy. split; [ reflexivity | ]. split; [ reflexivity | ].
  rewrite deform_vertex_z.
  pose proof (@er_curve_range _ Hx). pose proof (er_wave_range (vx v) (vy v)).
  pose proof (@roll_up_range _ _ Hx Hy). lra.
Qed.

Lemma grid_coordinate j : (j < 14)%nat -> Rabs (- 1 / 2 + 1 * INR j / INR 13) <= 0.5.
Proof.
  intros Hj. assert (H0 : 0 <= INR j) by apply pos_INR.
  assert (H1 : INR j <= INR 13) by (apply le_INR; lia).
  assert (E : INR 13 = 13) by (cbn [INR]; lra). rewrite E in *.
  apply Rabs_le. lra.
Qed.

Lemma plane_grid_range v :
  In v (plane_grid 1 12) -> Rabs (vx v) <= 0.5 /\ Rabs (vy v) <= 0.5.
Proof.
  unfold plane_grid. intros H. apply in_flat_map in H. destruct H as (i & Hi & H).
  apply in_map_iff in H. destruct H as (j & <- & Hj).
  apply in_seq in Hi. apply in_seq in Hj. cbn [vx vy].
  split; apply grid_coordinate; lia.
Qed.

Lemma plane_grid_length : length (plane_grid 1 12) = 196%nat.
Proof. reflexivity. Qed.

(* ================================================================== *)
(** ** The registries: collections, materials, data without users *)
(* ================================================================== *)

#[local] Transparent after.

Lemma after_bind (A B : Type) (m : M A) (k : A -> M B) w :
  after (bind m k) w = after (k (fst (m w))) (after m w).
Proof. unfold after, bind. destruct (m w). reflexivity. Qed.

Lemma registers_eq (A : Type) (m : M A) cs ks cs' ks' :
  registers m cs ks -> cs = cs' -> ks = ks' -> registers m cs' ks'.
Proof. intros H <- <-. exact H. Qed.

Lemma registers_ret (A : Type) (a : A) : registers (ret a) [] [].
Proof. intros w. unfold after, ret. cbn. rewrite !app_nil_r. auto. Qed.

Lemma registers_bind (A B : Type) (m : M A) (k : A -> M B) cs ks cs' ks' :
  registers m cs ks -> (forall a, registers (k a) cs' ks') ->
  registers (bind m k) (cs ++ cs') (ks ++ ks').
Proof.
  intros Hm Hk w. rewrite after_bind.
  destruct (Hm w) as (E1 & E2 & E3 & E4).
  destruct (Hk (fst (m w)) (after m w)) as (F1 & F2 & F3 & F4).
  rewrite F1, F2, F3, F4, E1, E2, E3, E4, !app_assoc. auto.
Qed.

Lemma registers_bind_val (A B : Type) (m : M A) (k : A -> M B) v cs ks cs' ks' :
  registers m cs ks -> (forall w, fst (m w) = v) -> registers (k v) cs' ks' ->
  registers (bind m k) (cs ++ cs') (ks ++ ks').
Proof.
  intros Hm Hv Hk w. rewrite after_bind, Hv.
  destruct (Hm w) as (E1 & E2 & E3 & E4).
  destruct (Hk (after m w)) as (F1 & F2 & F3 & F4).
  rewrite F1, F2, F3, F4, E1, E2, E3, E4, !app_assoc. auto.
Qed.

Lemma registers_bind_nil (A B : Type) (m : M A) (k : A -> M B) cs ks :
  registers m [] [] -> (forall a, registers (k a) cs ks) ->
  registers (bind m k) cs ks.
Proof. intros Hm Hk. exact (@registers_bind _ _ m k [] [] cs ks Hm Hk). Qed.

Lemma registers_for_each (A : Type) (body : A -> M unit) cs ks l :
  (forall x, registers (body x) cs ks) ->
  registers (for_each l body) (times (length l) cs) (times (length l) ks).
Proof.
  intros H. induction l as [|x l IH]; cbn [for_each length times].
  - apply registers_ret.
  - apply registers_bind; [ apply H | intros _; exact IH ].
Qed.

Lemma registers_for_each_nil (A : Type) (body : A -> M unit) l :
  (forall x, registers (body x) [] []) -> registers (for_each l body) [] [].
Proof.
  intros H. induction l as [|x l IH]; cbn [for_each].
  - apply registers_ret.
  - apply registers_bind_nil; [ apply H | intros _; exact IH ].
Qed.

Lemma registers_fold_each (A S : Type) (body : A -> S -> M S) l : forall s,
  (forall x s', registers (body x s') [] []) -> registers (fold_each l s body) [] [].
Proof.
  induction l as [|x l IH]; intros s H; cbn [fold_each].
  - apply registers_ret.
  - apply registers_bind_nil; [ apply H | intros s'; now apply IH ].
Qed.

Lemma registers_replicateM (A : Type) (m : M A) n :
  registers m [] [] -> registers (replicateM n m) [] [].
Proof.
  intros H. induction n as [|n IH]; cbn [replicateM].
  - apply registers_ret.
  - apply registers_bind_nil; [ exact H | intros a ].
    apply registers_bind_nil; [ exact IH | intros l; apply registers_ret ].
Qed.

Ltac registry_step :=
  intros w; destruct w; unfold after; cbn; rewrite ?app_nil_r; auto.

Lemma registers_add_active o : registers (add_active o) [] [].
Proof. registry_step. Qed.

Lemma registers_objects_new n d : registers (objects_new n d) [] [].
Proof. registry_step. Qed.

Lemma registers_obj_update h f : registers (obj_update h f) [] [].
Proof. registry_step. Qed.

Lemma registers_obj_read (T : Type) h (f : Obj -> T) dflt :
  registers (obj_read h f dflt) [] [].
Proof. registry_step. Qed.

Lemma registers_active_object : registers active_object [] [].
Proof. registry_step. Qed.

Lemma registers_random rnd : registers (random rnd) [] [].
Proof. registry_step. Qed.

Lemma registers_collections_new name : registers (collections_new name) [name] [].
Proof. registry_step. Qed.

Lemma registers_children_link c : registers (children_link c) [] [c].
Proof. registry_step. Qed.

#[global] Opaque after.

(** Follows the structure of a computation. *)
Ltac reg :=
  cbv beta zeta;
  lazymatch goal with
  | |- registers (bind (collections_new ?n) _) _ _ =>
      eapply (@registers_bind_val _ _ _ _ n);
      [ apply registers_collections_new | reflexivity | reg ]
  | |- registers (bind _ _) _ _ =>
      first [ eapply registers_bind_nil; [ solve [ reg ] | intros; reg ]
            | eapply registers_bind; [ reg | intros; reg ] ]
  | |- registers (ret _) _ _ => apply registers_ret
  | |- registers (for_each _ _) _ _ =>
      first [ apply registers_for_each_nil; intros; solve [ reg ]
            | eapply registers_for_each; intros; reg ]
  | |- registers (fold_each _ _ _) _ _ => apply registers_fold_each; intros; reg
  | |- registers (replicateM _ _) _ _ => apply registers_replicateM; reg
  | |- registers (if ?b then _ else _) _ _ => destruct b; reg
  | |- registers (add_active _) _ _ => apply registers_add_active
  | |- registers (objects_new _ _) _ _ => apply registers_objects_new
  | |- registers (obj_update _ _) _ _ => apply registers_obj_update
  | |- registers (obj_read _ _ _) _ _ => apply registers_obj_read
  | |- registers active_object _ _ => apply registers_active_object
  | |- registers (random _) _ _ => apply registers_random
  | |- registers (collections_new _) _ _ => apply registers_collections_new
  | |- registers (children_link _) _ _ => apply registers_children_link
  | |- registers ?m _ _ => let h := head m in unfold h; reg
  end.

Ltac registry := eapply registers_eq; [ reg | reflexivity | reflexivity ].

Section Registries.
Variable rnd : nat -> R.

Lemma create_membrane_registers : registers create_membrane [] [].
Proof. registry. Qed.

Lemma create_nucleus_registers : registers (create_nucleus rnd) ["Nucleus"] ["Nucleus"].
Proof. registry. Qed.

Lemma create_rough_er_registers : registers (create_rough_er rnd) ["RoughER"] ["RoughER"].
Proof. registry. Qed.

Lemma create_smooth_er_registers :
  registers (create_smooth_er rnd) ["SmoothER"] ["SmoothER"].
Proof. registry. Qed.

Lemma create_mitochondrion_registers loc rot :
  registers (create_mitochondrion rnd loc rot) ["Mitochondrion"] [].
Proof. registry. Qed.

Lemma create_mitochondria_registers :
  registers (create_mitochondria rnd)
            ("Mitochondria" :: times 12 ["Mitochondrion"]) ["Mitochondria"].
Proof. registry. Qed.

Lemma create_golgi_registers :
  registers (create_golgi rnd) ["GolgiApparatus"] ["GolgiApparatus"].
Proof. registry. Qed.

Lemma create_lysosomes_registers :
  registers (create_lysosomes rnd) ["Lysosomes"] ["Lysosomes"].
Proof. registry. Qed.

Lemma create_centrosome_registers :
  registers create_centrosome ["Centrosome"] ["Centrosome"].
Proof. registry. Qed.

Lemma create_free_ribosomes_registers :
  registers (create_free_ribosomes rnd) ["FreeRibosomes"] ["FreeRibosomes"].
Proof. registry. Qed.

Lemma create_cytoskeleton_registers :
  registers (create_cytoskeleton rnd) ["Cytoskeleton"] ["Cytoskeleton"].
Proof. registry. Qed.

End Registries.

(* ================================================================== *)
(** ** The world after the script *)
(* ================================================================== *)

Lemma filter_idem (T : Type) (f : T -> bool) l : filter f (filter f l) = filter f l.
Proof.
  induction l as [|x l IH]; [ reflexivity | ].
  cbn [filter]. destruct (f x) eqn:E; [ | exact IH ].
  cbn [filter]. now rewrite E, IH.
Qed.

(** *** [clear_scene] *)

Lemma clear_scene_world w :
  after clear_scene w
  = mkWorld [] (kept_data w) (kept_materials w) (bpy_collections w) (scene_children w)
            None None (render_engine w) (cursor w).
Proof. apply (@after_pair _ clear_scene w tt _ eq_refl). Qed.

Lemma kept_data_cleared w : kept_data (after clear_scene w) = kept_data w.
Proof.
  rewrite clear_scene_world. unfold kept_data at 1. cbn [orphans objects map].
  rewrite app_nil_r. unfold kept_data. apply filter_idem.
Qed.

Lemma kept_materials_cleared w : kept_materials (after clear_scene w) = kept_materials w.
Proof.
  unfold kept_materials at 1. rewrite kept_data_cleared.
  rewrite clear_scene_world. cbn [bpy_materials]. unfold kept_materials.
  apply filter_idem.
Qed.

Lemma clear_scene_idempotent w :
  after clear_scene (after clear_scene w) = after clear_scene w.
Proof.
  rewrite (clear_scene_world (after clear_scene w)).
  rewrite kept_data_cleared, kept_materials_cleared.
  rewrite (clear_scene_world w). reflexivity.
Qed.

(** *** The materials *)

Lemma materials_new_world l : forall w,
  after (for_each l materials_new) w
  = mkWorld (objects w) (orphans w) (bpy_materials w ++ l) (bpy_collections w)
            (scene_children w) (active w) (scene_camera w) (render_engine w) (cursor w).
Proof.
  induction l as [|m l IH]; intros w.
  - rewrite (@after_pair _ (for_each [] materials_new) w tt w eq_refl).
    rewrite app_nil_r. now destruct w.
  - cbn [for_each]. rewrite after_seq, IH.
    rewrite (@after_pair _ (materials_new m) w tt _ eq_refl). cbn.
    now rewrite <- app_assoc.
Qed.

(** *** The final setup *)

Lemma final_setup_world L a b c d e f g h :
  final_setup (mkWorld L a b c d e f g h)
  = (tt, mkWorld (L ++ [camera_object; sun_object; fill_object]) a b c d
                 (Some (length L + 2)%nat) (Some (length L + 0)%nat)
                 "BLENDER_EEVEE_NEXT" h).
Proof. rewrite <- (app_nil_r L) at 1. run. Qed.

Lemma final_setup_registers : registers final_setup [] [].
Proof.
  intros [L a b c d e f g h].
  rewrite (@after_pair _ _ _ _ _ (final_setup_world L a b c d e f g h)).
  cbn. rewrite !app_nil_r. auto.
Qed.

Section ScriptWorld.
Variable rnd : nat -> R.

Lemma generators_registers :
  registers (generators rnd) script_collections script_children.
Proof.
  unfold generators.
  eapply registers_eq.
  - eapply registers_bind; [ apply create_membrane_registers | intros _ ].
    eapply registers_bind; [ apply create_nucleus_registers | intros _ ].
    eapply registers_bind; [ apply create_rough_er_registers | intros _ ].
    eapply registers_bind; [ apply create_smooth_er_registers | intros _ ].
    eapply registers_bind; [ apply create_mitochondria_registers | intros _ ].
    eapply registers_bind; [ apply create_golgi_registers | intros _ ].
    eapply registers_bind; [ apply create_lysosomes_registers | intros _ ].
    eapply registers_bind; [ apply create_centrosome_registers | intros _ ].
    eapply registers_bind; [ apply create_free_ribosomes_registers | intros _ ].
    eapply registers_bind; [ apply create_cytoskeleton_registers | intros _ ].
    apply final_setup_registers.
  - reflexivity.
  - reflexivity.
Qed.

Lemma generate_cell_registries w :
  let w' := after (generate_cell rnd) w in
  bpy_collections w' = bpy_collections w ++ script_collections
  /\ scene_children w' = scene_children w ++ script_children
  /\ orphans w' = kept_data w
  /\ bpy_materials w' = kept_materials w ++ all_materials.
Proof.
  cbv zeta. unfold generate_cell. rewrite !after_seq.
  destruct (generators_registers
              (after (for_each all_materials materials_new) (after clear_scene w)))
    as (E1 & E2 & E3 & E4).
  rewrite E1, E2, E3, E4, materials_new_world, clear_scene_world. cbn. auto.
Qed.

Lemma generators_cursor c :
  cursor_of (generators rnd) c = (456 + after_ser rnd c)%nat.
Proof.
  unfold generators.
  repeat match goal with
  | |- context [cursor_of (bind ?m (fun _ => ?r)) ?c'] =>
      rewrite (@cursor_of_seq _ _ m r c' ltac:(framed_seqs))
  end.
  rewrite (proj2 create_membrane_steps), (proj2 (create_nucleus_steps rnd)),
    (proj2 (create_rough_er_steps rnd)), create_smooth_er_cursor,
    (proj2 (create_mitochondria_steps rnd)), (proj2 (create_golgi_steps rnd)),
    (proj2 (create_lysosomes_steps rnd)), (proj2 create_centrosome_steps),
    (proj2 (create_free_ribosomes_steps rnd)), (proj2 (create_cytoskeleton_steps rnd)),
    (proj2 final_setup_steps).
  replace (600 + (120 + (0 + c)))%nat with (720 + c)%nat by lia.
  unfold after_ser. lia.
Qed.

Lemma generate_cell_cursor w :
  cursor (after (generate_cell rnd) w) = (456 + after_ser rnd (cursor w))%nat.
Proof.
  unfold generate_cell. rewrite !after_seq.
  destruct (generators_framed rnd (after (for_each all_materials materials_new)
                                         (after clear_scene w))) as [_ ->].
  destruct (after_materials all_materials (after clear_scene w)) as [_ ->].
  destruct (after_clear_scene w) as [_ ->].
  apply generators_cursor.
Qed.

(** The camera is the third object from the end, and the scene's camera
    is its handle. *)
Lemma generate_cell_setup w :
  exists organelles,
    objects (after (generate_cell rnd) w)
    = organelles ++ [camera_object; sun_object; fill_object]
    /\ scene_camera (after (generate_cell rnd) w) = Some (length organelles)
    /\ active (after (generate_cell rnd) w) = Some (length organelles + 2)%nat
    /\ render_engine (after (generate_cell rnd) w) = "BLENDER_EEVEE_NEXT".
Proof.
  unfold generate_cell, generators. rewrite !after_seq.
  match goal with
  | |- context [after final_setup ?W] => destruct W as [L a b c d e f g h]
  end.
  rewrite (@after_pair _ _ _ _ _ (final_setup_world L a b c d e f g h)).
  exists L. cbn. rewrite Nat.add_0_r. auto.
Qed.

End ScriptWorld.

(** *** The number of tubes *)

Lemma ser_links_near_length i near : forall connected,
  (length (fst (ser_links_near i near connected)) <= length near)%nat.
Proof.
  induction near as [|jd rest IH]; intros connected; cbn [ser_links_near].
  - cbn. lia.
  - destruct (ser_accepts connected i jd).
    + specialize (IH (set_add (ser_key i (fst jd)) connected)).
      destruct (ser_links_near i rest (set_add (ser_key i (fst jd)) connected)).
      cbn [fst length] in *. lia.
    + specialize (IH connected). cbn [length]. lia.
Qed.

Lemma ser_nearest_length nodes i node : (length (ser_nearest nodes i node) <= 3)%nat.
Proof. unfold ser_nearest. apply firstn_le_length. Qed.

Lemma ser_links_from_length nodes inodes : forall connected,
  (length (fst (ser_links_from nodes inodes connected)) <= 3 * length inodes)%nat.
Proof.
  induction inodes as [|inode rest IH]; intros connected; cbn [ser_links_from].
  - cbn. lia.
  - pose proof (ser_links_near_length (fst inode)
                  (ser_nearest nodes (fst inode) (snd inode)) connected) as H1.
    pose proof (ser_nearest_length nodes (fst inode) (snd inode)) as H2.
    destruct (ser_links_near (fst inode) (ser_nearest nodes (fst inode) (snd inode))
                connected) as [tubes c'].
    specialize (IH c'). destruct (ser_links_from nodes rest c') as [tubes' c''].
    cbn [fst length] in *. rewrite length_app. lia.
Qed.

Lemma enumerate_from_length (T : Type) (l : list T) : forall s,
  length (enumerate_from s l) = length l.
Proof. induction l as [|x l IH]; intros s; cbn; [ reflexivity | now rewrite IH ]. Qed.

Lemma ser_links_length nodes : (length (ser_links nodes) <= 3 * length nodes)%nat.
Proof.
  unfold ser_links. pose proof (ser_links_from_length nodes (enumerate nodes) []) as H.
  unfold enumerate in *. now rewrite enumerate_from_length in H.
Qed.

(* ================================================================== *)
(** ** The roster of each generator *)
(* ================================================================== *)

Lemma roster_app l m : roster (l ++ m) = roster l ++ roster m.
Proof. apply map_app. Qed.

Lemma roster_cons s ss : roster (s :: ss) = tag s :: roster ss.
Proof. reflexivity. Qed.

Lemma times_app (T : Type) (n m : nat) (l : list T) :
  times (n + m) l = times n l ++ times m l.
Proof.
  induction n as [|n IH]; cbn [Nat.add times]; [ reflexivity | ].
  now rewrite IH, app_assoc.
Qed.

Lemma times_length (T : Type) (n : nat) (l : list T) :
  length (times n l) = (n * length l)%nat.
Proof.
  induction n as [|n IH]; cbn [times Nat.mul]; [ reflexivity | ].
  now rewrite length_app, IH.
Qed.

Lemma loop_roster (A : Type) (body : A -> M unit) r l c :
  (forall x, framed (body x)) ->
  (forall x c', roster (summaries (news_of (body x) c')) = r) ->
  roster (summaries (news_of (for_each l body) c)) = times (length l) r.
Proof.
  intros Hf H. revert c. induction l as [|x l IH]; intros c.
  - reflexivity.
  - rewrite news_of_for_each_cons, summaries_app, roster_app, H, IH by assumption.
    reflexivity.
Qed.

Ltac roster_block L := by_news L; lazy; reflexivity.
Ltac roster_loop L := apply loop_roster; [ framed_hint | intros; apply L ].

Lemma ser_tubes_roster nodes links :
  roster (summaries (map (ser_tube nodes) links))
  = times (length links) [organelle_tag "SmoothER" "SERTube_" KCurve "SmoothER"].
Proof.
  induction links as [|e links IH]; [ reflexivity | ].
  cbn [map length times]. rewrite summaries_cons, roster_cons, IH. reflexivity.
Qed.

Lemma ser_junctions_roster l :
  roster (map ser_junction_summary l)
  = times (length l) [organelle_tag "SmoothER" "SERJunction_" KMesh "SmoothER"].
Proof.
  induction l as [|x l IH]; [ reflexivity | ].
  cbn [map length times]. rewrite roster_cons, IH. reflexivity.
Qed.

Lemma centriole_summaries_roster c :
  roster (centriole_summaries c)
  = times 27 [organelle_tag "Centrosome" "Centriole" KMesh "Centriole"].
Proof. lazy. reflexivity. Qed.

Section Rosters.
Variable rnd : nat -> R.

Lemma create_membrane_roster h :
  roster (summaries (news_of create_membrane h))
  = [organelle_tag scene_collection "CellMembrane" KMesh "Membrane"].
Proof. roster_block (create_membrane_news h). Qed.

Lemma chromatin_strand_roster i h :
  roster (summaries (news_of (chromatin_strand rnd "Nucleus" i) h))
  = [organelle_tag "Nucleus" "Chromatin" KCurve "Chromatin"].
Proof. roster_block (chromatin_strand_news rnd i h). Qed.

Lemma create_nucleus_roster h :
  roster (summaries (news_of (create_nucleus rnd) h))
  = [organelle_tag "Nucleus" "NuclearEnvelope" KMesh "NuclearEnvelope";
     organelle_tag "Nucleus" "Nucleoplasm" KMesh "Nucleoplasm";
     organelle_tag "Nucleus" "Nucleolus" KMesh "Nucleolus"]
    ++ times 10 [organelle_tag "Nucleus" "Chromatin" KCurve "Chromatin"].
Proof.
  destruct (create_nucleus_news rnd h) as (e & n & nl & -> & E1 & E2 & E3).
  rewrite !summaries_cons, !roster_cons, E1, E2, E3.
  rewrite (@loop_roster _ (chromatin_strand rnd "Nucleus") _ (range 10) h
             ltac:(framed_hint) chromatin_strand_roster).
  reflexivity.
Qed.

Lemma stack1_ribosome_roster i loc r h :
  roster (summaries (news_of (stack1_ribosome rnd "RoughER" i loc r) h))
  = [organelle_tag "RoughER" "Ribosome_S1C" KMesh "Ribosome"].
Proof. roster_block (stack1_ribosome_news rnd i loc r h). Qed.

Lemma stack2_ribosome_roster i loc r h :
  roster (summaries (news_of (stack2_ribosome rnd "RoughER" i loc r) h))
  = [organelle_tag "RoughER" "Ribosome_S2C" KMesh "Ribosome"].
Proof. roster_block (stack2_ribosome_news rnd i loc r h). Qed.

Lemma stack3_ribosome_roster i loc r h :
  roster (summaries (news_of (stack3_ribosome rnd "RoughER" i loc r) h))
  = [organelle_tag "RoughER" "Ribosome_S3C" KMesh "Ribosome"].
Proof. roster_block (stack3_ribosome_news rnd i loc r h). Qed.

Lemma stack1_cisterna_roster i h :
  roster (summaries (news_of (stack1_cisterna rnd "RoughER" i) h))
  = organelle_tag "RoughER" "RER_Stack1_Cisterna" KMesh "RoughER"
    :: times 20 [organelle_tag "RoughER" "Ribosome_S1C" KMesh "Ribosome"].
Proof.
  destruct (stack1_cisterna_news rnd i h) as (o & -> & E).
  rewrite summaries_cons, roster_cons, E.
  rewrite (@loop_roster _ (stack1_ribosome rnd "RoughER" i (stack1_loc i)) _ (range 20)
             (1 + h) ltac:(framed_hint) (stack1_ribosome_roster i (stack1_loc i))).
  reflexivity.
Qed.

Lemma stack2_cisterna_roster i h :
  roster (summaries (news_of (stack2_cisterna rnd "RoughER" i) h))
  = organelle_tag "RoughER" "RER_Stack2_Cisterna" KMesh "RoughER"
    :: times 15 [organelle_tag "RoughER" "Ribosome_S2C" KMesh "Ribosome"].
Proof.
  destruct (stack2_cisterna_news rnd i h) as (o & -> & E).
  rewrite summaries_cons, roster_cons, E.
  rewrite (@loop_roster _ (stack2_ribosome rnd "RoughER" i (stack2_loc i)) _ (range 15)
             (1 + h) ltac:(framed_hint) (stack2_ribosome_roster i (stack2_loc i))).
  reflexivity.
Qed.

Lemma stack3_cisterna_roster i h :
  roster (summaries (news_of (stack3_cisterna rnd "RoughER" i) h))
  = organelle_tag "RoughER" "RER_Stack3_Cisterna" KMesh "RoughER"
    :: times 12 [organelle_tag "RoughER" "Ribosome_S3C" KMesh "Ribosome"].
Proof.
  destruct (stack3_cisterna_news rnd i h) as (o & -> & E).
  rewrite summaries_cons, roster_cons, E.
  rewrite (@loop_roster _ (stack3_ribosome rnd "RoughER" i (stack3_loc i)) _ (range 12)
             (1 + h) ltac:(framed_hint) (stack3_ribosome_roster i (stack3_loc i))).
  reflexivity.
Qed.

Lemma create_rough_er_roster h :
  roster (summaries (news_of (create_rough_er rnd) h))
  = times 5 (organelle_tag "RoughER" "RER_Stack1_Cisterna" KMesh "RoughER"
             :: times 20 [organelle_tag "RoughER" "Ribosome_S1C" KMesh "Ribosome"])
    ++ times 4 (organelle_tag "RoughER" "RER_Stack2_Cisterna" KMesh "RoughER"
                :: times 15 [organelle_tag "RoughER" "Ribosome_S2C" KMesh "Ribosome"])
    ++ times 3 (organelle_tag "RoughER" "RER_Stack3_Cisterna" KMesh "RoughER"
                :: times 12 [organelle_tag "RoughER" "Ribosome_S3C" KMesh "Ribosome"]).
Proof.
  rewrite create_rough_er_news, !summaries_app, !roster_app.
  rewrite (@loop_roster _ (stack1_cisterna rnd "RoughER") _ (range 5) h
             ltac:(framed_hint) stack1_cisterna_roster).
  rewrite (@loop_roster _ (stack2_cisterna rnd "RoughER") _ (range 4) (305 + h)
             ltac:(framed_hint) stack2_cisterna_roster).
  rewrite (@loop_roster _ (stack3_cisterna rnd "RoughER") _ (range 3) (489 + h)
             ltac:(framed_hint) stack3_cisterna_roster).
  reflexivity.
Qed.

Lemma create_smooth_er_roster h :
  roster (summaries (news_of (create_smooth_er rnd) h))
  = times (length (ser_links (ser_nodes rnd h)))
          [organelle_tag "SmoothER" "SERTube_" KCurve "SmoothER"]
    ++ times 25 [organelle_tag "SmoothER" "SERJunction_" KMesh "SmoothER"].
Proof.
  rewrite create_smooth_er_news, summaries_app, roster_app, ser_tubes_roster.
  rewrite junction_loop_summaries, ser_junctions_roster.
  unfold enumerate. now rewrite enumerate_from_length, ser_nodes_length.
Qed.

Lemma mitochondrion_body_roster i h :
  roster (summaries (news_of (mitochondrion_body rnd "Mitochondria" i) h))
  = organelle_tag "Mitochondria" "Mitochondrion_" KMesh "MitoOuter"
    :: times 4 [organelle_tag scene_collection "Crista_" KMesh "MitoInner"].
Proof. roster_block (mitochondrion_body_news rnd i h). Qed.

Lemma create_mitochondria_roster h :
  roster (summaries (news_of (create_mitochondria rnd) h))
  = times 12 (organelle_tag "Mitochondria" "Mitochondrion_" KMesh "MitoOuter"
              :: times 4 [organelle_tag scene_collection "Crista_" KMesh "MitoInner"]).
Proof. rewrite create_mitochondria_news. roster_loop mitochondrion_body_roster. Qed.

Lemma golgi_cisterna_roster i h :
  roster (summaries (news_of (golgi_cisterna "GolgiApparatus" i) h))
  = [organelle_tag "GolgiApparatus" "GolgiCisterna_" KMesh "Golgi"].
Proof. roster_block (golgi_cisterna_news i h). Qed.

Lemma golgi_vesicle_roster i h :
  roster (summaries (news_of (golgi_vesicle rnd "GolgiApparatus" i) h))
  = [organelle_tag "GolgiApparatus" "GolgiVesicle_" KMesh "Vesicle"].
Proof. roster_block (golgi_vesicle_news rnd i h). Qed.

Lemma create_golgi_roster h :
  roster (summaries (news_of (create_golgi rnd) h))
  = times 5 [organelle_tag "GolgiApparatus" "GolgiCisterna_" KMesh "Golgi"]
    ++ times 8 [organelle_tag "GolgiApparatus" "GolgiVesicle_" KMesh "Vesicle"].
Proof.
  rewrite create_golgi_news, summaries_app, roster_app.
  rewrite (@loop_roster _ (golgi_cisterna "GolgiApparatus") _ (range 5) h
             ltac:(framed_hint) golgi_cisterna_roster).
  rewrite (@loop_roster _ (golgi_vesicle rnd "GolgiApparatus") _ (range 8) h
             ltac:(framed_hint) golgi_vesicle_roster).
  reflexivity.
Qed.

Lemma lysosome_body_roster i h :
  roster (summaries (news_of (lysosome_body rnd "Lysosomes" i) h))
  = [organelle_tag "Lysosomes" "Lysosome_" KMesh "Lysosome"].
Proof. roster_block (lysosome_body_news rnd i h). Qed.

Lemma create_lysosomes_roster h :
  roster (summaries (news_of (create_lysosomes rnd) h))
  = times 10 [organelle_tag "Lysosomes" "Lysosome_" KMesh "Lysosome"].
Proof. rewrite create_lysosomes_news. roster_loop lysosome_body_roster. Qed.

Lemma create_centrosome_roster h :
  roster (summaries (news_of create_centrosome h))
  = times 54 [organelle_tag "Centrosome" "Centriole" KMesh "Centriole"].
Proof.
  rewrite create_centrosome_summaries, roster_app, !centriole_summaries_roster.
  now rewrite <- times_app.
Qed.

Lemma free_ribosome_roster i h :
  roster (summaries (news_of (free_ribosome rnd "FreeRibosomes" i) h))
  = [organelle_tag "FreeRibosomes" "FreeRibosome_" KMesh "Ribosome"].
Proof. roster_block (free_ribosome_news rnd i h). Qed.

Lemma create_free_ribosomes_roster h :
  roster (summaries (news_of (create_free_ribosomes rnd) h))
  = times 60 [organelle_tag "FreeRibosomes" "FreeRibosome_" KMesh "Ribosome"].
Proof. rewrite create_free_ribosomes_news. roster_loop free_ribosome_roster. Qed.

Lemma microtubule_roster i h :
  roster (summaries (news_of (microtubule rnd "Cytoskeleton" i) h))
  = [organelle_tag "Cytoskeleton" "Microtubule_" KCurve "Cytoskeleton"].
Proof. roster_block (microtubule_news rnd i h). Qed.

Lemma create_cytoskeleton_roster h :
  roster (summaries (news_of (create_cytoskeleton rnd) h))
  = times 18 [organelle_tag "Cytoskeleton" "Microtubule_" KCurve "Cytoskeleton"].
Proof. rewrite create_cytoskeleton_news. roster_loop microtubule_roster. Qed.

Lemma final_setup_roster h :
  roster (summaries (news_of final_setup h))
  = [([scene_collection], "Camera", KCamera, []);
     ([scene_collection], "Light", KLight, []);
     ([scene_collection], "Light", KLight, [])].
Proof. roster_block (final_setup_news h). Qed.

Lemma regroup (T : Type) (a b c t j r : list T) :
  a ++ b ++ c ++ (t ++ j) ++ r = (a ++ b ++ c) ++ t ++ j ++ r.
Proof. now rewrite <- !app_assoc. Qed.

Lemma generators_roster c :
  roster (summaries (news_of (generators rnd) c))
  = scene_roster (length (ser_links (ser_nodes rnd (720 + c)))).
Proof.
  rewrite generators_news, !summaries_app, !roster_app.
  rewrite create_smooth_er_roster, regroup.
  rewrite create_membrane_roster, create_nucleus_roster, create_rough_er_roster,
    create_mitochondria_roster, create_golgi_roster,
    create_lysosomes_roster, create_centrosome_roster, create_free_ribosomes_roster,
    create_cytoskeleton_roster, final_setup_roster.
  reflexivity.
Qed.

Lemma scene_roster_eq w :
  roster (scene rnd w)
  = scene_roster (length (ser_links (ser_nodes rnd (720 + cursor w)))).
Proof. rewrite scene_eq. apply generators_roster. Qed.

End Rosters.

(* ================================================================== *)
(** ** What the roster tells *)
(* ================================================================== *)

Lemma Forall_times (T : Type) (P : T -> Prop) n l : Forall P l -> Forall P (times n l).
Proof.
  intros H. induction n as [|n IH]; cbn [times]; [ constructor | ].
  now apply Forall_app_intro.
Qed.

Lemma filter_times_length (T : Type) (f : T -> bool) n l :
  length (filter f (times n l)) = (n * length (filter f l))%nat.
Proof.
  induction n as [|n IH]; cbn [times Nat.mul]; [ reflexivity | ].
  now rewrite filter_app, length_app, IH.
Qed.

Lemma existsb_times (T : Type) (f : T -> bool) n l :
  existsb f (times n l) = existsb f l && negb (Nat.eqb n 0).
Proof.
  induction n as [|n IH]; cbn [times].
  - cbn. now rewrite andb_false_r.
  - rewrite existsb_app, IH. cbn [Nat.eqb negb].
    destruct (existsb f l); reflexivity.
Qed.

Lemma scene_roster_length tubes : length (scene_roster tubes) = (465 + tubes)%nat.
Proof.
  unfold scene_roster. rewrite !length_app, times_length.
  change (length roster_before_tubes) with 222%nat.
  change (length roster_after_tubes) with 243%nat.
  cbn [length]. lia.
Qed.

Lemma scene_roster_filter_length f tubes :
  length (filter f (scene_roster tubes))
  = (tubes * (if f tube_tag then 1 else 0) + length (filter f (scene_roster 0)))%nat.
Proof.
  unfold scene_roster. cbn [times app].
  rewrite !filter_app, !length_app, filter_times_length. cbn [filter].
  destruct (f tube_tag); cbn [length]; lia.
Qed.

Lemma scene_roster_existsb f tubes :
  existsb f (scene_roster tubes)
  = (f tube_tag && negb (Nat.eqb tubes 0)) || existsb f (scene_roster 0).
Proof.
  unfold scene_roster. cbn [times app].
  rewrite !existsb_app, existsb_times. cbn [existsb]. rewrite orb_false_r.
  destruct (existsb f roster_before_tubes), (f tube_tag), (negb (Nat.eqb tubes 0)),
    (existsb f roster_after_tubes); reflexivity.
Qed.

Ltac roster_forall :=
  repeat lazymatch goal with
         | |- Forall _ (_ ++ _) => apply Forall_app_intro
         | |- Forall _ (times _ _) => apply Forall_times
         | |- Forall _ (_ :: _) => apply Forall_cons; [ reflexivity | ]
         | |- Forall _ [] => apply Forall_nil
         end.

Lemma scene_roster_filed tubes : Forall (fun t => filed t = true) (scene_roster tubes).
Proof. unfold scene_roster, roster_before_tubes, roster_after_tubes. roster_forall. Qed.

Lemma in_group_tag k s : in_group (fst k) (snd k) s = tag_in_group k (tag s).
Proof. reflexivity. Qed.

Lemma select_length_roster k ss :
  length (select k ss) = length (filter (tag_in_group k) (roster ss)).
Proof.
  induction ss as [|s ss IH]; [ reflexivity | ].
  unfold select in *. cbn [filter roster map]. rewrite in_group_tag.
  destruct (tag_in_group k (tag s)); cbn [length]; now rewrite IH.
Qed.

Lemma filed_spec t :
  filed t = true ->
  exists c, tag_collections t = [c] /\ In c (scene_collection :: script_children).
Proof.
  unfold filed. destruct (tag_collections t) as [|c [|c' l]]; try discriminate.
  intros H. exists c. split; [ reflexivity | ].
  apply existsb_exists in H. destruct H as (x & Hx & E).
  apply String.eqb_eq in E. now subst.
Qed.

Section RosterFacts.
Variable rnd : nat -> R.

Lemma scene_tubes_count w :
  length (tube_edges (scene rnd w))
  = length (ser_links (ser_nodes rnd (720 + cursor w))).
Proof. rewrite scene_eq, scene_tube_edges. reflexivity. Qed.

Lemma scene_length w :
  length (scene rnd w) = (465 + length (tube_edges (scene rnd w)))%nat.
Proof.
  rewrite scene_tubes_count.
  rewrite <- scene_roster_length, <- scene_roster_eq.
  unfold roster. now rewrite length_map.
Qed.

Lemma scene_group_count k w :
  length (select k (scene rnd w))
  = (length (tube_edges (scene rnd w)) * (if tag_in_group k tube_tag then 1 else 0)
     + length (filter (tag_in_group k) (scene_roster 0)))%nat.
Proof.
  rewrite select_length_roster, scene_roster_eq, scene_roster_filter_length.
  now rewrite scene_tubes_count.
Qed.

Lemma scene_filed w :
  Forall (fun s => exists c, s_collections s = [c]
                             /\ In c (scene_collection :: script_children))
         (scene rnd w).
Proof.
  pose proof (scene_roster_filed (length (ser_links (ser_nodes rnd (720 + cursor w)))))
    as H.
  rewrite <- scene_roster_eq in H. unfold roster in H. rewrite Forall_map in H.
  eapply Forall_impl; [ | exact H ]. intros s Hs. now apply filed_spec in Hs.
Qed.

End RosterFacts.

(* ================================================================== *)
(** ** Where the other generators put their objects *)
(* ================================================================== *)

Section LoopAt.
Variables (A : Type) (body : A -> M unit) (K : nat).
Hypothesis body_steps : forall x, steps (body x) K.

(** As [loop_select], for a property that depends on the draw at which
    an iteration starts. *)
Lemma loop_select_steps k (P : Summary -> Prop) l : forall c,
  (forall n x, nth_error l n = Some x ->
     Forall P (select k (summaries (news_of (body x) (n * K + c))))) ->
  Forall P (select k (summaries (news_of (for_each l body) c))).
Proof.
  assert (Hf : forall x, framed (body x)) by (intros x; apply (body_steps x)).
  induction l as [|x l IH]; intros c H.
  - change (news_of (for_each [] body) c) with (@nil Obj). constructor.
  - rewrite news_of_for_each_cons, summaries_app, select_app by assumption.
    apply Forall_app_intro.
    + apply (H 0%nat x eq_refl).
    + rewrite (proj2 (body_steps x)). apply IH. intros n y Hn.
      replace (n * K + (K + c))%nat with (S n * K + c)%nat by lia.
      now apply (H (S n)).
Qed.
End LoopAt.

Lemma vsub_vadd_r p q : vsub (vadd p q) q = p.
Proof.
  destruct p as [a b c], q as [d e f]. unfold vsub, vadd; cbn [vx vy vz].
  f_equal; ring.
Qed.

Lemma point_in_sphere_bound rnd radius c :
  valid_draws rnd -> 0 < radius -> vlength (point_in_sphere rnd radius c) <= radius.
Proof.
  intros Hv Hr. rewrite point_in_sphere_length by assumption.
  assert (Hy : 0 < 1 / 3) by lra.
  pose proof (@fpow_unit _ _ (Hv (2 + c)%nat) Hy) as H. nra.
Qed.

Lemma push_out_upper threshold min_radius p bound :
  vlength p <= bound -> 0 <= min_radius <= bound ->
  vlength (push_out threshold min_radius p) <= bound.
Proof.
  intros Hp Hr.
  destruct (Rlt_dec (vlength p) threshold) as [Hlt|Hge].
  - destruct (Req_dec_T (vlength p) 0) as [Hz|Hnz].
    + apply vlength_zero_iff in Hz. subst p. rewrite vlength_vzero in Hlt.
      rewrite push_out_origin by assumption. rewrite vlength_vzero. lra.
    + assert (Hne : p <> vzero) by (intros E; apply Hnz; now apply vlength_zero_iff).
      destruct (@push_out_near threshold min_radius p Hne Hlt) as [_ ->]; lra.
  - rewrite push_out_far by lra. assumption.
Qed.

Lemma placed_within rnd threshold min_radius radius s :
  valid_draws rnd -> 0 < radius -> 0 <= min_radius <= radius ->
  placed rnd threshold min_radius radius s -> vlength (s_location s) <= radius.
Proof.
  intros Hv Hr Hm [n ->]. apply push_out_upper; [ | assumption ].
  now apply point_in_sphere_bound.
Qed.

(** Drops from a selection of the scene the generators without a member
    of group number [idx]. *)
Ltac locate rnd idx c :=
  rewrite generators_news, !summaries_app, !select_app;
  try vanish (create_membrane_census c) idx;
  try vanish (create_nucleus_census rnd c) idx;
  try vanish (create_rough_er_census rnd (120 + c)) idx;
  try vanish (create_smooth_er_census rnd (720 + c)) idx;
  try vanish (create_mitochondria_census rnd (after_ser rnd c)) idx;
  try vanish (create_golgi_census rnd (96 + after_ser rnd c)) idx;
  try vanish (create_lysosomes_census rnd (128 + after_ser rnd c)) idx;
  try vanish (create_centrosome_census (168 + after_ser rnd c)) idx;
  try vanish (create_free_ribosomes_census rnd (168 + after_ser rnd c)) idx;
  try vanish (create_cytoskeleton_census rnd (348 + after_ser rnd c)) idx;
  try vanish (final_setup_census (456 + after_ser rnd c)) idx;
  rewrite ?app_nil_l, ?app_nil_r.

Section MorePlacement.
Variable rnd : nat -> R.

Lemma scene_chromatin c :
  select ("Nucleus", "Chromatin") (summaries (news_of (generators rnd) c))
  = select ("Nucleus", "Chromatin") (summaries (news_of (create_nucleus rnd) c)).
Proof. locate rnd 0%nat c. reflexivity. Qed.

Lemma scene_golgi_cisternae c :
  select ("GolgiApparatus", "GolgiCisterna_") (summaries (news_of (generators rnd) c))
  = select ("GolgiApparatus", "GolgiCisterna_")
      (summaries (news_of (create_golgi rnd) (96 + after_ser rnd c))).
Proof. locate rnd 5%nat c. reflexivity. Qed.

Lemma scene_golgi_vesicles c :
  select ("GolgiApparatus", "GolgiVesicle_") (summaries (news_of (generators rnd) c))
  = select ("GolgiApparatus", "GolgiVesicle_")
      (summaries (news_of (create_golgi rnd) (96 + after_ser rnd c))).
Proof. locate rnd 6%nat c. reflexivity. Qed.

Lemma scene_microtubules c :
  select ("Cytoskeleton", "Microtubule_") (summaries (news_of (generators rnd) c))
  = select ("Cytoskeleton", "Microtubule_")
      (summaries (news_of (create_cytoskeleton rnd) (348 + after_ser rnd c))).
Proof. locate rnd 10%nat c. reflexivity. Qed.

(** *** Golgi apparatus *)

Lemma create_golgi_sheets h :
  Forall golgi_sheet
    (select ("GolgiApparatus", "GolgiCisterna_")
       (summaries (news_of (create_golgi rnd) h))).
Proof.
  rewrite create_golgi_news, summaries_app, select_app. apply Forall_app_intro.
  - apply loop_select; [ framed_hint | ]. intros i c Hi.
    by_news (golgi_cisterna_news i c). select_list.
    constructor; [ | constructor ]. exists i. apply in_range in Hi.
    repeat split; [ assumption | reflexivity .. ].
  - apply loop_select; [ framed_hint | ]. intros i c _.
    vanish (golgi_vesicle_census rnd i c) 5%nat. constructor.
Qed.

(** *** Centrosome *)

Lemma centriole_summaries_ring c : Forall (on_ring c) (centriole_summaries c).
Proof.
  apply Forall_forall. intros s Hs. unfold centriole_summaries in Hs.
  apply in_flat_map in Hs. destruct Hs as (i & _ & Hs).
  apply in_map_iff in Hs. destruct Hs as (t & <- & Ht). apply in_range in Ht.
  exists t. split; [ assumption | ].
  unfold centriole_tube_summary. cbv zeta. cbn [s_location]. unfold vadd. cbn [vx vy vz].
  set (a := INR i / 9 * 2 * PI + INR t * 0.08). set (r := 0.07 + INR t * 0.015).
  split; [ | ring ].
  transitivity (r * r * ((sin a)² + (cos a)²)); [ unfold Rsqr; ring | ].
  rewrite sin2_cos2. ring.
Qed.

Hypothesis rnd_valid : valid_draws rnd.

Lemma create_golgi_vesicles h :
  Forall (fun s => beside_golgi (s_location s) /\ s_rotation s = vzero)
    (select ("GolgiApparatus", "GolgiVesicle_")
       (summaries (news_of (create_golgi rnd) h))).
Proof.
  rewrite create_golgi_news, summaries_app, select_app. apply Forall_app_intro.
  - apply loop_select; [ framed_hint | ]. intros i c _.
    vanish (golgi_cisterna_census i c) 6%nat. constructor.
  - apply loop_select; [ framed_hint | ]. intros i c _.
    by_news (golgi_vesicle_news rnd i c). select_list.
    constructor; [ | constructor ]. split; [ | reflexivity ].
    unfold beside_golgi. cbn [s_location]. unfold vadd. cbn [vx vy vz].
    pose proof (@uniform_at_range rnd 0 0.2 (1 + c) rnd_valid ltac:(lra)).
    pose proof (@uniform_at_range rnd (-0.15) 0.35 (2 + c) rnd_valid ltac:(lra)).
    pose proof (@uniform_at_range rnd (-0.2) 0.2 (3 + c) rnd_valid ltac:(lra)).
    repeat split; lra.
Qed.

(** *** Chromatin *)

Lemma chromatin_strand_inside i h :
  Forall strand_in_nucleus
    (select ("Nucleus", "Chromatin")
       (summaries (news_of (chromatin_strand rnd "Nucleus" i) h))).
Proof.
  by_news (chromatin_strand_news rnd i h). select_list.
  constructor; [ | constructor ].
  unfold strand_in_nucleus. cbn [s_points s_location s_rotation].
  split; [ reflexivity | ]. split; [ | split; reflexivity ].
  repeat (constructor;
          [ unfold nucleus_centre; rewrite vsub_vadd_r;
            apply point_in_sphere_bound; [ assumption | lra ] | ]).
  constructor.
Qed.

Lemma create_nucleus_strands h :
  Forall strand_in_nucleus
    (select ("Nucleus", "Chromatin") (summaries (news_of (create_nucleus rnd) h))).
Proof.
  destruct (create_nucleus_news rnd h) as (e & n & nl & -> & E1 & E2 & E3).
  rewrite !summaries_cons, E1, E2, E3. select_list.
  apply loop_select; [ framed_hint | ]. intros i c _. apply chromatin_strand_inside.
Qed.

End MorePlacement.

(* ================================================================== *)
(** ** Microtubules *)
(* ================================================================== *)

Lemma spherical_disc r phi theta :
  r * sin phi * cos theta * (r * sin phi * cos theta)
  + r * cos phi * (r * cos phi) <= r * r.
Proof.
  assert (E : r * sin phi * cos theta * (r * sin phi * cos theta)
              + r * cos phi * (r * cos phi)
              = r * r * (1 - (sin phi)² * (sin theta)²)).
  { transitivity (r * r * ((sin phi)² * (((sin theta)² + (cos theta)²) - (sin theta)²)
                           + (((sin phi)² + (cos phi)²) - (sin phi)²)));
      [ unfold Rsqr; ring | rewrite !sin2_cos2; ring ]. }
  rewrite E.
  pose proof (Rle_0_sqr (sin phi)) as H1. pose proof (Rle_0_sqr (sin theta)) as H2.
  pose proof (Rle_0_sqr r) as Hr. unfold Rsqr in Hr.
  assert (0 <= (sin phi)² * (sin theta)²) by now apply Rmult_le_pos.
  nra.
Qed.

Lemma point_on_sphere_disc rnd radius c :
  vx (point_on_sphere rnd radius c) * vx (point_on_sphere rnd radius c)
  + vz (point_on_sphere rnd radius c) * vz (point_on_sphere rnd radius c)
  <= radius * radius.
Proof. rewrite point_on_sphere_eq. cbv zeta. cbn [vx vz]. apply spherical_disc. Qed.

Lemma escape_draws_valid : valid_draws escape_draws.
Proof. intros n. unfold escape_draws. destruct (Nat.eqb (n mod 3) 2); lra. Qed.

Lemma escape_draws_at q k :
  (k < 3)%nat -> escape_draws (k + q * 3) = if Nat.eqb k 2 then 0.5 else 0.
Proof.
  intros Hk. unfold escape_draws. now rewrite Nat.Div0.mod_add, Nat.mod_small.
Qed.

Lemma escape_end q : microtubule_end escape_draws (1 + q * 3) = vec 2.7 (-2) 0.
Proof.
  unfold microtubule_end. rewrite point_on_sphere_eq, uniform_at_eq. cbv zeta.
  cbn [vx vz].
  replace (1 + (1 + q * 3))%nat with (2 + q * 3)%nat by lia.
  replace (2 + (1 + q * 3))%nat with (0 + (S q) * 3)%nat by lia.
  rewrite (@escape_draws_at q 1), (@escape_draws_at q 2), (@escape_draws_at (S q) 0)
    by lia.
  cbn [Nat.eqb].
  replace (2 * 0.5 - 1) with 0 by lra.
  rewrite acos_0, Rmult_0_r, sin_PI2, cos_0, cos_PI2. f_equal; lra.
Qed.

Section Microtubules.
Variable rnd : nat -> R.

Lemma microtubule_points i h :
  map summary (news_of (microtubule rnd "Cytoskeleton" i) h)
  = [mkSummary [Lit "Microtubule_"; Num i] KCurve ["Cytoskeleton"] [mat_cytoskeleton]
       vzero vzero [centro_base_pos; microtubule_end rnd h]].
Proof. news. reflexivity. Qed.

Lemma microtubule_radiates i h :
  valid_draws rnd ->
  Forall radiates
    (select ("Cytoskeleton", "Microtubule_")
       (summaries (news_of (microtubule rnd "Cytoskeleton" i) h))).
Proof.
  intros Hv. by_news (microtubule_points i h). select_list.
  constructor; [ | constructor ]. exists (microtubule_end rnd h).
  split; [ reflexivity | ]. unfold microtubule_end. cbn [vx vy vz s_location s_rotation].
  split; [ | split; [ apply point_on_sphere_disc | split; reflexivity ] ].
  pose proof (@uniform_at_range rnd (-2) 2 (2 + h) Hv ltac:(lra)).
  apply Rabs_le. lra.
Qed.

Lemma create_cytoskeleton_radiates h :
  valid_draws rnd ->
  Forall radiates
    (select ("Cytoskeleton", "Microtubule_")
       (summaries (news_of (create_cytoskeleton rnd) h))).
Proof.
  intros Hv. rewrite create_cytoskeleton_news.
  apply loop_select; [ framed_hint | ]. intros i c _. now apply microtubule_radiates.
Qed.

End Microtubules.

(** With the draws [escape_draws] every microtubule ends at
    (2.7, -2, 0). *)
Lemma escape_microtubules w :
  Forall (fun s => s_points s = [centro_base_pos; vec 2.7 (-2) 0])
    (select ("Cytoskeleton", "Microtubule_")
       (summaries (objects (run_script escape_draws w)))).
Proof.
  rewrite run_script_objects, scene_microtubules, create_cytoskeleton_news.
  apply (@loop_select_steps _ (microtubule escape_draws "Cytoskeleton") 6
           (microtubule_steps escape_draws)).
  intros n i _.
  by_news (microtubule_points escape_draws i
             (n * 6 + (348 + after_ser escape_draws 0))).
  select_list. constructor; [ | constructor ]. cbn [s_points].
  replace (n * 6 + (348 + after_ser escape_draws 0))%nat
    with (1 + (2 * n + length (ser_links (ser_nodes escape_draws (720 + 0))) + 389) * 3)%nat
    by (unfold after_ser; lia).
  now rewrite escape_end.
Qed.

Lemma escape_distance : 3 < vlength (vec 2.7 (-2) 0).
Proof.
  unfold vlength. cbn [vx vy vz]. rewrite <- (sqrt_square 3) at 1 by lra.
  apply sqrt_lt_1_alt. lra.
Qed.

(* ================================================================== *)
(** ** The nearest neighbours of a node *)
(* ================================================================== *)

Lemma insert_by_dist_In_iff x a l : In x (insert_by_dist a l) <-> x = a \/ In x l.
Proof.
  split; [ apply insert_by_dist_In | ].
  induction l as [|y l IH]; cbn [insert_by_dist].
  - intros [-> | []]. now left.
  - destruct (Rle_dec (snd a) (snd y)).
    + intros [-> | H]; [ now left | now right ].
    + intros [-> | [-> | H]]; [ right; apply IH; now left | now left | ].
      right. apply IH. now right.
Qed.

Lemma sort_by_dist_In_iff x l : In x (sort_by_dist l) <-> In x l.
Proof.
  split; [ apply sort_by_dist_In | ].
  induction l as [|a l IH]; cbn [sort_by_dist fold_right]; [ auto | ].
  intros [-> | H]; apply insert_by_dist_In_iff; [ now left | right; now apply IH ].
Qed.

Lemma insert_by_dist_ascending a l : ascending l -> ascending (insert_by_dist a l).
Proof.
  induction l as [|y l IH]; cbn [insert_by_dist ascending].
  - intros _. split; [ constructor | exact I ].
  - intros [Hy Hl]. destruct (Rle_dec (snd a) (snd y)) as [Hle|Hgt].
    + cbn [ascending]. split; [ | split; assumption ].
      constructor; [ assumption | ].
      eapply Forall_impl; [ | exact Hy ]. cbv beta. intros z Hz. lra.
    + cbn [ascending]. split; [ | now apply IH ].
      apply Forall_forall. intros z Hz. apply insert_by_dist_In in Hz.
      destruct Hz as [-> | Hz]; [ lra | ].
      rewrite Forall_forall in Hy. now apply Hy.
Qed.

Lemma sort_by_dist_ascending l : ascending (sort_by_dist l).
Proof.
  induction l as [|a l IH]; cbn [sort_by_dist fold_right]; [ exact I | ].
  now apply insert_by_dist_ascending.
Qed.

Lemma ascending_app l m :
  ascending (l ++ m) ->
  ascending l /\ forall x y, In x l -> In y m -> snd x <= snd y.
Proof.
  induction l as [|a l IH]; cbn [app ascending].
  - intros _. split; [ exact I | intros x y [] ].
  - intros [Ha Hl]. destruct (IH Hl) as [IH1 IH2].
    apply Forall_app in Ha. destruct Ha as [Ha1 Ha2]. split; [ now split | ].
    intros x y [<- | Hx] Hy.
    + rewrite Forall_forall in Ha2. now apply Ha2.
    + now apply IH2.
Qed.

Section Nearest.
Variables (nodes : list Vec) (i : nat) (node : Vec).

Lemma ser_nearest_firstn :
  ser_nearest nodes i node = firstn 3 (ser_distances nodes i node).
Proof. reflexivity. Qed.

Lemma ser_distances_ascending : ascending (ser_distances nodes i node).
Proof. apply sort_by_dist_ascending. Qed.

Lemma ser_nearest_ascending : ascending (ser_nearest nodes i node).
Proof.
  rewrite ser_nearest_firstn.
  pose proof ser_distances_ascending as H.
  rewrite <- (firstn_skipn 3 (ser_distances nodes i node)) in H.
  now apply ascending_app in H.
Qed.

(** A node that is not among the candidates is at least as far as each
    of them. *)
Lemma ser_nearest_closest j jd :
  (j < length nodes)%nat -> j <> i ->
  ~ In j (map fst (ser_nearest nodes i node)) ->
  In jd (ser_nearest nodes i node) ->
  snd jd <= vlength (vsub node (nth j nodes vzero)).
Proof.
  intros Hj Hne Hout Hin. rewrite ser_nearest_firstn in *.
  assert (Hall : In (j, vlength (vsub node (nth j nodes vzero)))
                     (ser_distances nodes i node)).
  { unfold ser_distances. apply sort_by_dist_In_iff, in_map_iff. exists j.
    split; [ reflexivity | ]. apply filter_In. split.
    - unfold range. apply in_seq. lia.
    - apply negb_true_iff, Nat.eqb_neq. assumption. }
  rewrite <- (firstn_skipn 3 (ser_distances nodes i node)) in Hall.
  apply in_app_or in Hall.
  destruct Hall as [H | H].
  - exfalso. apply Hout. apply in_map_iff.
    exists (j, vlength (vsub node (nth j nodes vzero))). now split.
  - pose proof ser_distances_ascending as Hs.
    rewrite <- (firstn_skipn 3 (ser_distances nodes i node)) in Hs.
    apply ascending_app in Hs. destruct Hs as [_ Hs].
    apply (Hs jd _ Hin H).
Qed.
End Nearest.

(** *** Every tube goes to one of the three nearest *)

Lemma ser_links_near_from i near : forall connected,
  Forall (fun e => fst e = i /\ In (snd e) (map fst near))
         (fst (ser_links_near i near connected)).
Proof.
  induction near as [|jd rest IH]; intros connected; cbn [ser_links_near].
  - constructor.
  - destruct (ser_accepts connected i jd).
    + specialize (IH (set_add (ser_key i (fst jd)) connected)).
      destruct (ser_links_near i rest (set_add (ser_key i (fst jd)) connected))
        as [tubes c'].
      cbn [fst] in *. constructor.
      * cbn [fst snd map]. split; [ reflexivity | now left ].
      * eapply Forall_impl; [ | exact IH ]. intros e [H1 H2].
        split; [ assumption | now right ].
    + eapply Forall_impl; [ | apply IH ]. intros e [H1 H2].
      split; [ assumption | now right ].
Qed.

Lemma ser_links_from_nearest nodes inodes : forall connected,
  (forall inode, In inode inodes -> snd inode = nth (fst inode) nodes vzero) ->
  Forall (fun e =>
            In (snd e)
               (map fst (ser_nearest nodes (fst e) (nth (fst e) nodes vzero))))
         (fst (ser_links_from nodes inodes connected)).
Proof.
  induction inodes as [|inode rest IH]; intros connected Hin; cbn [ser_links_from].
  - constructor.
  - pose proof (ser_links_near_from (fst inode)
                  (ser_nearest nodes (fst inode) (snd inode)) connected) as Hn.
    destruct (ser_links_near (fst inode) (ser_nearest nodes (fst inode) (snd inode))
                connected) as [tubes c'].
    specialize (IH c' (fun x H => Hin x (or_intror H))).
    destruct (ser_links_from nodes rest c') as [tubes' c''].
    cbn [fst] in *. apply Forall_app_intro; [ | assumption ].
    eapply Forall_impl; [ | exact Hn ]. intros e [H1 H2].
    rewrite H1, <- (Hin inode (or_introl eq_refl)). assumption.
Qed.

Lemma ser_links_nearest nodes :
  Forall (fun e =>
            In (snd e)
               (map fst (ser_nearest nodes (fst e) (nth (fst e) nodes vzero))))
         (ser_links nodes).
Proof.
  unfold ser_links. apply ser_links_from_nearest.
  intros [i v] H. now apply (enumerate_spec vzero) in H.
Qed.

Lemma map_nth_range (T : Type) (d : T) l :
  map (fun i => nth i l d) (range (length l)) = l.
Proof.
  unfold range. induction l as [|x l IH]; [ reflexivity | ].
  cbn [length seq map nth]. f_equal.
  rewrite <- seq_shift, map_map. exact IH.
Qed.

Lemma scene_junction_positions rnd w :
  junction_positions (scene rnd w) = ser_nodes rnd (720 + cursor w).
Proof.
  unfold junction_positions. rewrite scene_eq.
  transitivity (map (fun i => nth i (ser_nodes rnd (720 + cursor w)) vzero) (range 25)).
  - apply map_ext. intros i. apply scene_junction_location.
  - rewrite <- (ser_nodes_length rnd (720 + cursor w)). apply map_nth_range.
Qed.

(* ================================================================== *)
(** ** What a regeneration leaves behind *)
(* ================================================================== *)

Lemma is_mesh_kind d : is_mesh d = kind_is_mesh (kind_of (body d)).
Proof. unfold is_mesh. now destruct (body d). Qed.

Lemma uses_material_names m d :
  uses_material m d
  = existsb (fun n' => String.eqb n' (mat_name m)) (map mat_name (materials d)).
Proof.
  unfold uses_material. induction (materials d) as [|m' l IH]; [ reflexivity | ].
  cbn [existsb map]. now rewrite IH.
Qed.

Lemma kept_tags objs :
  length (filter (fun d => negb (is_mesh d)) (map ob_data objs))
  = length (filter tag_kept (roster (summaries objs))).
Proof.
  induction objs as [|o objs IH]; [ reflexivity | ].
  cbn [map filter summaries roster]. rewrite is_mesh_kind.
  change (tag_kept (tag (summary o)))
    with (negb (kind_is_mesh (kind_of (body (ob_data o))))).
  destruct (negb (kind_is_mesh (kind_of (body (ob_data o))))); cbn [length];
    unfold summaries, roster in IH; now rewrite IH.
Qed.

Lemma kept_used m objs :
  existsb (uses_material m) (filter (fun d => negb (is_mesh d)) (map ob_data objs))
  = existsb (tag_keeps (mat_name m)) (roster (summaries objs)).
Proof.
  induction objs as [|o objs IH]; [ reflexivity | ].
  cbn [map filter summaries roster existsb]. rewrite is_mesh_kind.
  change (tag_keeps (mat_name m) (tag (summary o)))
    with (negb (kind_is_mesh (kind_of (body (ob_data o))))
          && existsb (fun n' => String.eqb n' (mat_name m))
                     (map mat_name (materials (ob_data o)))).
  rewrite <- uses_material_names.
  unfold summaries, roster in IH.
  destruct (negb (kind_is_mesh (kind_of (body (ob_data o))))); cbn [existsb andb];
    now rewrite IH.
Qed.

Lemma filter_names (g : string -> bool) l :
  map mat_name (filter (fun m => g (mat_name m)) l) = filter g (map mat_name l).
Proof.
  induction l as [|m l IH]; [ reflexivity | ].
  cbn [filter map]. destruct (g (mat_name m)); cbn [map]; now rewrite IH.
Qed.

Lemma scene_roster_survivors tubes :
  filter (fun n => existsb (tag_keeps n) (scene_roster tubes)) (map mat_name all_materials)
  = survivors tubes.
Proof.
  rewrite (filter_ext _ (fun n => (tag_keeps n tube_tag && negb (Nat.eqb tubes 0))
                                  || existsb (tag_keeps n) (scene_roster 0)))
    by (intros n; apply scene_roster_existsb).
  unfold survivors. destruct tubes as [|n]; cbn [Nat.eqb negb]; lazy; reflexivity.
Qed.

Lemma scene_roster_kept tubes :
  length (filter tag_kept (scene_roster tubes)) = (31 + tubes)%nat.
Proof.
  rewrite scene_roster_filter_length.
  change (length (filter tag_kept (scene_roster 0))) with 31%nat.
  change (tag_kept tube_tag) with true. cbv iota. lia.
Qed.

Section Regeneration.
Variables rnd rnd' : nat -> R.

Lemma kept_data_scene w :
  kept_data w = [] ->
  kept_data (after (generate_cell rnd) w)
  = filter (fun d => negb (is_mesh d))
           (map ob_data (objects (after (generate_cell rnd) w))).
Proof.
  intros H. unfold kept_data at 1.
  destruct (generate_cell_registries rnd w) as (_ & _ & -> & _).
  now rewrite H.
Qed.

Lemma kept_materials_fresh w : kept_data w = [] -> kept_materials w = [].
Proof.
  intros H. unfold kept_materials. rewrite H. cbn [existsb].
  induction (bpy_materials w) as [|m l IH]; [ reflexivity | exact IH ].
Qed.

Lemma regenerated_materials w :
  kept_data w = [] ->
  let w1 := after (generate_cell rnd) w in
  let w2 := after (generate_cell rnd') w1 in
  bpy_materials w1 = all_materials
  /\ map mat_name (bpy_materials w2)
     = survivors (length (tube_edges (scene rnd w))) ++ map mat_name all_materials
  /\ length (orphans w2) = (31 + length (tube_edges (scene rnd w)))%nat.
Proof.
  intros H. cbv zeta.
  destruct (generate_cell_registries rnd w) as (_ & _ & _ & E1).
  rewrite (@kept_materials_fresh w H) in E1. cbn [app] in E1.
  destruct (generate_cell_registries rnd' (after (generate_cell rnd) w))
    as (_ & _ & E2 & E3).
  split; [ exact E1 | ]. rewrite E3, E2, map_app. split.
  - f_equal. unfold kept_materials. rewrite E1, (@kept_data_scene w H).
    rewrite (filter_ext _ (fun m => existsb (tag_keeps (mat_name m))
                                      (roster (scene rnd w))))
      by (intros m; apply kept_used).
    rewrite (filter_names (fun n => existsb (tag_keeps n) (roster (scene rnd w)))).
    rewrite scene_roster_eq, <- scene_tubes_count. apply scene_roster_survivors.
  - rewrite (@kept_data_scene w H), kept_tags.
    change (summaries (objects (after (generate_cell rnd) w))) with (scene rnd w).
    rewrite scene_roster_eq, <- scene_tubes_count. apply scene_roster_kept.
Qed.

End Regeneration.

(* ================================================================== *)
(** ** Further properties of the script *)
(* ================================================================== *)

(** X1: [clear_scene] leaves no object, no active object and no scene
    camera; it keeps no mesh data block and only materials that a kept
    data block still uses; it leaves the collections and the random
    generator alone; and clearing twice is clearing once. *)
Theorem X1_clear_scene_idempotent (w : World) :
  let w1 := after clear_scene w in
  objects w1 = [] /\ active w1 = None /\ scene_camera w1 = None
  /\ Forall (fun d => is_mesh d = false) (orphans w1)
  /\ Forall (fun m => existsb (uses_material m) (orphans w1) = true) (bpy_materials w1)
  /\ bpy_collections w1 = bpy_collections w
  /\ scene_children w1 = scene_children w
  /\ cursor w1 = cursor w
  /\ after clear_scene w1 = w1.
Proof.
  cbv zeta. rewrite clear_scene_idempotent, clear_scene_world.
  cbn [objects active scene_camera orphans bpy_materials bpy_collections
       scene_children cursor].
  repeat split.
  - apply Forall_forall. intros d Hd. unfold kept_data in Hd.
    apply filter_In in Hd. destruct Hd as [_ Hd]. now apply negb_true_iff in Hd.
  - apply Forall_forall. intros m Hm. unfold kept_materials in Hm.
    apply filter_In in Hm. now destruct Hm.
Qed.

(** X2: [random_point_on_sphere] returns a point at distance exactly
    |radius| from the origin, whatever the draws. *)
Theorem X2_point_on_sphere_radius (rnd : nat -> R) (radius : R) (w : World) :
  vlength (eval (random_point_on_sphere rnd radius) w) = Rabs radius.
Proof.
  rewrite random_point_on_sphere_eval, point_on_sphere_eq. cbv zeta.
  apply spherical_length_abs.
Qed.

(** X3: with draws in [0, 1), the point [random_point_in_sphere] returns
    is the point [random_point_on_sphere 1] would return at the same
    draws, scaled by radius * w^(1/3) for the third draw w; its height is
    that scale times 2v - 1 for the second draw v. *)
Theorem X3_point_in_sphere_scaled (rnd : nat -> R) (radius : R) (w : World) :
  valid_draws rnd ->
  let r := radius * fpow (rnd (2 + cursor w)%nat) (1 / 3) in
  eval (random_point_in_sphere rnd radius) w
  = vscale (eval (random_point_on_sphere rnd 1) w) r
  /\ vz (eval (random_point_in_sphere rnd radius) w)
     = r * (2 * rnd (1 + cursor w)%nat - 1).
Proof.
  intros Hv. cbv zeta.
  rewrite random_point_in_sphere_eval, random_point_on_sphere_eval,
    point_in_sphere_eq, point_on_sphere_eq.
  cbv zeta. split.
  - unfold vscale. cbn [vx vy vz]. f_equal; ring.
  - cbn [vz]. rewrite cos_acos by now apply draw_in_acos_domain. reflexivity.
Qed.

Lemma X3_witness :
  valid_draws zero_draws
  /\ vz (eval (random_point_in_sphere zero_draws 2) (world_at 0))
     = 2 * fpow (zero_draws (2 + 0)%nat) (1 / 3) * (2 * zero_draws (1 + 0)%nat - 1).
Proof.
  assert (H : valid_draws zero_draws) by (intros n; unfold zero_draws; lra).
  split; [ exact H | ].
  exact (proj2 (X3_point_in_sphere_scaled 2 (world_at 0) H)).
Defined.

(** X4: the mesh [create_er_cisterna] leaves has 196 vertices, the
    14 x 14 grid of the subdivided plane; every vertex keeps x and y
    within 0.5 of the centre and has its height between -0.05 and
    0.26. *)
Theorem X4_deformed_sheet_bounds (width height : R) (loc rot : Vec) (h : nat) :
  Forall (fun b => match b with
                   | Mesh _ vertices =>
                       length vertices = 196%nat
                       /\ Forall (fun v => Rabs (vx v) <= 0.5 /\ Rabs (vy v) <= 0.5
                                           /\ -0.05 <= vz v <= 0.26) vertices
                   | _ => False
                   end)
         (map (fun o => body (ob_data o))
              (news_of (create_er_cisterna width height loc rot) h)).
Proof.
  rewrite create_er_cisterna_mesh. constructor; [ | constructor ]. split.
  - rewrite length_map. apply plane_grid_length.
  - apply Forall_forall. intros v Hv. apply in_map_iff in Hv.
    destruct Hv as (u & <- & Hu). apply plane_grid_range in Hu. destruct Hu as [Hx Hy].
    destruct (@deform_vertex_range u Hx Hy) as (Ex & Ey & Hz).
    rewrite Ex, Ey. auto.
Qed.



(** X6: with draws in [0, 1), each of the 10 chromatin strands is an
    unmoved curve of exactly four control points, every one within 0.7 of
    the centre (0, 0, 0.2) of the nucleus, hence inside the nucleoplasm
    sphere of radius 1.0. *)
Theorem X6_chromatin_in_nucleus (rnd : nat -> R) (w : World) :
  valid_draws rnd ->
  let strands := select ("Nucleus", "Chromatin") (scene rnd w) in
  length strands = 10%nat /\ Forall strand_in_nucleus strands.
Proof.
  intros Hv. cbv zeta. rewrite scene_eq.
  split; [ exact (@scene_count rnd (cursor w) 0%nat _ eq_refl) | ].
  rewrite scene_chromatin. now apply create_nucleus_strands.
Qed.

Lemma X6_witness :
  valid_draws zero_draws
  /\ Forall strand_in_nucleus
            (select ("Nucleus", "Chromatin") (scene zero_draws (world_at 0))).
Proof.
  assert (H : valid_draws zero_draws) by (intros n; unfold zero_draws; lra).
  split; [ exact H | ].
  exact (proj2 (X6_chromatin_in_nucleus (world_at 0) H)).
Defined.













(** X16: the candidates [ser_nearest] returns for node [i] are at most
    three, in ascending order of distance; each is another node, paired
    with its distance from the node; and every other node left out is at
    least as far as each candidate. *)
Theorem X16_nearest_three (nodes : list Vec) (i : nat) (node : Vec) :
  let near := ser_nearest nodes i node in
  let dist j := vlength (vsub node (nth j nodes vzero)) in
  (length near <= 3)%nat
  /\ ascending near
  /\ Forall (fun jd => fst jd <> i /\ (fst jd < length nodes)%nat
                       /\ snd jd = dist (fst jd)) near
  /\ forall j, (j < length nodes)%nat -> j <> i -> ~ In j (map fst near) ->
               Forall (fun jd => snd jd <= dist j) near.
Proof.
  cbv zeta. split; [ apply ser_nearest_length | ].
  split; [ apply ser_nearest_ascending | ]. split.
  - apply Forall_forall. intros jd H. now apply ser_nearest_spec in H.
  - intros j Hj Hne Hout. apply Forall_forall. intros jd H.
    now apply (@ser_nearest_closest nodes i node j jd).
Qed.

(** X17: every tube of the smooth ER joins a junction to one of the
    three junctions nearest to it, measured between the positions of the
    junction spheres of the scene. *)
Theorem X17_tubes_to_nearest (rnd : nat -> R) (w : World) :
  let ss := scene rnd w in
  let nodes := junction_positions ss in
  length nodes = 25%nat
  /\ Forall (fun e => In (snd e)
                        (map fst (ser_nearest nodes (fst e) (nth (fst e) nodes vzero))))
            (tube_edges ss).
Proof.
  cbv zeta. rewrite scene_junction_positions.
  split; [ apply ser_nodes_length | ].
  rewrite scene_eq, scene_tube_edges. apply ser_links_nearest.
Qed.

